(** * GuidedIntegration: the configuration codec and the batch driver

    A shallow embedding of [GuidedIntegration.py].  The script is one linear
    program; each block of it that the properties below talk about is
    embedded as a function over explicit inputs (the lines of the [.int]
    file, the answers typed at the prompts, the file system it observes).

    Text is modelled as [string]: a sequence of characters with code points
    below 256.  The character classes ([isspace], [isdigit], [lower]) agree
    with Python 3 on that range. *)

From Stdlib Require Import String Ascii List ZArith Lia Bool Arith.
From Stdlib Require Import DecimalString DecimalPos DecimalZ.
From stdpp Require Import base gmap strings.
Import ListNotations.
Open Scope string_scope.

(** ** Characters and Python's [str] methods *)

Module PyStr.

Definition chr (n : nat) : ascii := ascii_of_nat n.
Definition nl : string := String (chr 10) EmptyString.
Definition tab : string := String (chr 9) EmptyString.

Definition between (lo hi n : nat) : bool := (lo <=? n)%nat && (n <=? hi)%nat.

(** [c.isspace()] *)
Definition is_space (c : ascii) : bool :=
  let n := nat_of_ascii c in
  between 9 13 n || between 28 32 n || (n =? 133)%nat || (n =? 160)%nat.

(** [c.isdigit()]: the ASCII digits and the superscripts 1, 2, 3. *)
Definition is_digit (c : ascii) : bool :=
  let n := nat_of_ascii c in
  between 48 57 n || (n =? 178)%nat || (n =? 179)%nat || (n =? 185)%nat.

Definition lower_char (c : ascii) : ascii :=
  let n := nat_of_ascii c in
  if between 65 90 n || between 192 214 n || between 216 222 n
  then chr (n + 32) else c.

(** [s.lower()] *)
Fixpoint lower (s : string) : string :=
  match s with
  | EmptyString => EmptyString
  | String c s' => String (lower_char c) (lower s')
  end.

Fixpoint forallb (p : ascii -> bool) (s : string) : bool :=
  match s with
  | EmptyString => true
  | String c s' => p c && forallb p s'
  end.

Fixpoint existsb (p : ascii -> bool) (s : string) : bool :=
  match s with
  | EmptyString => false
  | String c s' => p c || existsb p s'
  end.

(** [True in [i.isdigit() for i in s]] *)
Definition has_digit (s : string) : bool := existsb is_digit s.

Definition is_empty (s : string) : bool :=
  match s with EmptyString => true | _ => false end.

(** [s.startswith(p)] *)
Fixpoint startswith (p s : string) : bool :=
  match p, s with
  | EmptyString, _ => true
  | String a p', String b s' => Ascii.eqb a b && startswith p' s'
  | String _ _, EmptyString => false
  end.

(** [p in s] for strings: [p] occurs in [s] as a substring. *)
Fixpoint contains (p s : string) : bool :=
  startswith p s ||
  match s with
  | EmptyString => false
  | String _ s' => contains p s'
  end.

(** [s.find(p)]: the index of the first occurrence, or [-1]. *)
Fixpoint find (p s : string) : Z :=
  if startswith p s then 0%Z
  else match s with
       | EmptyString => (-1)%Z
       | String _ s' => let r := find p s' in
                        if (r <? 0)%Z then (-1)%Z else (r + 1)%Z
       end.

(** [s.endswith(p)] *)
Fixpoint endswith (p s : string) : bool :=
  String.eqb p s ||
  match s with
  | EmptyString => false
  | String _ s' => endswith p s'
  end.

Fixpoint lstrip_by (p : ascii -> bool) (s : string) : string :=
  match s with
  | EmptyString => EmptyString
  | String c s' => if p c then lstrip_by p s' else s
  end.

Fixpoint rstrip_by (p : ascii -> bool) (s : string) : string :=
  match s with
  | EmptyString => EmptyString
  | String c s' =>
      let r := rstrip_by p s' in
      if is_empty r && p c then EmptyString else String c r
  end.

Definition strip_by (p : ascii -> bool) (s : string) : string :=
  lstrip_by p (rstrip_by p s).

(** [s.strip()] *)
Definition strip (s : string) : string := strip_by is_space s.

Definition char_in (chars : string) (c : ascii) : bool :=
  existsb (Ascii.eqb c) chars.

(** [s.strip(chars)]: removes, at both ends, every character that belongs to
    the set [chars]; [chars] is not a prefix or a suffix. *)
Definition strip_chars (chars s : string) : string := strip_by (char_in chars) s.

(** [s.split(sep)] for a non-empty [sep]: the pieces between the successive,
    non-overlapping occurrences of [sep], scanning from the left.  [skip]
    counts the characters of a separator that are still to be passed. *)
Fixpoint split_go (sep : string) (skip : nat) (s : string) : list string :=
  match s with
  | EmptyString => [EmptyString]
  | String c s' =>
      match skip with
      | S k => split_go sep k s'
      | O =>
          if startswith sep s
          then EmptyString :: split_go sep (String.length sep - 1) s'
          else match split_go sep 0 s' with
               | h :: t => String c h :: t
               | [] => [String c EmptyString]
               end
      end
  end.

Definition split (sep s : string) : list string := split_go sep 0 s.

(** [sep.join(l)] *)
Fixpoint join (sep : string) (l : list string) : string :=
  match l with
  | [] => EmptyString
  | [x] => x
  | x :: t => x ++ sep ++ join sep t
  end.

(** [c * n] *)
Fixpoint repeat (s : string) (n : nat) : string :=
  match n with
  | O => EmptyString
  | S k => s ++ repeat s k
  end.

(** [x in l] for a list of strings. *)
Definition in_list (x : string) (l : list string) : bool :=
  List.existsb (String.eqb x) l.

(** Iterating over a file opened in text mode (universal newlines): a line
    ends at a line feed, at a carriage return, or at a carriage return
    followed by a line feed, and each of these is handed over as one line
    feed; a last line that has no end is kept as it is. *)
Fixpoint readlines (s : string) : list string :=
  match s with
  | EmptyString => []
  | String c s' =>
      if Ascii.eqb c (chr 10) then nl :: readlines s'
      else if Ascii.eqb c (chr 13) then
             (* the line feed after it, if any, ends this same line *)
             if startswith nl s' then readlines s' else nl :: readlines s'
      else match readlines s' with
           | [] => [String c EmptyString]
           | l :: t => String c l :: t
           end
  end.

(** [str(n)] for an [int]. *)
Definition str_int (z : Z) : string := NilEmpty.string_of_int (Z.to_int z).

Definition is_ascii_digit (c : ascii) : bool := between 48 57 (nat_of_ascii c).

(** The digits of [int(s)]: decimal digits, single underscores allowed
    between two digits. *)
Fixpoint int_digits (acc : Z) (after_digit : bool) (s : string) : option Z :=
  match s with
  | EmptyString => if after_digit then Some acc else None
  | String c s' =>
      if is_ascii_digit c
      then int_digits (10 * acc + Z.of_nat (nat_of_ascii c - 48)) true s'
      else if Ascii.eqb c "_" && after_digit then
             match s' with
             | EmptyString => None
             | _ => int_digits acc false s'
             end
           else None
  end.

(** The whitespace that [int] skips at both ends: the ASCII characters
    tab to carriage return and the space, and the two characters above 127
    that are whitespace; the separators 28 to 31, which [strip] removes, are
    not skipped. *)
Definition is_int_space (c : ascii) : bool :=
  let n := nat_of_ascii c in
  between 9 13 n || (n =? 32)%nat || (n =? 133)%nat || (n =? 160)%nat.

(** [int(s)]: surrounding whitespace is ignored, one sign is allowed;
    [None] stands for [ValueError].  The limit that Python puts on the
    number of digits of a conversion (4300 unless it is changed) is not
    modelled, neither here nor in [str_int]: the integers of a run come from
    [int] or are the default, and stay below it. *)
Definition py_int (s : string) : option Z :=
  match strip_by is_int_space s with
  | String "-" r => option_map Z.opp (int_digits 0 false r)
  | String "+" r => int_digits 0 false r
  | t => int_digits 0 false t
  end.

End PyStr.
Import PyStr.

(** ** Python values, exceptions and the outcome of a run *)

Inductive exn : Type :=
  | AttributeError | TypeError | ValueError | SyntaxError
  | IndexError | KeyError | OverflowError | NameError
  | PermissionError | FileNotFoundError
  (** an error raised inside [fabio], [pyFAI] or [pandas] *)
  | ExternalError.

(** What the script prints, one constructor per message. *)
Inductive msg : Type :=
  | NoSectionHeader | NoSectionFooter
  | KeywordsNotFound | MissingKey (k : string)
  | PoniMissing | PoniBadType | MaskMissing | MaskBadType | BadDataSource
  | IntMethodNotAccepted | XUnitNotAccepted
  | RangeLowerType (name : string) | RangeUpperType (name : string)
  | RangeSingle (name : string) | RangeNotAccepted (name : string)
  | RangeNoDigit (name : string)
  | NegMaskStrNumber | NegMaskOff | NegMaskNoMatch
  | NegMaskCannotConvert | NegMaskNotAccepted
  | ErrorModelAccepted (v : string) | ErrorModelNoMatch
  | DirCreated (d : string) | DirExists (d : string)
  | MissingDirs (l : list string) | DirListsDiffer
  | NoInput | Quit | Proceeding | TotalIntegrated (n : nat).

(** The messages that announce a fall-back (printed in red). *)
Definition is_warning (m : msg) : bool :=
  match m with
  | NoSectionHeader | NoSectionFooter | MaskMissing | MaskBadType
  | IntMethodNotAccepted | XUnitNotAccepted
  | RangeLowerType _ | RangeUpperType _ | RangeSingle _
  | RangeNotAccepted _ | RangeNoDigit _
  | NegMaskNoMatch | NegMaskCannotConvert | NegMaskNotAccepted
  | ErrorModelNoMatch => true
  | _ => false
  end.

(** A block of the script either runs to its end with a value, leaves
    through [sys.exit()], or is left by an exception that nothing catches. *)
Inductive result (A : Type) : Type :=
  | Done (a : A)
  | Exit
  | Raised (e : exn).
Arguments Done {A} a.
Arguments Exit {A}.
Arguments Raised {A} e.

(** The messages printed so far, and how the block ended. *)
Definition run (A : Type) : Type := (list msg * result A)%type.

#[global] Instance run_ret : MRet run := fun A a => ([], Done a).
#[global] Instance run_bind : MBind run := fun A B k m =>
  match m with
  | (out, Done a) => let '(out', r) := k a in ((out ++ out')%list, r)
  | (out, Exit) => (out, Exit)
  | (out, Raised e) => (out, Raised e)
  end.

Definition print (m : msg) : run unit := ([m], Done tt).
Definition sys_exit {A} : run A := ([], Exit).
Definition raise {A} (e : exn) : run A := ([], Raised e).
Definition printed {A} (r : run A) : list msg := fst r.
Definition outcome {A} (r : run A) : result A := snd r.

(** [try: body except TypeError: handler] *)
Definition try_except_TypeError {A} (body handler : run A) : run A :=
  match body with
  | (out, Raised TypeError) => let '(out', r) := handler in ((out ++ out')%list, r)
  | other => other
  end.

Set Warnings "-register-all".

(** The values [ast.literal_eval] can build.  [F] is the type of floats.  A
    [PSet] lists the elements of the set and a [PDict] the items of the
    dict, so their keys are pairwise unequal. *)
Inductive pyval (F : Type) : Type :=
  | PNone
  | PBool (b : bool)
  | PInt (z : Z)
  | PFloat (f : F)
  | PComplex (re im : F)
  | PStr (s : string)
  | PBytes (l : list Z)
  | PTuple (l : list (pyval F))
  | PList (l : list (pyval F))
  | PSet (l : list (pyval F))
  | PDict (kv : list (pyval F * pyval F))
  | PEllipsis.
Arguments PNone {F}.
Arguments PBool {F} b.
Arguments PInt {F} z.
Arguments PFloat {F} f.
Arguments PComplex {F} re im.
Arguments PStr {F} s.
Arguments PBytes {F} l.
Arguments PTuple {F} l.
Arguments PList {F} l.
Arguments PSet {F} l.
Arguments PDict {F} kv.
Arguments PEllipsis {F}.

(** What the script takes from outside itself: floating-point numbers, the
    built-ins [float], [str] and [ast.literal_eval], and the files that exist
    while a configuration is loaded. *)
Class Runtime : Type := {
  float : Type;
  (** [float(-1e-10)], line 53 *)
  d_neg_mask : float;
  (** [float(n)] for an int; [None] is [OverflowError] *)
  float_of_int : Z -> option float;
  (** [float(s)] for a string; [None] is [ValueError] *)
  float_of_str : string -> option float;
  (** [f == n] for a float and an int *)
  float_eq_int : float -> Z -> bool;
  (** [repr(f)] for a float *)
  float_repr : float -> string;
  (** [repr(v)] for the other kinds: str, bytes, complex, set, dict, Ellipsis *)
  repr_other : pyval float -> string;
  (** [ast.literal_eval(s)] *)
  literal_eval : string -> exn + pyval float;
  (** [os.path.isfile(p)] *)
  isfile : string -> bool;
  (** [os.sep] *)
  os_sep : string;
}.

Definition value `{Runtime} : Type := pyval float.

(** [repr(v)] *)
Fixpoint py_repr `{Runtime} (v : value) : string :=
  match v with
  | PNone => "None"
  | PBool true => "True"
  | PBool false => "False"
  | PInt z => str_int z
  | PFloat f => float_repr f
  | PTuple l =>
      "(" ++ join ", " (List.map py_repr l)
          ++ (match l with [_] => "," | _ => EmptyString end) ++ ")"
  | PList l => "[" ++ join ", " (List.map py_repr l) ++ "]"
  | other => repr_other other
  end.

(** [str(v)] *)
Definition py_str `{Runtime} (v : value) : string :=
  match v with
  | PStr s => s
  | _ => py_repr v
  end.

(** [len(v)]; [None] is [TypeError]. *)
Definition py_len `{Runtime} (v : value) : option nat :=
  match v with
  | PStr s => Some (String.length s)
  | PBytes l => Some (List.length l)
  | PTuple l | PList l | PSet l => Some (List.length l)
  | PDict kv => Some (List.length kv)
  | _ => None
  end.

(** [k == i] for a dict key [k] and the int [i]. *)
Definition key_eq_int `{Runtime} (k : value) (i : nat) : bool :=
  match k with
  | PInt z => (z =? Z.of_nat i)%Z
  | PBool b => ((if b then 1 else 0) =? i)%nat
  | PFloat f => float_eq_int f (Z.of_nat i)
  | PComplex re im => float_eq_int re (Z.of_nat i) && float_eq_int im 0
  | _ => false
  end.

(** [v[i]] for a non-negative index. *)
Definition py_getitem `{Runtime} (v : value) (i : nat) : exn + value :=
  match v with
  | PStr s =>
      match String.get i s with
      | Some c => inr (PStr (String c EmptyString))
      | None => inl IndexError
      end
  | PBytes l =>
      match List.nth_error l i with
      | Some b => inr (PInt b)
      | None => inl IndexError
      end
  | PTuple l | PList l =>
      match List.nth_error l i with
      | Some x => inr x
      | None => inl IndexError
      end
  | PDict kv =>
      match List.find (fun p => key_eq_int (fst p) i) kv with
      | Some p => inr (snd p)
      | None => inl KeyError
      end
  | _ => inl TypeError
  end.

(** [type(v) == float or type(v) == int]; a [bool] is neither. *)
Definition is_float_or_int `{Runtime} (v : value) : bool :=
  match v with
  | PFloat _ | PInt _ => true
  | _ => false
  end.

Definition is_none `{Runtime} (v : value) : bool :=
  match v with PNone => true | _ => false end.

(** ** Defaults and accepted values (lines 47-70) *)

Definition d_intmethod : string := "full".
Definition d_xunit : string := "2th_deg".
Definition d_rad_points : Z := 6000.
Definition d_rad_range `{Runtime} : value := PNone.
Definition d_azim_range `{Runtime} : value := PNone.
Definition d_errormodel : string := "None".
Definition d_lines2skip : nat := 23.

Definition intmethod_accepted : list string := ["no"; "full"; "pseudo"; "bbox"].
Definition xunit_accepted : list string :=
  ["2th_deg"; "2th_rad"; "q_nm^-1"; "q_A^-1"; "q_a^-1"; "r_mm"].
Definition neg_mask_accepted : list string := ["none"].
Definition errormodel_accepted : list string := ["none"; "poisson"].
Definition keyword_all_accepted : list string := ["ALL"; "All"; "all"].
Definition maskfext_accepted : list string := [".tif"; ".edf"; ".msk"; ".npy"].
Definition oneDdefault : string := "1D".

(** ** The configuration: the script's parameter variables at the point
    where the guided path and the load path join (line 1155). *)

Record config `{Runtime} : Type := Config {
  synsrc : string;
  oneDdir : string;
  fullponif : string;
  fullmaskf : option string;
  intmethod : string;
  xunit : string;
  rad_points : Z;
  rad_range : value;
  azim_range : value;
  neg_mask : value;
  errormodel : string;
}.

(** ** The parameter checks *)

(** *** Guided entry (lines 254-280 and 402-417, repeated at 435-459 and
    588-603) *)

Definition guided_intmethod (ans : string) : run string :=
  if is_empty ans then mret d_intmethod
  else if negb (in_list ans intmethod_accepted)
          && negb (in_list (lower ans) intmethod_accepted)
  then print IntMethodNotAccepted;; mret d_intmethod
  else mret (lower ans).

Definition guided_xunit (ans : string) : run string :=
  if is_empty ans then mret d_xunit
  else if String.eqb (lower ans) "tth" then mret d_xunit
  else if String.eqb (lower ans) "q" then mret "q_A^-1"
  else if negb (in_list ans xunit_accepted)
          && negb (in_list (lower ans) xunit_accepted)
  then print XUnitNotAccepted;; mret d_xunit
  else mret (lower ans).

(** [rad_points]: [int] raises [ValueError] on anything that is not an
    integer literal. *)
Definition guided_rad_points (ans : string) : run Z :=
  if is_empty ans then mret d_rad_points
  else match py_int ans with
       | Some n => mret n
       | None => raise ValueError
       end.

(** The error model is checked by the same lines in both paths (402-417 and
    998-1011).  [type(errormodel) == str] always holds for text, so the last
    branch of the source cannot be taken. *)
Definition check_errormodel (ans : string) : run string :=
  if is_empty ans then mret d_errormodel
  else if in_list ans errormodel_accepted
          || in_list (lower ans) errormodel_accepted
  then print (ErrorModelAccepted ans);; mret (lower ans)
  else print ErrorModelNoMatch;; mret d_errormodel.

(** *** Loading a file (lines 885-898) *)

(** Only a message: the value read from the file is kept as it is. *)
Definition load_intmethod (raw : string) : run string :=
  if negb (in_list raw intmethod_accepted)
     && negb (in_list (lower raw) intmethod_accepted)
  then print IntMethodNotAccepted;; mret raw
  else mret raw.

Definition load_xunit (raw : string) : run string :=
  let x := if String.eqb (lower raw) "tth" then d_xunit else raw in
  if String.eqb (lower x) "q" then mret "q_A^-1"
  else if negb (in_list x xunit_accepted)
          && negb (in_list (lower x) xunit_accepted)
  then print XUnitNotAccepted;; mret x
  else mret (lower x).

Definition load_rad_points (raw : string) : run Z :=
  match py_int raw with
  | Some n => mret n
  | None => raise ValueError
  end.

(** *** Ranges and the automask value (the same lines in both paths:
    291-326, 331-366, 370-400 and 900-996) *)

Section Coercion.
Context `{Runtime}.

Definition eval_literal (raw : string) : run value :=
  match literal_eval raw with
  | inl e => raise e
  | inr v => mret v
  end.

Definition getitem (v : value) (i : nat) : run value :=
  match py_getitem v i with
  | inl e => raise e
  | inr x => mret x
  end.

Definition len (v : value) : run nat :=
  match py_len v with
  | Some n => mret n
  | None => raise TypeError
  end.

(** The body of the [try] for a range. *)
Definition check_pair (name raw : string) : run value :=
  v ← eval_literal raw;
  if is_none v then mret v
  else
    n ← len v;
    if (1 <? n)%nat then
      x0 ← getitem v 0;
      v1 ← (if negb (is_float_or_int x0)
            then print (RangeLowerType name);; mret PNone
            else mret v);
      if is_none v1 then mret v1
      else
        x1 ← getitem v1 1;
        if negb (is_float_or_int x1)
        then print (RangeUpperType name);; mret PNone
        else mret v1
    else if (n =? 1)%nat then print (RangeSingle name);; mret PNone
    else mret v.

Definition check_range (name raw : string) : run value :=
  if is_empty raw then mret PNone
  else if String.eqb raw "none" || String.eqb (lower raw) "none" then mret PNone
  else if has_digit raw then
    try_except_TypeError
      (check_pair name raw)
      (print (RangeNotAccepted name);; mret PNone)
  else print (RangeNoDigit name);; mret PNone.

(** The body of the [try] for the automask value.  [neg_mask != float and
    neg_mask != int] compares the value with the two types and always
    holds, so its [else] cannot be taken. *)
Definition convert_neg_mask (raw : string) : run value :=
  v ← eval_literal raw;
  if is_none v then mret v
  else
    v1 ← match v with
         | PStr s =>
             v' ← (if has_digit s
                   then print NegMaskStrNumber;;
                        match float_of_str s with
                        | Some f => mret (PFloat f)
                        | None => raise ValueError
                        end
                   else mret v);
             match v' with
             | PStr s' =>
                 (if in_list s' neg_mask_accepted
                     || in_list (lower s') neg_mask_accepted
                  then print NegMaskOff else mret tt);;
                 mret v'
             | _ => raise AttributeError
             end
         | _ => mret v
         end;
    match v1 with
    | PFloat f => mret (PFloat f)
    | PInt z =>
        match float_of_int z with
        | Some f => mret (PFloat f)
        | None => raise OverflowError
        end
    | _ => print NegMaskCannotConvert;; mret (PFloat d_neg_mask)
    end.

(** Text without a digit that is not [none] is left as it is: the source
    has no [else] for that case. *)
Definition check_neg_mask (raw : string) : run value :=
  if is_empty raw then mret (PFloat d_neg_mask)
  else if String.eqb raw "none" || String.eqb (lower raw) "none" then mret PNone
  else if has_digit raw then
    try_except_TypeError
      (convert_neg_mask raw)
      (print NegMaskNotAccepted;; mret (PFloat d_neg_mask))
  else mret (PStr raw).

End Coercion.

(** ** Reading an [.int] file (lines 720-853) *)

Definition k_synsrc : string := "Data from NSLS-II, APS, or SSRL".
Definition k_oneDdir : string := "Main integrated pattern directory".
Definition k_ponif : string := "Poni file".
Definition k_maskf : string := "Mask file".
Definition k_intmethod : string := "Pixel splitting method".
Definition k_xunit : string := "X unit".
Definition k_rad_points : string := "Radial (x-unit) points".
Definition k_rad_range : string := "Radial (x-unit) range".
Definition k_azim_range : string := "Azimuthal (deg.) range".
Definition k_neg_mask : string := "Automask pixel value".
Definition k_errormodel : string := "Intensity error model".

(** The keys of [keyworddict], in insertion order. *)
Definition keywords : list string :=
  [k_synsrc; k_oneDdir; k_ponif; k_maskf; k_intmethod; k_xunit;
   k_rad_points; k_rad_range; k_azim_range; k_neg_mask; k_errormodel].

(** A value of [keyworddict]: [None] at first, then a line number or the
    string ['N/A']. *)
Inductive kwval : Type :=
  | KNone
  | KLine (num : nat)
  | KNA.

Definition keyworddict : Type := list (string * kwval).

Definition editstartstr : string := "Integration parameters and setup.".
Definition editendstr : string := "User notes / metadata allowed below here:".

Record banners : Type := Banners {
  editstartnum : option nat;
  startcheck : bool;
  editendnum : option nat;
  endcheck : bool;
}.

(** One turn of the loop of lines 741-747. *)
Definition banner_step (b : banners) (num : nat) (line : string) : banners :=
  let b1 :=
    if contains editstartstr line && negb (startcheck b)
    then Banners (Some num) true (editendnum b) (endcheck b)
    else b in
  if contains editendstr line && negb (endcheck b1)
  then Banners (editstartnum b1) (startcheck b1) (Some num) true
  else b1.

Fixpoint banner_loop (b : banners) (num : nat) (lines : list string) : banners :=
  match lines with
  | [] => b
  | line :: rest => banner_loop (banner_step b num line) (S num) rest
  end.

Definition find_banners (intlines : list string) : banners :=
  banner_loop (Banners None false None false) 0 intlines.

(** [not n] for a line number that may still be [None]: true for [None] and
    for [0]. *)
Definition falsy (n : option nat) : bool :=
  match n with
  | None | Some O => true
  | Some (S _) => false
  end.

(** The loop of lines 761-775 for the key [i], when the start banner was
    not found.  [cur] is the value of [keyworddict[i]]; the assignment of
    ['N/A'] stands inside the loop, after each line that did not match. *)
Fixpoint scan_fallback (i : string) (cur : kwval) (num : nat)
    (lines : list string) : kwval :=
  match lines with
  | [] => cur
  | line :: rest =>
      if contains i line then
        if contains "#" line then
          if (find "#" line <? find i line)%Z then scan_fallback i KNA (S num) rest
          else if (find "#" line >? find i line)%Z then KLine num
          else scan_fallback i KNA (S num) rest
        else KLine num
      else scan_fallback i KNA (S num) rest
  end.

(** The loop of lines 779-785 for the key [i]: the first line of the
    editable block that contains it. *)
Fixpoint scan_bounded (i : string) (editstart editend : nat) (num : nat)
    (lines : list string) : kwval :=
  match lines with
  | [] => KNA
  | line :: rest =>
      if (editstart <=? num)%nat && (num <=? editend)%nat && contains i line
      then KLine num
      else scan_bounded i editstart editend (S num) rest
  end.

(** Lines 749-785. *)
Definition locate_keywords (intlines : list string) : run keyworddict :=
  let b := find_banners intlines in
  (if falsy (editstartnum b) then print NoSectionHeader else mret tt);;
  editend ← (if falsy (editendnum b)
             then print NoSectionFooter;; mret (List.length intlines)
             else mret (default 0%nat (editendnum b)));
  if falsy (editstartnum b)
  then mret (List.map (fun i => (i, scan_fallback i KNone 0 intlines)) keywords)
  else mret (List.map (fun i =>
               (i, scan_bounded i (default 0%nat (editstartnum b)) editend 0 intlines))
             keywords).

Definition is_na (v : kwval) : bool :=
  match v with KNA => true | _ => false end.

(** The keys whose value is ['N/A'], in the order of the dictionary. *)
Definition missing_keys (d : keyworddict) : list string :=
  List.map fst (List.filter (fun p => is_na (snd p)) d).

(** Lines 787-796. *)
Definition check_keywords (d : keyworddict) : run unit :=
  if List.existsb (fun p => is_na (snd p)) d
  then print KeywordsNotFound;;
       List.fold_right (fun k r => print (MissingKey k);; r) (mret tt) (missing_keys d);;
       print Quit;;
       sys_exit
  else mret tt.

(** [intlines[keyworddict[k]]] *)
Definition keyword_line (intlines : list string) (d : keyworddict) (k : string)
    : run string :=
  match List.find (fun p => String.eqb (fst p) k) d with
  | None => raise KeyError
  | Some (_, KLine num) =>
      match List.nth_error intlines num with
      | Some line => mret line
      | None => raise IndexError
      end
  | Some (_, _) => raise TypeError
  end.

(** [l[1]] *)
Definition second (l : list string) : run string :=
  match l with
  | _ :: x :: _ => mret x
  | _ => raise IndexError
  end.

(** [if '#' in s: s = s.split('#')[0]] and then [s.strip()]. *)
Definition uncomment (s : string) : string :=
  strip (if contains "#" s then List.hd EmptyString (split "#" s) else s).

(** [line.strip('\n').split(':')[1]], then the comment and the whitespace
    are removed: lines 800, 820-853. *)
Definition value_after_colon (line : string) : run string :=
  v ← second (split ":" (strip_chars nl line));
  mret (uncomment v).

(** [line.strip('\n').split('Key:')[1]], then the same: lines 805-818. *)
Definition value_after_key (key line : string) : run string :=
  v ← second (split (key ++ ":") (strip_chars nl line));
  mret (uncomment v).

(** The keys whose line is split at the key itself. *)
Definition path_keywords : list string := [k_oneDdir; k_ponif; k_maskf].

(** The value on the line of the key [k]. *)
Definition line_value (k line : string) : run string :=
  if in_list k path_keywords then value_after_key k line
  else value_after_colon line.

Definition raw_value (intlines : list string) (d : keyworddict) (k : string)
    : run string :=
  line ← keyword_line intlines d k;
  line_value k line.

(** ** Checking the values read from the file (lines 855-1011) *)

Section Load.
Context `{Runtime}.

(** Lines 856-863: a missing geometry file, or one of another type, ends
    the program. *)
Definition check_poni (ponif : string) : run unit :=
  (if negb (isfile ponif) then print PoniMissing;; sys_exit else mret tt);;
  if negb (endswith ".poni" ponif) then print PoniBadType;; sys_exit
  else mret tt.

(** Lines 866-873.  The second test is not an [elif]: it calls [endswith]
    on whatever the first test left in [fullmaskf], and [None] has no such
    method. *)
Definition check_mask (maskf : string) : run (option string) :=
  m ← (if negb (isfile maskf) then print MaskMissing;; mret None
       else mret (Some maskf));
  match m with
  | None => raise AttributeError
  | Some p =>
      if negb (List.existsb (fun ext => endswith ext p) maskfext_accepted)
      then print MaskBadType;; mret None
      else mret (Some p)
  end.

(** Lines 876-883: the image extension that goes with the data source. *)
Definition check_synsrc (src : string) : run string :=
  if String.eqb src "NSLS-II" || String.eqb (lower src) "nsls-ii" then mret ".tiff"
  else if String.eqb src "APS" || String.eqb src "SSRL"
          || String.eqb (lower src) "aps" || String.eqb (lower src) "ssrl"
  then mret ".tif"
  else print BadDataSource;; sys_exit.

(** The load path from the lines of the file to the configuration and the
    image extension (lines 720-1011). *)
Definition load (intlines : list string) : run (config * string) :=
  d ← locate_keywords intlines;
  check_keywords d;;
  r_synsrc ← raw_value intlines d k_synsrc;
  r_oneDdir ← raw_value intlines d k_oneDdir;
  r_ponif ← raw_value intlines d k_ponif;
  r_maskf ← raw_value intlines d k_maskf;
  r_intmethod ← raw_value intlines d k_intmethod;
  r_xunit ← raw_value intlines d k_xunit;
  r_rad_points ← raw_value intlines d k_rad_points;
  r_rad_range ← raw_value intlines d k_rad_range;
  r_azim_range ← raw_value intlines d k_azim_range;
  r_neg_mask ← raw_value intlines d k_neg_mask;
  r_errormodel ← raw_value intlines d k_errormodel;
  check_poni r_ponif;;
  c_maskf ← check_mask r_maskf;
  image_extension ← check_synsrc r_synsrc;
  c_intmethod ← load_intmethod r_intmethod;
  c_xunit ← load_xunit r_xunit;
  c_rad_points ← load_rad_points r_rad_points;
  c_rad_range ← check_range "rad_range" r_rad_range;
  c_azim_range ← check_range "azim_range" r_azim_range;
  c_neg_mask ← check_neg_mask r_neg_mask;
  c_errormodel ← check_errormodel r_errormodel;
  mret (Config _ r_synsrc r_oneDdir r_ponif c_maskf c_intmethod c_xunit
          c_rad_points c_rad_range c_azim_range c_neg_mask c_errormodel,
        image_extension).

End Load.

(** ** Writing the [.int] file (lines 1175-1245) *)

Inductive month : Type :=
  | Jan | Feb | Mar | Apr | May | Jun | Jul | Aug | Sep | Oct | Nov | Dec.

(** [datetime.now()] *)
Record datetime : Type := DateTime {
  dt_year : nat;
  dt_month : month;
  dt_day : nat;
  dt_hour : nat;
  dt_minute : nat;
  dt_second : nat;
}.

(** [%b] in the C locale. *)
Definition month_abbr (m : month) : string :=
  match m with
  | Jan => "Jan" | Feb => "Feb" | Mar => "Mar" | Apr => "Apr"
  | May => "May" | Jun => "Jun" | Jul => "Jul" | Aug => "Aug"
  | Sep => "Sep" | Oct => "Oct" | Nov => "Nov" | Dec => "Dec"
  end.

Definition str_nat (n : nat) : string := NilEmpty.string_of_uint (Nat.to_uint n).

(** Two digits, as [%d], [%H], [%M] and [%S] print them. *)
Definition pad2 (n : nat) : string :=
  if (n <? 10)%nat then "0" ++ str_nat n else str_nat n.

(** [strftime("%d%b%Y")], [strftime("%H-%M-%S")] and [strftime("%Y")] *)
Definition datestr (dt : datetime) : string :=
  pad2 (dt_day dt) ++ month_abbr (dt_month dt) ++ str_nat (dt_year dt).
Definition timestr (dt : datetime) : string :=
  pad2 (dt_hour dt) ++ "-" ++ pad2 (dt_minute dt) ++ "-" ++ pad2 (dt_second dt).
Definition yearstr (dt : datetime) : string := str_nat (dt_year dt).
Definition datetimestr (dt : datetime) : string := datestr dt ++ "_" ++ timestr dt.

Definition Version : string := "0.1".

(** ['#' * 150] *)
Definition hashes : string := PyStr.repeat "#" 150.

Definition GI_statement (dt : datetime) : string :=
  nl ++ "#Date: " ++ datestr dt ++
  nl ++ "#Time: " ++ timestr dt ++
  nl ++ "#Version: " ++ Version ++
  nl ++ "#Github: github.com/adamcorrao/GuidedIntegration" ++
  nl ++ "#Citation: Guided Integration Version " ++ Version ++ " (" ++
  yearstr dt ++
  "). https://github.com/adamcorrao/GuidedIntegration" ++
  nl ++ "#Citation for latest paper on pyFAI: Kieffer, J., Valls, V., Blanc, N. & Hennig, C. (2020). " ++
  "J. Synchrotron Rad. 27, 558-566.".

Definition desc_statement : string :=
  nl ++ nl ++ "#Description of parameters, options available, acceptable operand / filetypes (Guided Integration formats this correctly):" ++
  nl ++ tab ++ "#Data from NSLS-II, APS, or SSRL: where was data collected? Expected image extensions are .tiff for NSLS-II and .tif for APS / SSRL. NSLS-II images expected in sub directory 'dark_sub'" ++
  nl ++ tab ++ "#Main integrated pattern directory: directory where sub directories are created in which integrated patterns are saved" ++
  nl ++ tab ++ "#Poni file: instrument geometry (e.g., sample-to-detector distance, detector tilts) file - filetype must be .poni" ++
  nl ++ tab ++ "#Mask file: static mask (e.g., beamstop, detector edges) - must be one of the following filetypes: *.tif | *.edf | *.npy | *.msk" ++
  nl ++ nl ++ "#Integration parameters (see pyFAI docs for more details):" ++
  nl ++ tab ++ "#Pixel splitting options: no (no splitting), full (full splitting), bbox (bounding box), pseudo (scaled down bbox)" ++
  nl ++ tab ++ "#X unit options: 2th_deg, 2th_rad, q_nm^-1, q_A^-1, d*2_A^-2, r_mm" ++
  nl ++ tab ++ "#Radial (x-unit) points: the number of bins in the x-axis - must be a number" ++
  nl ++ tab ++ "#Radial (x-unit) range: radial range to integrate image over (x-unit specific) - must be a pair of comma separated numbers or None for full range" ++
  nl ++ tab ++ "#Azimuthal (deg.) range: azimuthal (deg.) range to integrate image over - must be a pair of comma separated numbers or None for full range" ++
  nl ++ tab ++ "#Automask pixel value: pixels with intensity less than this value are automatically masked - must be a number" ++
  nl ++ tab ++ "#Intensity error model options: none, poisson for variance = I".

Definition usernotes_statement : string :=
  nl ++ nl ++ hashes ++
  nl ++ "User notes / metadata allowed below here:" ++ nl ++
  hashes.

Section Save.
Context `{Runtime}.

(** [str(fullmaskf)] *)
Definition str_maskf (m : option string) : string :=
  match m with
  | None => "None"
  | Some p => p
  end.

Definition int_setup_statement (c : config) : string :=
  nl ++ nl ++ hashes ++
  nl ++ "Integration parameters and setup." ++ nl ++ "Below here user can edit parameters after the colon. " ++
  "In-line comments are allowed." ++ nl ++
  hashes ++
  nl ++ nl ++ "Data from NSLS-II, APS, or SSRL: " ++ synsrc c ++
  nl ++ "Main integrated pattern directory: " ++ oneDdir c ++
  nl ++ "Poni file: " ++ fullponif c ++
  nl ++ "Mask file: " ++ str_maskf (fullmaskf c).

Definition intprm_statement (c : config) : string :=
  nl ++ nl ++ "Pixel splitting method: " ++ intmethod c ++
  nl ++ "X unit: " ++ xunit c ++
  nl ++ "Radial (x-unit) points: " ++ str_int (rad_points c) ++
  nl ++ "Radial (x-unit) range: " ++ py_str (rad_range c) ++
  nl ++ "Azimuthal (deg.) range: " ++ py_str (azim_range c) ++
  nl ++ "Automask pixel value: " ++ py_str (neg_mask c) ++
  nl ++ "Intensity error model: " ++ errormodel c.

(** What lines 1240-1245 write, in order. *)
Definition int_file_writes (dt : datetime) (c : config) : list string :=
  ["#Guided Integration .int parameter file";
   GI_statement dt;
   desc_statement;
   int_setup_statement c;
   intprm_statement c;
   usernotes_statement].

End Save.

(** ** Files on disk: writing the [.int] file and asking for confirmation
    (lines 1231-1253) *)

(** The content of every file, by path. *)
Abbreviation files := (gmap string string).

(** An open file: its content and the position of the cursor. *)
Record handle : Type := Handle {
  h_data : string;
  h_pos : nat;
}.

(** [open(path, 'a+')]: the file is created when missing, the cursor stands
    at the end. *)
Definition open_append (fs : files) (path : string) : handle :=
  let d := default EmptyString (fs !! path) in
  Handle d (String.length d).

Definition seek (h : handle) (n : nat) : handle := Handle (h_data h) n.

(** [f.truncate()]: everything from the cursor on is dropped. *)
Definition truncate (h : handle) : handle :=
  Handle (String.substring 0 (h_pos h) (h_data h)) (h_pos h).

(** [f.write(s)] in append mode: the text goes to the end of the file. *)
Definition write (h : handle) (s : string) : handle :=
  let d := h_data h ++ s in
  Handle d (String.length d).

Definition close (fs : files) (path : string) (h : handle) : files :=
  <[path := h_data h]> fs.

(** [s.split(os.sep)[-1]] and [s.rsplit(os.sep, 1)[0]], for a separator of
    one character. *)
Definition basename (sep s : string) : string :=
  List.last (split sep s) EmptyString.
Definition dirname (sep s : string) : string :=
  match split sep s with
  | [x] => x
  | l => join sep (List.removelast l)
  end.

Section Persist.
Context `{Runtime}.

(** Lines 1180 and 1231-1237: the path of the [.int] file. *)
Definition int_file_path (intfname_user tiff_dir : string) (dt : datetime) : string :=
  if is_empty intfname_user
  then tiff_dir ++ os_sep ++ ("GuidedIntegration_" ++ datetimestr dt ++ ".int")
  else dirname os_sep intfname_user ++ os_sep ++ basename os_sep intfname_user.

(** Lines 1237-1245. *)
Definition save_int_file (fs : files) (path : string) (dt : datetime) (c : config)
    : files :=
  let f := open_append fs path in
  let f := seek f 0 in
  let f := truncate f in
  let f := List.fold_left write (int_file_writes dt c) f in
  close fs path f.

(** Lines 1248-1255: the answer typed at line 1170 is looked at. *)
Definition confirm (start_int : string) : run unit :=
  (if is_empty start_int then print NoInput;; sys_exit else mret tt);;
  if negb (String.eqb start_int "1") then print Quit;; sys_exit
  else print Proceeding.

End Persist.

(** ** Mirroring the selected directories (lines 645-680 and 1117-1152) *)

(** [os.path.join(a, b)] with POSIX separators. *)
Definition path_join (sep a b : string) : string :=
  if startswith sep b then b
  else if is_empty a || endswith sep a then a ++ b
  else a ++ sep ++ b.

(** What [os.mkdir] can do: create the directory, find it already there, or
    fail for another reason. *)
Inductive mkdir_result : Type :=
  | MkCreated
  | MkFileExists
  | MkFails (e : exn).

Section Mirror.
Context `{Runtime}.
(** Why a directory that does not exist yet cannot be created, if so. *)
Variable mkdir_error : string -> option exn.

(** [os.mkdir(p)] on the set of existing directories. *)
Definition os_mkdir (dirs : gset string) (p : string) : gset string * mkdir_result :=
  if decide (p ∈ dirs) then (dirs, MkFileExists)
  else match mkdir_error p with
       | Some e => (dirs, MkFails e)
       | None => ({[p]} ∪ dirs, MkCreated)
       end.

(** Keyword selection, lines 1117-1127; [subdirs] is what [os.walk] lists
    as the directories of [tiff_dir]. *)
Definition select_dirs (keyword : string) (subdirs : list string) : list string :=
  if in_list keyword keyword_all_accepted
     || in_list (lower keyword) keyword_all_accepted
  then subdirs
  else List.filter (fun d => contains keyword d) subdirs.

(** The loop of lines 1132-1139: only [FileExistsError] is caught. *)
Fixpoint make_folders (oneDdir : string) (dirs : gset string)
    (todo oneD_folders : list string) : gset string * run (list string) :=
  match todo with
  | [] => (dirs, mret oneD_folders)
  | dir :: rest =>
      match os_mkdir dirs (path_join os_sep oneDdir dir) with
      | (dirs', MkCreated) =>
          let '(dirs'', r) := make_folders oneDdir dirs' rest (oneD_folders ++ [dir])%list in
          (dirs'', print (DirCreated dir);; r)
      | (dirs', MkFileExists) =>
          let '(dirs'', r) := make_folders oneDdir dirs' rest (oneD_folders ++ [dir])%list in
          (dirs'', print (DirExists dir);; r)
      | (dirs', MkFails e) => (dirs', raise e)
      end
  end.

Definition list_eqb (a b : list string) : bool :=
  bool_decide (a = b).

(** Lines 1144-1152. *)
Definition compare_lists (dirstoint oneD_folders : list string) : run unit :=
  if negb (list_eqb dirstoint oneD_folders)
  then
    let missingdirs :=
      List.filter (fun i => negb (in_list i oneD_folders)) dirstoint in
    print (MissingDirs missingdirs);;
    print DirListsDiffer;;
    sys_exit
  else mret tt.

(** Lines 1129-1152 as a whole. *)
Definition mirror_dirs (oneDdir : string) (dirs : gset string)
    (dirstoint : list string) : gset string * run unit :=
  let '(dirs', r) := make_folders oneDdir dirs dirstoint [] in
  (dirs', oneD_folders ← r; compare_lists dirstoint oneD_folders).

End Mirror.

(** ** The batch (lines 1257-1357)

    Before the loops the script loads the geometry file and the mask and
    counts the images to integrate (lines 1257-1273); these steps change
    none of the variables below and can only end the program before the
    loops start. *)

(** Lines 1275-1280: the extension and the column labels that go with the
    error model.  When neither test holds the two variables stay unbound
    ([None]).  [errormodel is None] cannot hold for text. *)
Definition oneD_format (errormodel xunit : string) : option (string * list string) :=
  if String.eqb errormodel "None" || String.eqb errormodel "none"
  then Some (".xy", ["#" ++ xunit; "I"])
  else if String.eqb errormodel "poisson"
  then Some (".xye", ["#" ++ xunit; "I"; "I_err"])
  else None.

Definition oneD_extension (errormodel xunit : string) : option string :=
  option_map fst (oneD_format errormodel xunit).
Definition oneD_columns (errormodel xunit : string) : option (list string) :=
  option_map snd (oneD_format errormodel xunit).

Section Batch.
Context `{Runtime}.
(** [os.listdir(d)]; [None] when the directory cannot be listed. *)
Variable listdir : string -> option (list string).
(** Whether [fabio.open] reads the image at this path. *)
Variable image_ok : string -> bool.
(** Whether the image at the first path is integrated into the file at the
    second path, and that file rewritten, without an exception
    ([integrate1d], [read_csv], [to_csv]). *)
Variable process_ok : string -> string -> bool.
Variable c : config.
Variable image_extension : string.
Variable tiff_dir : string.

(** Lines 1287-1290. *)
Definition int_dir (fold : string) : option string :=
  if String.eqb (synsrc c) "NSLS-II"
  then Some (tiff_dir ++ os_sep ++ fold ++ os_sep ++ "dark_sub" ++ os_sep)
  else if String.eqb (synsrc c) "APS" || String.eqb (synsrc c) "SSRL"
  then Some (tiff_dir ++ os_sep ++ fold ++ os_sep)
  else None.

(** Lines 1291-1292. *)
Definition ftoint (fold : string) : exn + list string :=
  match int_dir fold with
  | None => inl NameError
  | Some d =>
      match listdir d with
      | None => inl FileNotFoundError
      | Some l => inr (List.filter (endswith image_extension) l)
      end
  end.

Definition oneD_toplace (fold : string) : string :=
  oneDdir c ++ os_sep ++ fold ++ os_sep.

(** Lines 1298 and 1327. *)
Definition oneD_name (fold file ext : string) : string :=
  oneD_toplace fold ++ os_sep ++ strip_chars image_extension file ++ ext.

(** The variables the loops update. *)
Record batch : Type := Batch {
  totalintcount : nat;
  intedimages : list string;
  (** the files written by the integration, latest first *)
  patterns : list string;
}.

(** Where the program stands inside lines 1285-1307 (or 1313-1336, which
    differ only in the progress bars). *)
Inductive point : Type :=
  | NextFold (folds : list string)
  | NextFile (fold : string) (todo : list string) (folds : list string)
  | Counted (fold file : string) (todo : list string) (folds : list string)
  | Finished
  | Crashed (e : exn).

(** One statement group of the loops. *)
Definition step (b : batch) (p : point) : batch * point :=
  match p with
  | NextFold [] => (b, Finished)
  | NextFold (fold :: folds) =>
      match ftoint fold with
      | inl e => (b, Crashed e)
      | inr l => (b, NextFile fold l folds)
      end
  | NextFile fold [] folds => (b, NextFold folds)
  | NextFile fold (file :: todo) folds =>
      (* totalintcount += 1 *)
      (Batch (S (totalintcount b)) (intedimages b) (patterns b),
       Counted fold file todo folds)
  | Counted fold file todo folds =>
      match int_dir fold with
      | None => (b, Crashed NameError)
      | Some d =>
          if negb (image_ok (d ++ file)) then (b, Crashed ExternalError)
          else
            match oneD_extension (errormodel c) (xunit c) with
            | None => (b, Crashed NameError)
            | Some ext =>
                let name := oneD_name fold file ext in
                match fullmaskf c with
                | None =>
                    (* [static_mask] is bound only when there is a mask *)
                    (b, Crashed NameError)
                | Some _ =>
                    if process_ok (d ++ file) name
                    then (* intedimages.append(file) *)
                      (Batch (totalintcount b) (intedimages b ++ [file])%list
                             (name :: patterns b),
                       NextFile fold todo folds)
                    else (b, Crashed ExternalError)
                end
            end
      end
  | Finished => (b, Finished)
  | Crashed e => (b, Crashed e)
  end.

Definition start (dirstoint : list string) : batch * point :=
  (Batch 0 [] [], NextFold dirstoint).

Fixpoint steps (n : nat) (s : batch * point) : batch * point :=
  match n with
  | O => s
  | S k => steps k (step (fst s) (snd s))
  end.

(** The states the loops pass through. *)
Inductive reachable (dirstoint : list string) : batch * point -> Prop :=
  | reach_start : reachable dirstoint (start dirstoint)
  | reach_step b p : reachable dirstoint (b, p) -> reachable dirstoint (step b p).

(** Line 1339 and the section of the record file written by lines
    1354-1355. *)
Definition reported_total (b : batch) : nat := totalintcount b.
Definition record_images (b : batch) : string := join nl (intedimages b).

End Batch.

(** The answer is looked at only after the file is written: lines
    1237-1253, then the batch. *)
Section Finish.
Context `{Runtime}.
Variable listdir : string -> option (list string).
Variable image_ok : string -> bool.
Variable process_ok : string -> string -> bool.

Definition finish (fs : files) (path : string) (dt : datetime) (c : config)
    (image_extension tiff_dir : string) (dirstoint : list string)
    (start_int : string) (fuel : nat) : files * run (batch * point) :=
  let fs' := save_int_file fs path dt c in
  (fs', confirm start_int;;
        mret (steps listdir image_ok process_ok c image_extension tiff_dir fuel
                (start dirstoint))).

End Finish.

(** ** The properties as the specification words them

    These two definitions follow the specification, not the source; they are
    what the source is compared with. *)

(** The text of [s] after the first occurrence of [p]. *)
Fixpoint after_first (p s : string) : option string :=
  if startswith p s then Some (String.substring (String.length p) (String.length s) s)
  else match s with
       | EmptyString => None
       | String _ s' => after_first p s'
       end.

(** The text of [s] before the first character [c]; all of [s] without one. *)
Fixpoint take_until (c : ascii) (s : string) : string :=
  match s with
  | EmptyString => EmptyString
  | String a s' => if Ascii.eqb a c then EmptyString else String a (take_until c s')
  end.

(** "The text after the first colon following the key label, an inline
    comment stripped, then surrounding whitespace stripped." *)
Definition spec_value (key line : string) : option string :=
  match after_first key line with
  | None => None
  | Some rest =>
      match after_first ":" rest with
      | None => None
      | Some v => Some (strip (take_until "#" v))
      end
  end.

(** "Replacing the image extension with the output extension." *)
Definition replace_extension (image_extension ext file : string) : string :=
  String.substring 0 (String.length file - String.length image_extension) file ++ ext.

(** ** A runtime for the examples

    Floats are decimals [m * 10^e]; the evaluator knows the literals that
    the examples use. *)

Definition dec : Type := (Z * Z)%type.

Definition dec_repr (f : dec) : string := str_int (fst f) ++ "e" ++ str_int (snd f).

Definition demo_literals : list (string * pyval dec) :=
  [("-1e-10", PFloat (-1, -10)%Z);
   ("5e-1", PFloat (5, -1)%Z);
   ("(0, 15)", PTuple [PInt 0; PInt 15]);
   ("(5e-1, 154e-1)", PTuple [PFloat (5, -1)%Z; PFloat (154, -1)%Z]);
   ("[0, 180]", PList [PInt 0; PInt 180])].

Definition demo_literal_eval (s : string) : exn + pyval dec :=
  match List.find (fun p => String.eqb (fst p) s) demo_literals with
  | Some p => inr (snd p)
  | None => inl SyntaxError
  end.

Definition demo_files : list string :=
  ["/data/calib/geometry.poni"; "/data/calib/mask.edf"; "/data/calib/notes.txt"].

#[global] Instance demo_runtime : Runtime := {|
  float := dec;
  d_neg_mask := (-1, -10)%Z;
  float_of_int := fun z => Some (z, 0%Z);
  float_of_str := fun s =>
    match demo_literal_eval s with
    | inr (PFloat f) => Some f
    | _ => None
    end;
  float_eq_int := fun f n => (snd f =? 0)%Z && (fst f =? n)%Z;
  float_repr := dec_repr;
  repr_other := fun _ => "<object>";
  literal_eval := demo_literal_eval;
  isfile := fun p => in_list p demo_files;
  os_sep := "/";
|}.

Definition demo_date : datetime := DateTime 2026 Nov 3 9 5 42.

Definition demo_config : config :=
  Config demo_runtime "NSLS-II" "/data/1D" "/data/calib/geometry.poni"
    (Some "/data/calib/mask.edf") "full" "q_A^-1" 6000
    (PTuple [PFloat (5, -1)%Z; PFloat (154, -1)%Z]) PNone
    (PFloat (-1, -10)%Z) "None".

Definition int_text `{Runtime} (dt : datetime) (c : config) : string :=
  String.concat EmptyString (int_file_writes dt c).

(** A value that is in the accepted set under no casing. *)
Definition unrecognized (accepted : list string) (x : string) : bool :=
  negb (in_list (lower x) (List.map lower accepted)).

(** The example configuration with a mask file that does not exist, and
    with no mask at all. *)
Definition demo_config_absent_mask : config :=
  Config demo_runtime "APS" "/data/1D" "/data/calib/geometry.poni"
    (Some "/data/calib/absent.edf") "full" "2th_deg" 6000 PNone PNone
    (PFloat (-1, -10)%Z) "None".

Definition demo_config_no_mask : config :=
  Config demo_runtime "APS" "/data/1D" "/data/calib/geometry.poni"
    None "full" "2th_deg" 6000 PNone PNone (PFloat (-1, -10)%Z) "None".

(** A file whose first line is the start banner and whose [X unit] line
    stands below the end banner, among the notes. *)
Definition demo_banner_first : list string :=
  List.map (fun l => l ++ nl)
    [editstartstr;
     "Data from NSLS-II, APS, or SSRL: APS";
     "Main integrated pattern directory: /data/1D";
     "Poni file: /data/calib/geometry.poni";
     "Mask file: /data/calib/mask.edf";
     "Pixel splitting method: full";
     "Radial (x-unit) points: 6000";
     "Radial (x-unit) range: None";
     "Azimuthal (deg.) range: None";
     "Automask pixel value: None";
     "Intensity error model: none";
     editendstr;
     "X unit: r_mm"].

(** No character of [s] satisfies [p]. *)
Definition free_of (p : ascii -> bool) (s : string) : bool :=
  forallb (fun c => negb (p c)) s.

Definition is_char (c a : ascii) : bool := Ascii.eqb a c.
Definition newline : ascii := chr 10.
Definition carriage_return : ascii := chr 13.

(** A piece of text that stays on its line when the file is read. *)
Definition unbroken (s : string) : bool :=
  free_of (is_char newline) s && free_of (is_char carriage_return) s.

(** ** The round trip: what is written, line by line, and which
    configurations come back *)

(** A piece of text without a newline, or a newline. *)
Inductive segment : Type :=
  | Txt (s : string)
  | NL.

Fixpoint seg_text (l : list segment) : string :=
  match l with
  | [] => EmptyString
  | Txt s :: r => s ++ seg_text r
  | NL :: r => nl ++ seg_text r
  end.

(** The lines of [seg_text l]. *)
Fixpoint seg_lines (l : list segment) : list string :=
  match l with
  | [] => []
  | NL :: r => nl :: seg_lines r
  | Txt s :: r =>
      match seg_lines r with
      | [] => if is_empty s then [] else [s]
      | h :: t => (s ++ h) :: t
      end
  end.

(** A line [key: value]. *)
Definition kv_line (k v : string) : string := k ++ ": " ++ v ++ nl.

(** The written file, up to the banner of the editable block. *)
Definition header (dt : datetime) : list string :=
  ["#Guided Integration .int parameter file" ++ nl;
   "#Date: " ++ datestr dt ++ nl;
   "#Time: " ++ timestr dt ++ nl;
   "#Version: " ++ Version ++ nl;
   "#Github: github.com/adamcorrao/GuidedIntegration" ++ nl;
   "#Citation: Guided Integration Version " ++ Version ++ " (" ++ yearstr dt
     ++ "). https://github.com/adamcorrao/GuidedIntegration" ++ nl;
   "#Citation for latest paper on pyFAI: Kieffer, J., Valls, V., Blanc, N. & Hennig, C. (2020). "
     ++ "J. Synchrotron Rad. 27, 558-566." ++ nl;
   nl;
   "#Description of parameters, options available, acceptable operand / filetypes (Guided Integration formats this correctly):" ++ nl;
   tab ++ "#Data from NSLS-II, APS, or SSRL: where was data collected? Expected image extensions are .tiff for NSLS-II and .tif for APS / SSRL. NSLS-II images expected in sub directory 'dark_sub'" ++ nl;
   tab ++ "#Main integrated pattern directory: directory where sub directories are created in which integrated patterns are saved" ++ nl;
   tab ++ "#Poni file: instrument geometry (e.g., sample-to-detector distance, detector tilts) file - filetype must be .poni" ++ nl;
   tab ++ "#Mask file: static mask (e.g., beamstop, detector edges) - must be one of the following filetypes: *.tif | *.edf | *.npy | *.msk" ++ nl;
   nl;
   "#Integration parameters (see pyFAI docs for more details):" ++ nl;
   tab ++ "#Pixel splitting options: no (no splitting), full (full splitting), bbox (bounding box), pseudo (scaled down bbox)" ++ nl;
   tab ++ "#X unit options: 2th_deg, 2th_rad, q_nm^-1, q_A^-1, d*2_A^-2, r_mm" ++ nl;
   tab ++ "#Radial (x-unit) points: the number of bins in the x-axis - must be a number" ++ nl;
   tab ++ "#Radial (x-unit) range: radial range to integrate image over (x-unit specific) - must be a pair of comma separated numbers or None for full range" ++ nl;
   tab ++ "#Azimuthal (deg.) range: azimuthal (deg.) range to integrate image over - must be a pair of comma separated numbers or None for full range" ++ nl;
   tab ++ "#Automask pixel value: pixels with intensity less than this value are automatically masked - must be a number" ++ nl;
   tab ++ "#Intensity error model options: none, poisson for variance = I" ++ nl;
   nl;
   hashes ++ nl].

(** The editable block and what follows it. *)
Definition body `{Runtime} (c : config) : list string :=
  ["Integration parameters and setup." ++ nl;
   "Below here user can edit parameters after the colon. "
     ++ "In-line comments are allowed." ++ nl;
   hashes ++ nl;
   nl;
   kv_line k_synsrc (synsrc c);
   kv_line k_oneDdir (oneDdir c);
   kv_line k_ponif (fullponif c);
   kv_line k_maskf (str_maskf (fullmaskf c));
   nl;
   kv_line k_intmethod (intmethod c);
   kv_line k_xunit (xunit c);
   kv_line k_rad_points (str_int (rad_points c));
   kv_line k_rad_range (py_str (rad_range c));
   kv_line k_azim_range (py_str (azim_range c));
   kv_line k_neg_mask (py_str (neg_mask c));
   kv_line k_errormodel (errormodel c);
   nl;
   hashes ++ nl;
   "User notes / metadata allowed below here:" ++ nl;
   hashes].

(** The line numbers the keys are found at in a written file. *)
Definition written_dict : keyworddict :=
  List.combine keywords
    (List.map KLine [28; 29; 30; 31; 33; 34; 35; 36; 37; 38; 39]%nat).

(** The first line that satisfies [p]. *)
Fixpoint first_index (p : string -> bool) (num : nat) (lines : list string) : option nat :=
  match lines with
  | [] => None
  | line :: rest => if p line then Some num else first_index p (S num) rest
  end.

(** Some non-empty end of [a] is a proper beginning of [pat]: an occurrence
    of [pat] could start in [a] and end after it. *)
Fixpoint overlap (pat a : string) : bool :=
  match a with
  | EmptyString => false
  | String _ a' =>
      (startswith a pat && (String.length a <? String.length pat)%nat)
      || overlap pat a'
  end.

(** [pat] is looked for on lines [k: value]: it is not empty, has no
    newline, and neither occurs in [k: ] nor can start there. *)
Definition apart (pat k : string) : bool :=
  negb (is_empty pat) && free_of (is_char newline) pat
  && negb (overlap pat (k ++ ": ")) && negb (contains pat (k ++ ": ")).

(** The texts that must not occur in a value. *)
Definition reserved : list string := editendstr :: keywords.

(** A value that is read back as it is written: no newline, no [#], no
    whitespace around it, and none of the reserved texts inside. *)
Definition clean (v : string) : bool :=
  free_of (char_in (nl ++ "#")) v
  && free_of is_space (String.substring 0 1 v)
  && String.eqb (rstrip_by is_space v) v
  && List.forallb (fun pat => negb (contains pat v)) reserved.

Definition colon_free (v : string) : bool := free_of (is_char ":") v.

Section Validity.
Context `{Runtime}.

(** [str] prints the value as text that the load path reads back. *)
Definition printable (v : value) : Prop :=
  clean (py_str v) = true
  /\ colon_free (py_str v) = true
  /\ has_digit (py_str v) = true
  /\ literal_eval (py_str v) = inr v.

(** A tuple or a list of two numbers. *)
Definition is_pair (v : value) : Prop :=
  exists a b, (v = PTuple [a; b] \/ v = PList [a; b])
              /\ is_float_or_int a = true /\ is_float_or_int b = true.

Definition valid_range (v : value) : Prop :=
  v = PNone \/ (is_pair v /\ printable v).

Definition valid_neg_mask (v : value) : Prop :=
  v = PNone \/ ((exists f, v = PFloat f) /\ printable v).

Record valid_config (c : config) : Prop := {
  v_synsrc : In (synsrc c) ["NSLS-II"; "APS"; "SSRL"];
  v_oneDdir : clean (oneDdir c) = true;
  v_ponif : clean (fullponif c) = true;
  v_ponif_file : isfile (fullponif c) = true;
  v_ponif_type : endswith ".poni" (fullponif c) = true;
  v_maskf : exists m, fullmaskf c = Some m
              /\ clean m = true /\ isfile m = true
              /\ List.existsb (fun ext => endswith ext m) maskfext_accepted = true;
  v_intmethod : In (intmethod c) intmethod_accepted;
  v_xunit : In (xunit c) xunit_accepted;
  v_rad_range : valid_range (rad_range c);
  v_azim_range : valid_range (azim_range c);
  v_neg_mask : valid_neg_mask (neg_mask c);
  v_errormodel : In (errormodel c) ["None"; "none"; "poisson"];
}.

(** The configuration with its unit and its error model in lower case. *)
Definition normalize (c : config) : config :=
  Config _ (synsrc c) (oneDdir c) (fullponif c) (fullmaskf c) (intmethod c)
    (lower (xunit c)) (rad_points c) (rad_range c) (azim_range c)
    (neg_mask c) (lower (errormodel c)).

(** The text written after each key, in the order of the keys. *)
Definition printed_values (c : config) : list string :=
  [synsrc c; oneDdir c; fullponif c; str_maskf (fullmaskf c); intmethod c;
   xunit c; str_int (rad_points c); py_str (rad_range c);
   py_str (azim_range c); py_str (neg_mask c); errormodel c].

(** Every value is clean, and those that are not paths have no colon. *)
Definition clean_values (c : config) : Prop :=
  List.Forall (fun v => clean v = true) (printed_values c)
  /\ List.Forall (fun v => colon_free v = true)
       [synsrc c; intmethod c; xunit c; str_int (rad_points c);
        py_str (rad_range c); py_str (azim_range c); py_str (neg_mask c);
        errormodel c].

(** The segments of the written text. *)
Definition segments (dt : datetime) (c : config) : list segment :=
  [Txt "#Guided Integration .int parameter file"; NL;
   Txt "#Date: "; Txt (datestr dt); NL;
   Txt "#Time: "; Txt (timestr dt); NL;
   Txt "#Version: "; Txt Version; NL;
   Txt "#Github: github.com/adamcorrao/GuidedIntegration"; NL;
   Txt "#Citation: Guided Integration Version "; Txt Version; Txt " (";
   Txt (yearstr dt);
   Txt "). https://github.com/adamcorrao/GuidedIntegration"; NL;
   Txt "#Citation for latest paper on pyFAI: Kieffer, J., Valls, V., Blanc, N. & Hennig, C. (2020). ";
   Txt "J. Synchrotron Rad. 27, 558-566."]
  ++
  [NL; NL; Txt "#Description of parameters, options available, acceptable operand / filetypes (Guided Integration formats this correctly):";
   NL; Txt tab; Txt "#Data from NSLS-II, APS, or SSRL: where was data collected? Expected image extensions are .tiff for NSLS-II and .tif for APS / SSRL. NSLS-II images expected in sub directory 'dark_sub'";
   NL; Txt tab; Txt "#Main integrated pattern directory: directory where sub directories are created in which integrated patterns are saved";
   NL; Txt tab; Txt "#Poni file: instrument geometry (e.g., sample-to-detector distance, detector tilts) file - filetype must be .poni";
   NL; Txt tab; Txt "#Mask file: static mask (e.g., beamstop, detector edges) - must be one of the following filetypes: *.tif | *.edf | *.npy | *.msk";
   NL; NL; Txt "#Integration parameters (see pyFAI docs for more details):";
   NL; Txt tab; Txt "#Pixel splitting options: no (no splitting), full (full splitting), bbox (bounding box), pseudo (scaled down bbox)";
   NL; Txt tab; Txt "#X unit options: 2th_deg, 2th_rad, q_nm^-1, q_A^-1, d*2_A^-2, r_mm";
   NL; Txt tab; Txt "#Radial (x-unit) points: the number of bins in the x-axis - must be a number";
   NL; Txt tab; Txt "#Radial (x-unit) range: radial range to integrate image over (x-unit specific) - must be a pair of comma separated numbers or None for full range";
   NL; Txt tab; Txt "#Azimuthal (deg.) range: azimuthal (deg.) range to integrate image over - must be a pair of comma separated numbers or None for full range";
   NL; Txt tab; Txt "#Automask pixel value: pixels with intensity less than this value are automatically masked - must be a number";
   NL; Txt tab; Txt "#Intensity error model options: none, poisson for variance = I"]
  ++
  [NL; NL; Txt hashes;
   NL; Txt "Integration parameters and setup."; NL;
   Txt "Below here user can edit parameters after the colon. ";
   Txt "In-line comments are allowed."; NL;
   Txt hashes;
   NL; NL; Txt "Data from NSLS-II, APS, or SSRL: "; Txt (synsrc c);
   NL; Txt "Main integrated pattern directory: "; Txt (oneDdir c);
   NL; Txt "Poni file: "; Txt (fullponif c);
   NL; Txt "Mask file: "; Txt (str_maskf (fullmaskf c))]
  ++
  [NL; NL; Txt "Pixel splitting method: "; Txt (intmethod c);
   NL; Txt "X unit: "; Txt (xunit c);
   NL; Txt "Radial (x-unit) points: "; Txt (str_int (rad_points c));
   NL; Txt "Radial (x-unit) range: "; Txt (py_str (rad_range c));
   NL; Txt "Azimuthal (deg.) range: "; Txt (py_str (azim_range c));
   NL; Txt "Automask pixel value: "; Txt (py_str (neg_mask c));
   NL; Txt "Intensity error model: "; Txt (errormodel c)]
  ++
  [NL; NL; Txt hashes;
   NL; Txt "User notes / metadata allowed below here:"; NL;
   Txt hashes].

End Validity.

(** The paths and the printed pairs and floats hold no carriage return:
    within a value it would end the line when the file is read. *)
Definition one_line_values `{Runtime} (c : config) : Prop :=
  List.Forall (fun v => free_of (is_char carriage_return) v = true)
    [oneDdir c; fullponif c; str_maskf (fullmaskf c);
     py_str (rad_range c); py_str (azim_range c); py_str (neg_mask c)].

(** The image extension of a data source. *)
Definition image_extension_of (src : string) : string :=
  if String.eqb src "NSLS-II" then ".tiff" else ".tif".

(** The characters of a printed integer, and of a printed date or time. *)
Definition int_char (c : ascii) : bool := is_ascii_digit c || Ascii.eqb c "-".
Definition date_char (c : ascii) : bool :=
  is_ascii_digit c || char_in "-JFMASONDabceglnoprtuvy" c.

(** A character that can stand anywhere in a value: no whitespace, no
    newline, [#] or colon, and not the first letter of a reserved text. *)
Definition plain_char (c : ascii) : bool :=
  negb (is_space c) && negb (char_in (nl ++ "#:UDMPXRAI") c).

(** The value of the digits of [d] read after [acc]. *)
Fixpoint uint_value (acc : Z) (d : Decimal.uint) : Z :=
  match d with
  | Decimal.Nil => acc
  | Decimal.D0 d' => uint_value (10 * acc + 0) d'
  | Decimal.D1 d' => uint_value (10 * acc + 1) d'
  | Decimal.D2 d' => uint_value (10 * acc + 2) d'
  | Decimal.D3 d' => uint_value (10 * acc + 3) d'
  | Decimal.D4 d' => uint_value (10 * acc + 4) d'
  | Decimal.D5 d' => uint_value (10 * acc + 5) d'
  | Decimal.D6 d' => uint_value (10 * acc + 6) d'
  | Decimal.D7 d' => uint_value (10 * acc + 7) d'
  | Decimal.D8 d' => uint_value (10 * acc + 8) d'
  | Decimal.D9 d' => uint_value (10 * acc + 9) d'
  end.

(** A line without either banner. *)
Definition no_banner (line : string) : Prop :=
  contains editstartstr line = false /\ contains editendstr line = false.

(** The example configuration with an output directory whose name holds a
    [#]. *)
Definition demo_config_hash : config :=
  Config demo_runtime "NSLS-II" "/data/run#1/1D" "/data/calib/geometry.poni"
    (Some "/data/calib/mask.edf") "full" "q_A^-1" 6000
    (PTuple [PFloat (5, -1)%Z; PFloat (154, -1)%Z]) PNone
    (PFloat (-1, -10)%Z) "None".


(** A directory of the example. *)
Definition demo_listdir (d : string) : option (list string) :=
  if String.eqb d "/data/tiff/s1/dark_sub/"
  then Some ["scan1.tiff"; "scan2.tiff"; "readme.txt"]
  else None.


(** The messages of the loop that creates the directories. *)
Definition dir_message (m : msg) : bool :=
  match m with
  | DirCreated _ | DirExists _ => true
  | _ => false
  end.

(** The example configuration with another output directory. *)
Definition demo_config_dir (d : string) : config :=
  Config demo_runtime "NSLS-II" d "/data/calib/geometry.poni"
    (Some "/data/calib/mask.edf") "full" "q_A^-1" 6000
    (PTuple [PFloat (5, -1)%Z; PFloat (154, -1)%Z]) PNone
    (PFloat (-1, -10)%Z) "None".

(** How many steps are left at most from a point of the loops. *)
Section Measure.
Context `{Runtime}.
Variable listdir : string -> option (list string).
Variable c : config.
Variable image_extension tiff_dir : string.

Definition fold_size (fold : string) : nat :=
  match ftoint listdir c image_extension tiff_dir fold with
  | inl _ => 3
  | inr l => 2 * List.length l + 3
  end.

Fixpoint folds_size (folds : list string) : nat :=
  match folds with
  | [] => 1
  | fold :: rest => fold_size fold + folds_size rest
  end.

Definition steps_left (p : point) : nat :=
  match p with
  | NextFold folds => folds_size folds
  | NextFile _ todo folds => 2 * List.length todo + 1 + folds_size folds
  | Counted _ _ todo folds => 2 * List.length todo + 2 + folds_size folds
  | Finished | Crashed _ => 0
  end.

End Measure.

(** The loops have ended. *)
Definition ended (p : point) : bool :=
  match p with
  | Finished | Crashed _ => true
  | _ => false
  end.

(** ** More of the script: the folders chosen in the file browser, the
    count of the images, the record file *)

(** [s.partition(p)[0]] for a non-empty [p]: the text before the first
    occurrence of [p], all of [s] when there is none. *)
Fixpoint partition_head (p s : string) : string :=
  if startswith p s then EmptyString
  else match s with
       | EmptyString => EmptyString
       | String c s' => String c (partition_head p s')
       end.

Section Browser.
Context `{Runtime}.

(** Lines 117-120 (and 1025-1028): the names of the chosen folders. *)
Definition gui_dirstoint (fulldirstoint : list string) : list string :=
  List.map (basename os_sep) fulldirstoint.

(** Line 133 (and 1041): the directory the chosen folders stand in, taken
    from the first of them; [partition] raises [ValueError] on an empty
    name, and the indexing raises [IndexError] without a folder. *)
Definition gui_tiff_dir (fulldirstoint : list string) : exn + string :=
  match fulldirstoint, gui_dirstoint fulldirstoint with
  | first :: _, name :: _ =>
      if is_empty name then inl ValueError
      else inr (dirname os_sep (partition_head name first))
  | _, _ => inl IndexError
  end.

(** Line 134 (and 1042, 150, 1058). *)
Definition gui_main_dir (tiff_dir : string) : string := dirname os_sep tiff_dir.

End Browser.

Section Record.
Context `{Runtime}.
Variable listdir : string -> option (list string).
Variable c : config.
Variable image_extension tiff_dir : string.

(** Lines 1266-1273: the number of images to integrate, counted before the
    loops start. *)
Fixpoint numtiffstoint (folds : list string) (acc : nat) : exn + nat :=
  match folds with
  | [] => inr acc
  | fold :: rest =>
      match ftoint listdir c image_extension tiff_dir fold with
      | inl e => inl e
      | inr l => numtiffstoint rest (acc + List.length l)
      end
  end.

(** The images of the selected folders, in the order the loops take them. *)
Definition planned_images (folds : list string) : list string :=
  List.flat_map (fun fold =>
    match ftoint listdir c image_extension tiff_dir fold with
    | inl _ => []
    | inr l => l
    end) folds.

(** Line 1181. *)
Definition recfname (dt : datetime) : string :=
  "GuidedIntegration_" ++ datetimestr dt ++ "_record.txt".

(** What lines 1346-1356 write, in order. *)
Definition record_writes (dt : datetime) (dirstoint intedimages : list string)
    : list string :=
  ["#Guided Integration record file";
   GI_statement dt;
   int_setup_statement c;
   intprm_statement c;
   nl ++ nl ++ hashes ++
   nl ++ "Integration record" ++ nl ++
   hashes ++ nl ++ nl ++ "Directories parsed for files to integrate:" ++ nl;
   join nl dirstoint;
   nl ++ nl ++ "Images integrated:" ++ nl;
   join nl intedimages;
   usernotes_statement].

Definition record_text (dt : datetime) (dirstoint intedimages : list string) : string :=
  String.concat EmptyString (record_writes dt dirstoint intedimages).

(** Lines 1342-1356. *)
Definition save_record_file (fs : files) (path : string) (dt : datetime)
    (dirstoint intedimages : list string) : files :=
  let f := open_append fs path in
  let f := seek f 0 in
  let f := truncate f in
  let f := seek f 0 in
  let f := List.fold_left write (record_writes dt dirstoint intedimages) f in
  close fs path f.

(** The editable block of a written file: from the start banner to the line
    of the error model. *)
Definition block : list string := List.firstn 16 (body c).

(** The lines of the record file above the block. *)
Definition record_header (dt : datetime) : list string :=
  ("#Guided Integration record file" ++ nl)
    :: List.app (List.firstn 6 (List.tl (header dt))) [nl; hashes ++ nl].

(** The segments of the record text up to the end of the line of the error
    model. *)
Definition record_segments (dt : datetime) : list segment :=
  [Txt "#Guided Integration record file"; NL;
   Txt "#Date: "; Txt (datestr dt); NL;
   Txt "#Time: "; Txt (timestr dt); NL;
   Txt "#Version: "; Txt Version; NL;
   Txt "#Github: github.com/adamcorrao/GuidedIntegration"; NL;
   Txt "#Citation: Guided Integration Version "; Txt Version; Txt " (";
   Txt (yearstr dt);
   Txt "). https://github.com/adamcorrao/GuidedIntegration"; NL;
   Txt "#Citation for latest paper on pyFAI: Kieffer, J., Valls, V., Blanc, N. & Hennig, C. (2020). ";
   Txt "J. Synchrotron Rad. 27, 558-566."]
  ++
  [NL; NL; Txt hashes;
   NL; Txt "Integration parameters and setup."; NL;
   Txt "Below here user can edit parameters after the colon. ";
   Txt "In-line comments are allowed."; NL;
   Txt hashes;
   NL; NL; Txt "Data from NSLS-II, APS, or SSRL: "; Txt (synsrc c);
   NL; Txt "Main integrated pattern directory: "; Txt (oneDdir c);
   NL; Txt "Poni file: "; Txt (fullponif c);
   NL; Txt "Mask file: "; Txt (str_maskf (fullmaskf c))]
  ++
  [NL; NL; Txt "Pixel splitting method: "; Txt (intmethod c);
   NL; Txt "X unit: "; Txt (xunit c);
   NL; Txt "Radial (x-unit) points: "; Txt (str_int (rad_points c));
   NL; Txt "Radial (x-unit) range: "; Txt (py_str (rad_range c));
   NL; Txt "Azimuthal (deg.) range: "; Txt (py_str (azim_range c));
   NL; Txt "Automask pixel value: "; Txt (py_str (neg_mask c));
   NL; Txt "Intensity error model: "; Txt (errormodel c); NL].

(** The record text after that line. *)
Definition record_rest (dirstoint intedimages : list string) : string :=
  nl ++ hashes ++
  nl ++ "Integration record" ++ nl ++
  hashes ++ nl ++ nl ++ "Directories parsed for files to integrate:" ++ nl ++
  join nl dirstoint ++
  nl ++ nl ++ "Images integrated:" ++ nl ++
  join nl intedimages ++
  usernotes_statement.

End Record.

(** A line on which the key [i] is declared, as the search without a start
    banner sees it: the key occurs, and no [#] stands before it. *)
Definition declares (i line : string) : bool :=
  contains i line
  && (negb (contains "#" line) || (find "#" line >? find i line)%Z).

(** The first two items of [v] are numbers. *)
Definition numeric_bounds `{Runtime} (v : value) : Prop :=
  exists n x0 x1,
    py_len v = Some n /\ 2 <= n
    /\ py_getitem v 0 = inr x0 /\ py_getitem v 1 = inr x1
    /\ is_float_or_int x0 = true /\ is_float_or_int x1 = true.

(** The keys found at the lines of a block that starts at line [h]. *)
Definition block_dict (h : nat) : keyworddict :=
  List.combine keywords
    (List.map (fun n => KLine (h + n)) [4; 5; 6; 7; 9; 10; 11; 12; 13; 14; 15]%nat).

(** Examples: folders listed for the batch, and a runtime whose file system
    has no mask. *)
Definition demo_listing (d : string) : option (list string) :=
  if String.eqb d "/data/tiff/s1/dark_sub/"
  then Some ["scan1.tiff"; "scan2.tiff"; "readme.txt"]
  else if String.eqb d "/data/tiff/s2/dark_sub/"
  then Some ["notes.md"; "scan3.tiff"]
  else None.

(** A runtime for the examples that also reads two quoted texts. *)
Definition quoting_literal_eval (s : string) : exn + pyval dec :=
  if String.eqb s "'5e-1'" then inr (PStr "5e-1")
  else if String.eqb s "'1 px'" then inr (PStr "1 px")
  else demo_literal_eval s.

Definition quoting_runtime : Runtime := {|
  float := dec;
  d_neg_mask := @d_neg_mask demo_runtime;
  float_of_int := @float_of_int demo_runtime;
  float_of_str := @float_of_str demo_runtime;
  float_eq_int := @float_eq_int demo_runtime;
  float_repr := @float_repr demo_runtime;
  repr_other := @repr_other demo_runtime;
  literal_eval := quoting_literal_eval;
  isfile := @isfile demo_runtime;
  os_sep := @os_sep demo_runtime;
|}.

(** What holds at every point of the loops when there is no mask. *)
Definition maskless (s : batch * point) : Prop :=
  intedimages (fst s) = [] /\ patterns (fst s) = []
  /\ match snd s with
     | Counted _ _ _ _ => totalintcount (fst s) = 1
     | Crashed _ => totalintcount (fst s) <= 1
     | _ => totalintcount (fst s) = 0
     end.

(** ** Entering the parameters at the prompts (lines 240-620) *)

Section Guided.
Context `{Runtime}.

(** The seven parameter variables. *)
Record parameters : Type := Parameters {
  p_intmethod : string;
  p_xunit : string;
  p_rad_points : Z;
  p_rad_range : value;
  p_azim_range : value;
  p_neg_mask : value;
  p_errormodel : string;
}.

(** What is typed at the seven prompts of one round. *)
Record answers : Type := Answers {
  a_intmethod : string;
  a_xunit : string;
  a_rad_points : string;
  a_rad_range : string;
  a_azim_range : string;
  a_neg_mask : string;
  a_errormodel : string;
}.

(** Lines 244-250. *)
Definition default_parameters : parameters :=
  Parameters d_intmethod d_xunit d_rad_points d_rad_range d_azim_range
    (PFloat d_neg_mask) d_errormodel.

(** One round of prompts: lines 254-417, and again lines 435-603. *)
Definition enter_parameters (a : answers) : run parameters :=
  i ← guided_intmethod (a_intmethod a);
  x ← guided_xunit (a_xunit a);
  n ← guided_rad_points (a_rad_points a);
  rr ← check_range "rad_range" (a_rad_range a);
  ar ← check_range "azim_range" (a_azim_range a);
  nm ← check_neg_mask (a_neg_mask a);
  em ← check_errormodel (a_errormodel a);
  mret (Parameters i x n rr ar nm em).

(** Lines 240-620.  [second] and [intprmconfirm2] are what is typed when the
    parameters are entered again.  The result is [None] when the seven
    variables are left unbound.  Of the texts printed here only the one
    before [sys.exit()] is recorded. *)
Definition guided_parameters (intprmselect : string) (first : answers)
    (intprmconfirm : string) (second : answers) (intprmconfirm2 : string)
    : run (option parameters) :=
  if String.eqb intprmselect "1" then mret (Some default_parameters)
  else if String.eqb intprmselect "2" then
    p ← enter_parameters first;
    if String.eqb intprmconfirm "1" then mret (Some p)
    else if String.eqb intprmconfirm "2" then
      p2 ← enter_parameters second;
      if String.eqb intprmconfirm2 "1" then mret (Some p2)
      else if String.eqb intprmconfirm2 "2" then print Quit;; sys_exit
      else mret (Some p2)
    else if String.eqb intprmconfirm "3" then print Quit;; sys_exit
    else mret (Some p)
  else mret None.

(** Line 1162: the first statement that reads the parameters. *)
Definition read_parameters (p : option parameters) : run parameters :=
  match p with
  | Some p => mret p
  | None => raise NameError
  end.

(** What the checks let through. *)
Definition range_checked (v : value) : Prop :=
  v = PNone \/ py_len v = Some 0 \/ numeric_bounds v.

Definition parameters_checked (p : parameters) : Prop :=
  In (p_intmethod p) intmethod_accepted
  /\ In (p_xunit p) xunit_accepted
  /\ range_checked (p_rad_range p)
  /\ range_checked (p_azim_range p)
  /\ (p_neg_mask p = PNone \/ (exists f, p_neg_mask p = PFloat f)
      \/ exists s, p_neg_mask p = PStr s /\ has_digit s = false)
  /\ In (p_errormodel p) ["None"; "none"; "poisson"].

End Guided.

(** Answers for the examples: none at all, and one round of them. *)
Definition no_answers : answers :=
  Answers EmptyString EmptyString EmptyString EmptyString EmptyString
    EmptyString EmptyString.

Definition demo_answers : answers :=
  Answers "BBOX" "q" "3000" "(0, 15)" EmptyString "off" "Poisson".

(** ** Confirming the keyword (lines 153-181 and 1061-1089) *)

(** The keyword and the flag [CLItiffs] after the questions; [keyword2] and
    [keywordcorrect2] are what is typed when the keyword is entered again.
    The three tests are not chained: after the keyword is entered again the
    last one looks at the second answer. *)
Definition keyword_prompt (keyword keywordcorrect keyword2 keywordcorrect2 : string)
    : run (string * bool) :=
  if String.eqb keywordcorrect "2" then
    if String.eqb keywordcorrect2 "1" then mret (keyword2, true)
    else if String.eqb keywordcorrect2 "2" then print Quit;; sys_exit
    else if String.eqb keywordcorrect2 "3" then print Quit;; sys_exit
    else mret (keyword2, false)
  else if String.eqb keywordcorrect "3" then print Quit;; sys_exit
  else mret (keyword, String.eqb keywordcorrect "1").

(** Lines 645-659 (and 1117-1131) after the keyword questions: [GUItiffs]
    is [False], and [dirstoint] is bound only when [CLItiffs] is [True]; the
    loop over it raises [NameError] otherwise. *)
Definition cli_dirstoint (subdirs : list string) (k : string * bool)
    : run (list string) :=
  if snd k then mret (select_dirs (fst k) subdirs) else raise NameError.

(** ** The path of the record file (lines 1181, 1231-1235 and 1342) *)

Definition record_file_path `{Runtime} (intfname_user tiff_dir : string)
    (dt : datetime) : string :=
  (if is_empty intfname_user then tiff_dir else dirname os_sep intfname_user)
  ++ os_sep ++ recfname dt.

(** The example configuration with a split method and a unit that are
    accepted in no casing. *)
Definition demo_config_unrecognized : config :=
  Config demo_runtime "APS" "/data/1D" "/data/calib/geometry.poni"
    (Some "/data/calib/mask.edf") "Fulll" "degrees" 6000 PNone PNone
    (PFloat (-1, -10)%Z) "none".

(** * Properties *)

(** ** Helper lemmas on text *)

Lemma in_list_In x l : in_list x l = true <-> In x l.
Proof.
  unfold in_list. rewrite List.existsb_exists. split.
  - intros (y & Hy & E). apply String.eqb_eq in E. now subst.
  - intros Hx. exists x. split; [assumption | apply String.eqb_refl].
Qed.

Lemma endswith_refl s : endswith s s = true.
Proof. destruct s; cbn [endswith]; rewrite String.eqb_refl; reflexivity. Qed.

Lemma endswith_app a s : endswith s (a ++ s) = true.
Proof.
  induction a as [|c a IH].
  - apply endswith_refl.
  - change (String c a ++ s) with (String c (a ++ s)).
    cbn [endswith]. rewrite IH. apply orb_true_r.
Qed.

Lemma substring_0_0 s : String.substring 0 0 s = EmptyString.
Proof. destruct s; reflexivity. Qed.

Lemma append_nil_l (s : string) : EmptyString ++ s = s.
Proof. reflexivity. Qed.

Lemma append_cons c (a b : string) : String c a ++ b = String c (a ++ b).
Proof. reflexivity. Qed.

Lemma append_nil_r (s : string) : s ++ EmptyString = s.
Proof. induction s; rewrite ?append_nil_l, ?append_cons; congruence. Qed.

Lemma append_assoc (a b c : string) : (a ++ b) ++ c = a ++ (b ++ c).
Proof. induction a; rewrite ?append_nil_l, ?append_cons; congruence. Qed.

(** ** C8: extension and column labels *)

Lemma check_errormodel_values ans :
  exists e, outcome (check_errormodel ans) = Done e
            /\ (e = "None" \/ e = "none" \/ e = "poisson").
Proof.
  unfold check_errormodel.
  destruct (is_empty ans); [exists "None"; simpl; auto |].
  destruct (in_list ans errormodel_accepted) eqn:E1.
  - apply in_list_In in E1. simpl in E1.
    destruct E1 as [<- | [<- | []]]; eexists; (split; [reflexivity |]);
      vm_compute; auto.
  - destruct (in_list (lower ans) errormodel_accepted) eqn:E2; cbn [orb].
    + apply in_list_In in E2. simpl in E2.
      exists (lower ans). split; [reflexivity |].
      destruct E2 as [E | [E | []]]; rewrite <- E; auto.
    + exists "None". simpl. auto.
Qed.

(** C8, as the source has it: whatever the error-model check lets through is
    [None], [none] or [poisson]; for the first two the output files get the
    extension [.xy] and the labels [#unit, I], for [poisson] the extension
    [.xye] and the labels [#unit, I, I_err], where the first label is the
    configured unit behind a [#]; the name of every output file ends with
    that extension. *)
Theorem error_model_mapping `{Runtime} (c : config) (image_extension unit : string) :
  oneD_format "none" unit = Some (".xy", ["#" ++ unit; "I"])
  /\ oneD_format "None" unit = Some (".xy", ["#" ++ unit; "I"])
  /\ oneD_format "poisson" unit = Some (".xye", ["#" ++ unit; "I"; "I_err"])
  /\ (forall ans, exists e ext cols,
        outcome (check_errormodel ans) = Done e
        /\ oneD_format e unit = Some (ext, cols)
        /\ forall fold file,
             endswith ext (oneD_name c image_extension fold file ext) = true).
Proof.
  repeat split; try reflexivity.
  intros ans. destruct (check_errormodel_values ans) as (e & He & Hv).
  exists e.
  destruct Hv as [-> | [-> | ->]]; do 2 eexists;
    (split; [exact He | split; [reflexivity |]]);
    intros fold file; unfold oneD_name;
    rewrite <- !append_assoc; apply endswith_app.
Qed.

(** C8 as worded fails: with the error model [none] and the unit [2th_deg]
    the labels are not [2th_deg, I]. *)
Lemma columns_are_not_the_bare_unit :
  oneD_columns "none" "2th_deg" = Some ["#2th_deg"; "I"]
  /\ oneD_columns "none" "2th_deg" <> Some ["2th_deg"; "I"].
Proof. split; [reflexivity | discriminate]. Qed.

(** ** C7: the name of the output file *)

(** C7 fails at [test.tif]: [strip] takes the extension as a set of
    characters and eats the [t] at both ends of the stem. *)
Theorem oneD_name_strips_stem :
  oneD_name demo_config ".tif" "s1" "test.tif" ".xy" = "/data/1D/s1//es.xy"
  /\ strip_chars ".tif" "test.tif" = "es"
  /\ replace_extension ".tif" ".xy" "test.tif" = "test.xy"
  /\ strip_chars ".tiff" "fit.tiff" = EmptyString.
Proof. repeat split; reflexivity. Qed.

(** ** C9: the counter and the list of integrated images *)

Section BatchInvariant.
Context `{Runtime}.
Variable listdir : string -> option (list string).
Variable image_ok : string -> bool.
Variable process_ok : string -> string -> bool.
Variable c : config.
Variable image_extension tiff_dir : string.

Let step' := step listdir image_ok process_ok c image_extension tiff_dir.
Let steps' := steps listdir image_ok process_ok c image_extension tiff_dir.
Let reachable' := reachable listdir image_ok process_ok c image_extension tiff_dir.



Lemma reachable_steps dirstoint n : reachable' dirstoint (steps' n (start dirstoint)).
Proof.
  assert (G : forall s, reachable' dirstoint s -> reachable' dirstoint (steps' n s)).
  { induction n as [|n IH]; intros s Hs; [exact Hs |].
    simpl. apply IH. destruct s as [b p]. apply reach_step, Hs. }
  apply G, reach_start.
Qed.

Lemma steps_left_decreases b p :
  ended p = false ->
  steps_left listdir c image_extension tiff_dir (snd (step' b p))
  < steps_left listdir c image_extension tiff_dir p.
Proof.
  unfold step', step.
  destruct p as [[|fold folds] | fold [|file todo] folds | fold file todo folds | | e];
    intros He; try discriminate; cbn [snd steps_left folds_size List.length].
  - lia.
  - unfold fold_size. destruct (ftoint _ _ _ _ fold); cbn [snd steps_left]; lia.
  - pose proof (folds_size listdir c image_extension tiff_dir folds). lia.
  - lia.
  - destruct (int_dir c tiff_dir fold); cbn [snd steps_left]; [| lia].
    destruct (image_ok _); cbn [negb snd steps_left]; [| lia].
    destruct (oneD_extension _ _); cbn [snd steps_left]; [| lia].
    destruct (fullmaskf c); cbn [snd steps_left]; [| lia].
    destruct (process_ok _ _); cbn [snd steps_left]; lia.
Qed.

(** The loops end: from every point some number of steps leads to
    [Finished] or to [Crashed]. *)
Lemma loops_end s : exists n, ended (snd (steps' n s)) = true.
Proof.
  remember (steps_left listdir c image_extension tiff_dir (snd s)) as m eqn:Hm.
  revert s Hm. induction m as [m IH] using lt_wf_ind. intros [b p] Hm.
  destruct (ended p) eqn:He; [exists 0; exact He |].
  pose proof (steps_left_decreases b p He) as Hlt.
  cbn [snd] in Hm. rewrite <- Hm in Hlt.
  destruct (IH _ Hlt (step' b p) eq_refl) as [n Hn].
  exists (S n). exact Hn.
Qed.


End BatchInvariant.



(** ** Writing the [.int] file (lines 1237-1245) *)

Lemma fold_write_data l h :
  h_data (List.fold_left write l h) = h_data h ++ String.concat EmptyString l.
Proof.
  revert h. induction l as [|x l IH]; intros h.
  - simpl. now rewrite append_nil_r.
  - cbn [List.fold_left]. rewrite IH. unfold write at 1. cbn [h_data].
    rewrite append_assoc. f_equal.
    destruct l as [|y l]; [now rewrite append_nil_r | reflexivity].
Qed.

Lemma save_int_file_lookup `{Runtime} fs path dt (c : config) :
  save_int_file fs path dt c !! path = Some (int_text dt c).
Proof.
  unfold save_int_file, close. rewrite lookup_insert_eq. f_equal.
  rewrite fold_write_data. unfold truncate, seek. cbn [h_data h_pos].
  now rewrite substring_0_0.
Qed.

Lemma save_int_file_other `{Runtime} fs path dt (c : config) other :
  other <> path -> save_int_file fs path dt c !! other = fs !! other.
Proof.
  intros Hne. unfold save_int_file, close. now rewrite lookup_insert_ne.
Qed.

(** ** C4: mirroring the directories *)

Section MirrorFacts.
Context `{Runtime}.
Variable mkdir_error : string -> option exn.

(** When the loop runs to its end, every name was appended. *)
Lemma make_folders_done oneDdir todo : forall dirs acc dirs' out l,
  make_folders mkdir_error oneDdir dirs todo acc = (dirs', (out, Done l)) ->
  l = (acc ++ todo)%list.
Proof.
  induction todo as [|dir rest IH]; intros dirs acc dirs' out l Hm.
  - simpl in Hm. injection Hm as _ _ <-. now rewrite List.app_nil_r.
  - cbn [make_folders] in Hm.
    destruct (os_mkdir mkdir_error dirs _) as [dirs1 [| | e]].
    + destruct (make_folders mkdir_error oneDdir dirs1 rest (acc ++ [dir])%list)
        as [dirs2 [out2 [l2 | | e2]]] eqn:E; simpl in Hm; try discriminate.
      injection Hm as _ _ <-. apply IH in E. rewrite E, <- List.app_assoc. reflexivity.
    + destruct (make_folders mkdir_error oneDdir dirs1 rest (acc ++ [dir])%list)
        as [dirs2 [out2 [l2 | | e2]]] eqn:E; simpl in Hm; try discriminate.
      injection Hm as _ _ <-. apply IH in E. rewrite E, <- List.app_assoc. reflexivity.
    + discriminate.
Qed.

(** The loop stops at the first directory that cannot be created. *)
Lemma make_folders_fails oneDdir dirs dir rest acc e :
  path_join os_sep oneDdir dir ∉ dirs ->
  mkdir_error (path_join os_sep oneDdir dir) = Some e ->
  make_folders mkdir_error oneDdir dirs (dir :: rest) acc = (dirs, ([], Raised e)).
Proof.
  intros Hnew He. cbn [make_folders]. unfold os_mkdir.
  destruct (decide _) as [Hin | _]; [contradiction |].
  now rewrite He.
Qed.

Lemma make_folders_no_exit oneDdir todo : forall dirs acc,
  outcome (snd (make_folders mkdir_error oneDdir dirs todo acc)) <> Exit.
Proof.
  induction todo as [|dir rest IH]; intros dirs acc; [discriminate |].
  cbn [make_folders].
  destruct (os_mkdir mkdir_error dirs _) as [dirs1 [| | e]]; [| | discriminate].
  all: specialize (IH dirs1 (acc ++ [dir])%list);
    destruct (make_folders mkdir_error oneDdir dirs1 rest (acc ++ [dir])%list)
      as [dirs2 [out2 [l2 | | e2]]]; simpl in *; congruence.
Qed.

(** So the comparison of lines 1144-1152 never finds a difference: the
    program never leaves through it. *)
Lemma mirror_dirs_never_exits oneDdir dirs dirstoint :
  outcome (snd (mirror_dirs mkdir_error oneDdir dirs dirstoint)) <> Exit.
Proof.
  unfold mirror_dirs.
  pose proof (make_folders_no_exit oneDdir dirstoint dirs []) as Hne.
  destruct (make_folders mkdir_error oneDdir dirs dirstoint [])
    as [dirs' [out [l | | e]]] eqn:E; simpl in Hne; try congruence.
  - apply make_folders_done in E. simpl in E. subst l.
    unfold mbind, run_bind, compare_lists, list_eqb. cbn [snd].
    rewrite bool_decide_eq_true_2 by reflexivity.
    simpl. discriminate.
  - simpl. discriminate.
Qed.

Lemma make_folders_prints oneDdir todo : forall dirs acc,
  List.forallb dir_message
    (printed (snd (make_folders mkdir_error oneDdir dirs todo acc))) = true.
Proof.
  induction todo as [|dir rest IH]; intros dirs acc; [reflexivity |].
  cbn [make_folders].
  destruct (os_mkdir mkdir_error dirs _) as [dirs1 [| | e]]; [| | reflexivity].
  all: specialize (IH dirs1 (acc ++ [dir])%list);
    destruct (make_folders mkdir_error oneDdir dirs1 rest (acc ++ [dir])%list)
      as [dirs2 [out2 [l2 | | e2]]]; cbn in *; exact IH.
Qed.

Lemma mirror_dirs_prints oneDdir dirs dirstoint :
  List.forallb dir_message
    (printed (snd (mirror_dirs mkdir_error oneDdir dirs dirstoint))) = true.
Proof.
  unfold mirror_dirs.
  pose proof (make_folders_prints oneDdir dirstoint dirs []) as Hp.
  destruct (make_folders mkdir_error oneDdir dirs dirstoint [])
    as [dirs' [out [l | | e]]] eqn:E; cbn [snd printed fst] in Hp;
    cbn [snd]; unfold mbind, run_bind; try exact Hp.
  apply make_folders_done in E. cbn [List.app] in E. subst l.
  unfold compare_lists, list_eqb. rewrite bool_decide_eq_true_2 by reflexivity.
  cbn. now rewrite List.app_nil_r.
Qed.

End MirrorFacts.

(** C4 fails when directories cannot be created.  Whatever the disk
    does, the program never leaves through the comparison of the two lists
    and prints nothing but the messages of the loop: the list of missing
    directories is never printed.  With two directories that cannot be
    created, the first failure leaves the program with the exception and the
    second name is never tried. *)
Theorem mirror_dirs_stops_at_first_failure :
  (forall (R : Runtime) mkdir_error oneDdir dirs dirstoint,
     let r := snd (mirror_dirs mkdir_error oneDdir dirs dirstoint) in
     outcome r <> Exit /\ List.forallb dir_message (printed r) = true)
  /\ snd (mirror_dirs (H := demo_runtime) (fun _ => Some PermissionError)
            "/data/1D" ∅ ["s1"; "s2"])
     = ([], Raised PermissionError).
Proof.
  split; [| reflexivity].
  intros R mkdir_error oneDdir dirs dirstoint r. subst r. split.
  - apply mirror_dirs_never_exits.
  - apply mirror_dirs_prints.
Qed.

(** ** C3: unrecognized values of the three enumerations *)

Lemma lower_char_idem c : lower_char (lower_char c) = lower_char c.
Proof.
  destruct c as [[] [] [] [] [] [] [] []]; reflexivity.
Qed.

Lemma lower_idem s : lower (lower s) = lower s.
Proof.
  induction s as [|c s IH]; [reflexivity |].
  cbn [lower]. now rewrite lower_char_idem, IH.
Qed.

Lemma unrecognized_not_in accepted x :
  unrecognized accepted x = true ->
  in_list x accepted = false /\ in_list (lower x) accepted = false.
Proof.
  unfold unrecognized. intros Hu. apply negb_true_iff in Hu.
  split; apply not_true_is_false; intros Hin; apply in_list_In in Hin;
    apply (List.in_map lower) in Hin; rewrite ?lower_idem in Hin;
    apply in_list_In in Hin; congruence.
Qed.

(** C3 fails where a file is loaded.  For a split method or a unit that is
    accepted in no casing (and is neither shorthand of the unit), lines
    885-896 print that the value is not accepted and keep it, where the same
    test of the guided path (lines 258-262 and 274-278) assigns the default:
    the file written for the split method [Fulll] and the unit [degrees] is
    loaded with these two values.  Only the error model falls back to its
    default in both paths. *)
Theorem unrecognized_enum_kept_on_load :
  (forall raw, raw <> EmptyString -> unrecognized intmethod_accepted raw = true ->
     load_intmethod raw = ([IntMethodNotAccepted], Done raw)
     /\ guided_intmethod raw = ([IntMethodNotAccepted], Done "full"))
  /\ (forall raw, raw <> EmptyString -> unrecognized xunit_accepted raw = true ->
      lower raw <> "tth" -> lower raw <> "q" ->
      load_xunit raw = ([XUnitNotAccepted], Done raw)
      /\ guided_xunit raw = ([XUnitNotAccepted], Done "2th_deg"))
  /\ (forall raw, raw <> EmptyString -> unrecognized errormodel_accepted raw = true ->
      check_errormodel raw = ([ErrorModelNoMatch], Done "None"))
  /\ unrecognized intmethod_accepted "Fulll" = true
  /\ unrecognized xunit_accepted "degrees" = true
  /\ load (readlines (int_text demo_date demo_config_unrecognized))
     = ([IntMethodNotAccepted; XUnitNotAccepted; ErrorModelAccepted "none"],
        Done (demo_config_unrecognized, ".tif")).
Proof.
  split; [| split; [| split; [| split; [| split]]]]; try reflexivity.
  - intros raw Hne Hu.
    assert (He : is_empty raw = false) by (destruct raw; [contradiction | reflexivity]).
    apply unrecognized_not_in in Hu as [H1 H2].
    unfold load_intmethod, guided_intmethod. now rewrite He, H1, H2.
  - intros raw Hne Hu Ht Hq.
    assert (He : is_empty raw = false) by (destruct raw; [contradiction | reflexivity]).
    apply unrecognized_not_in in Hu as [H1 H2].
    apply String.eqb_neq in Ht, Hq.
    unfold load_xunit, guided_xunit. now rewrite He, Ht, Hq, H1, H2.
  - intros raw Hne Hu.
    assert (He : is_empty raw = false) by (destruct raw; [contradiction | reflexivity]).
    apply unrecognized_not_in in Hu as [H1 H2].
    unfold check_errormodel. now rewrite He, H1, H2.
Qed.

(** ** C2: a mask file that is not there *)

Lemma check_mask_missing `{Runtime} p :
  isfile p = false -> check_mask p = ([MaskMissing], Raised AttributeError).
Proof. intros Hf. unfold check_mask. now rewrite Hf. Qed.

Lemma check_mask_valid `{Runtime} m :
  isfile m = true ->
  List.existsb (fun ext => endswith ext m) maskfext_accepted = true ->
  check_mask m = ([], Done (Some m)).
Proof.
  intros Hf Hx. unfold check_mask. rewrite Hf. cbn -[List.existsb].
  now rewrite Hx.
Qed.

Lemma check_mask_bad_type `{Runtime} p :
  isfile p = true ->
  List.existsb (fun ext => endswith ext p) maskfext_accepted = false ->
  check_mask p = ([MaskBadType], Done None).
Proof.
  intros Hf Hx. unfold check_mask. rewrite Hf. cbn -[List.existsb].
  now rewrite Hx.
Qed.

(** C2 fails for a mask file that does not exist.  For every path the
    check does one of three things: it keeps an existing file of an accepted
    type; it drops an existing file of another type with a message, as C2
    says; and for a file that does not exist it prints its message, sets
    [fullmaskf] to [None], and raises [AttributeError] in the second test.
    So the file written for a configuration whose mask file is gone is not
    loaded, nor is the one written for a configuration without a mask, which
    reads [Mask file: None]. *)
Theorem missing_mask_raises :
  (forall (R : Runtime) p,
     check_mask p
     = if isfile p
       then if List.existsb (fun ext => endswith ext p) maskfext_accepted
            then ([], Done (Some p))
            else ([MaskBadType], Done None)
       else ([MaskMissing], Raised AttributeError))
  /\ load (readlines (int_text demo_date demo_config_absent_mask))
     = ([MaskMissing], Raised AttributeError)
  /\ load (readlines (int_text demo_date demo_config_no_mask))
     = ([MaskMissing], Raised AttributeError).
Proof.
  split; [| split; vm_compute; reflexivity].
  intros R p. destruct (isfile p) eqn:Hf.
  - destruct (List.existsb _ maskfext_accepted) eqn:Hx.
    + now apply check_mask_valid.
    + now apply check_mask_bad_type.
  - now apply check_mask_missing.
Qed.

(** ** C5: keys that cannot be found *)

Lemma check_keywords_reports d :
  missing_keys d <> [] ->
  check_keywords d
  = ((KeywordsNotFound :: List.map MissingKey (missing_keys d)) ++ [Quit], Exit)%list.
Proof.
  intros Hm. unfold check_keywords.
  assert (Hex : List.existsb (fun p => is_na (snd p)) d = true).
  { unfold missing_keys in Hm.
    induction d as [|[k v] d IH]; [contradiction |].
    simpl in *. destruct (is_na v); [reflexivity |]. apply IH, Hm. }
  rewrite Hex. clear Hex Hm.
  induction (missing_keys d) as [|k l IH]; [reflexivity |].
  cbn [List.fold_right List.map].
  unfold mbind, run_bind, print, sys_exit in *. cbn in *.
  destruct (List.fold_right _ _ l) as [out r].
  destruct r; cbn in *; congruence.
Qed.

(** C5 fails for an empty file: every key is missing, the loop that would
    mark the keys as not found has no line to run on, and the program is left
    by a [TypeError] at line 800 without the list of missing keys.  It also
    fails for a file whose first line is the start banner: line number 0
    counts as no banner, the whole file is searched, the [X unit] line among
    the notes is accepted - within the block the key is not found - and a
    configuration is produced. *)
Theorem empty_file_not_reported :
  (forall R : Runtime,
     load [] = ([NoSectionHeader; NoSectionFooter], Raised TypeError)
     /\ locate_keywords [] = ([NoSectionHeader; NoSectionFooter],
                              Done (List.map (fun k => (k, KNone)) keywords)))
  /\ find_banners demo_banner_first = Banners (Some 0) true (Some 11) true
  /\ scan_bounded k_xunit 0 11 0 demo_banner_first = KNA
  /\ outcome (locate_keywords demo_banner_first)
     = Done (List.combine keywords
              (List.map KLine [1; 2; 3; 4; 5; 12; 6; 7; 8; 9; 10]%nat))
  /\ outcome (load (H := demo_runtime) demo_banner_first)
     = Done (Config demo_runtime "APS" "/data/1D" "/data/calib/geometry.poni"
               (Some "/data/calib/mask.edf") "full" "r_mm" 6000 PNone PNone
               PNone "none", ".tif").
Proof. repeat split; vm_compute; reflexivity. Qed.

(** ** More lemmas on text: [split], [strip] *)

Lemma forallb_app p a b : forallb p (a ++ b) = forallb p a && forallb p b.
Proof.
  induction a as [|c a IH]; [reflexivity |].
  rewrite append_cons. cbn [forallb]. rewrite IH. now rewrite andb_assoc.
Qed.

Lemma free_of_app p a b : free_of p (a ++ b) = free_of p a && free_of p b.
Proof. apply forallb_app. Qed.

Lemma startswith_app p s : startswith p (p ++ s) = true.
Proof.
  induction p as [|c p IH]; [reflexivity |].
  rewrite append_cons. cbn [startswith]. now rewrite Ascii.eqb_refl, IH.
Qed.

Lemma split_go_nonempty sep s : forall n, split_go sep n s <> [].
Proof.
  induction s as [|c s IH]; intros n; [discriminate |].
  cbn [split_go]. destruct n; [| apply IH].
  destruct (startswith sep (String c s)); [discriminate |].
  destruct (split_go sep 0 s); discriminate.
Qed.

Lemma split_go_skip sep a s : split_go sep (String.length a) (a ++ s) = split_go sep 0 s.
Proof.
  induction a as [|c a IH]; [reflexivity |].
  rewrite append_cons. cbn [String.length split_go]. exact IH.
Qed.

(** A text that starts with the separator. *)
Lemma split_at_sep c sep s :
  split (String c sep) (String c sep ++ s) = EmptyString :: split (String c sep) s.
Proof.
  unfold split. rewrite append_cons. cbn [split_go].
  change (String c (sep ++ s)) with (String c sep ++ s).
  rewrite startswith_app. f_equal.
  replace (String.length (String c sep) - 1) with (String.length sep)
    by (cbn [String.length]; lia).
  apply split_go_skip.
Qed.

(** A text in which the separator does not occur. *)
Lemma split_absent sep s : contains sep s = false -> split sep s = [s].
Proof.
  unfold split. induction s as [|c s IH]; intros Hc; [reflexivity |].
  cbn [contains] in Hc. apply orb_false_iff in Hc as [Hs Hc].
  cbn [split_go]. rewrite Hs, (IH Hc). reflexivity.
Qed.

(** Splitting at one character: the first piece ends at its first
    occurrence. *)
Lemma split_char_cons c k s :
  free_of (is_char c) k = true ->
  split (String c EmptyString) (k ++ String c s) = k :: split (String c EmptyString) s.
Proof.
  unfold split. induction k as [|a k IH]; intros Hk.
  - rewrite append_nil_l. cbn [split_go startswith]. now rewrite Ascii.eqb_refl.
  - cbn [free_of forallb] in Hk. apply andb_true_iff in Hk as [Ha Hk].
    rewrite append_cons. cbn [split_go startswith].
    unfold is_char in Ha. apply negb_true_iff in Ha.
    rewrite Ascii.eqb_sym, Ha. cbn [andb].
    fold (free_of (is_char c) k) in Hk. now rewrite (IH Hk).
Qed.

Lemma split_char_hd c s :
  List.hd EmptyString (split (String c EmptyString) s) = take_until c s.
Proof.
  unfold split. induction s as [|a s IH]; [reflexivity |].
  cbn [split_go startswith take_until]. rewrite Ascii.eqb_sym.
  destruct (Ascii.eqb a c); cbn [andb]; [reflexivity |].
  pose proof (split_go_nonempty (String c EmptyString) s 0) as Hne.
  destruct (split_go (String c EmptyString) 0 s) as [|h t]; [contradiction |].
  cbn [List.hd] in *. now rewrite IH.
Qed.

Lemma take_until_absent c s : contains (String c EmptyString) s = false -> take_until c s = s.
Proof.
  induction s as [|a s IH]; intros Hc; [reflexivity |].
  cbn [contains startswith] in Hc. apply orb_false_iff in Hc as [Ha Hc].
  cbn [take_until]. rewrite Ascii.eqb_sym.
  destruct (Ascii.eqb c a); [discriminate |]. now rewrite (IH Hc).
Qed.

(** Removing the comment is cutting at the first [#]. *)
Lemma uncomment_take_until s : uncomment s = strip (take_until "#" s).
Proof.
  unfold uncomment. destruct (contains "#" s) eqn:Hc.
  - now rewrite split_char_hd.
  - now rewrite take_until_absent.
Qed.

Lemma rstrip_by_all p w : forallb p w = true -> rstrip_by p w = EmptyString.
Proof.
  induction w as [|c w IH]; intros Hw; [reflexivity |].
  cbn [forallb] in Hw. apply andb_true_iff in Hw as [Hc Hw].
  cbn [rstrip_by]. now rewrite (IH Hw), Hc.
Qed.

Lemma rstrip_by_app p a w :
  free_of p a = true -> forallb p w = true -> rstrip_by p (a ++ w) = a.
Proof.
  induction a as [|c a IH]; intros Ha Hw.
  - now apply rstrip_by_all.
  - cbn [free_of forallb] in Ha. apply andb_true_iff in Ha as [Hc Ha].
    rewrite append_cons. cbn [rstrip_by]. rewrite (IH Ha Hw).
    apply negb_true_iff in Hc. rewrite Hc. now rewrite andb_false_r.
Qed.

Lemma lstrip_by_free p a : free_of p a = true -> lstrip_by p a = a.
Proof.
  destruct a as [|c a]; [reflexivity |]. cbn [free_of forallb lstrip_by].
  intros Ha. apply andb_true_iff in Ha as [Hc _].
  apply negb_true_iff in Hc. now rewrite Hc.
Qed.

(** [line.strip(newline)] on a line with its end of line. *)
Lemma strip_eol a eol :
  free_of (char_in nl) a = true -> forallb (char_in nl) eol = true ->
  strip_chars nl (a ++ eol) = a.
Proof.
  intros Ha He. unfold strip_chars, strip_by.
  rewrite rstrip_by_app by assumption. now apply lstrip_by_free.
Qed.

Lemma second_cons (x y : string) l : second (x :: y :: l) = mret y.
Proof. reflexivity. Qed.

(** ** C6: the value on a line *)

(** A line that starts with a key that is split at the key itself. *)
Lemma value_after_key_line k v eol :
  k <> EmptyString ->
  free_of (char_in nl) (k ++ ":" ++ v) = true ->
  forallb (char_in nl) eol = true ->
  contains (k ++ ":") v = false ->
  value_after_key k (k ++ ":" ++ v ++ eol) = ([], Done (strip (take_until "#" v))).
Proof.
  intros Hk Hfree Heol Habs. unfold value_after_key.
  replace (k ++ ":" ++ v ++ eol) with ((k ++ ":" ++ v) ++ eol)
    by now rewrite !append_assoc.
  rewrite strip_eol by assumption.
  destruct k as [|c k]; [contradiction |].
  replace (String c k ++ ":" ++ v) with (String c (k ++ ":") ++ v)
    by now rewrite !append_cons, append_assoc.
  change (String c k ++ ":") with (String c (k ++ ":")) in *.
  rewrite split_at_sep, (split_absent _ _ Habs), second_cons.
  cbn. now rewrite uncomment_take_until.
Qed.

(** A line that starts with a key that is split at the colons. *)
Lemma value_after_colon_line k v eol :
  free_of (is_char ":") k = true ->
  free_of (char_in nl) (k ++ ":" ++ v) = true ->
  forallb (char_in nl) eol = true ->
  value_after_colon (k ++ ":" ++ v ++ eol)
  = ([], Done (strip (take_until "#" (take_until ":" v)))).
Proof.
  intros Hk Hfree Heol. unfold value_after_colon.
  replace (k ++ ":" ++ v ++ eol) with ((k ++ ":" ++ v) ++ eol)
    by now rewrite !append_assoc.
  rewrite strip_eol by assumption.
  change (":" ++ v) with (String ":" v).
  rewrite split_char_cons by assumption.
  pose proof (split_char_hd ":" v) as Hhd.
  pose proof (split_go_nonempty ":" v 0) as Hne.
  unfold split in *.
  destruct (split_go ":" 0 v) as [|h t]; [contradiction |].
  cbn [List.hd] in Hhd. subst h. rewrite second_cons.
  cbn. now rewrite uncomment_take_until.
Qed.

(** Case analysis on a key taken from a list of keys. *)
Ltac each_key H :=
  cbn in H; repeat (destruct H as [<- | H]); try contradiction.

(** C6, as the source has it: on a line made of a key, a colon, the text
    [v] and the end of the line, the three keys of paths (output directory,
    geometry file, mask file) are split at the literal [Key:], so that the
    value is all of [v], colons included, as long as [Key:] does not occur
    in [v] again; the other eight keys are split at every colon, so that the
    value is [v] up to its first colon.  In both cases the text from the
    first [#] on is dropped and then the whitespace around the rest. *)
Theorem value_extraction k v eol :
  In k keywords ->
  free_of (char_in nl) v = true ->
  In eol [EmptyString; nl] ->
  (In k path_keywords -> contains (k ++ ":") v = false ->
     line_value k (k ++ ":" ++ v ++ eol) = ([], Done (strip (take_until "#" v))))
  /\ (~ In k path_keywords ->
      line_value k (k ++ ":" ++ v ++ eol)
      = ([], Done (strip (take_until "#" (take_until ":" v))))).
Proof.
  intros Hk Hv Heol.
  assert (He : forallb (char_in nl) eol = true)
    by (destruct Heol as [<- | [<- | []]]; reflexivity).
  assert (Hfree : free_of (char_in nl) (k ++ ":" ++ v) = true).
  { rewrite !free_of_app, Hv, andb_true_r.
    each_key Hk; reflexivity. }
  split.
  - intros Hp Habs. unfold line_value.
    apply in_list_In in Hp as Hp'. rewrite Hp'.
    apply value_after_key_line; try assumption.
    each_key Hp; discriminate.
  - intros Hp. unfold line_value.
    destruct (in_list k path_keywords) eqn:E;
      [apply in_list_In in E; contradiction |].
    apply value_after_colon_line; try assumption.
    each_key Hk; try reflexivity; exfalso; apply Hp; cbn; tauto.
Qed.

Lemma value_extraction_witness :
  line_value k_ponif ("Poni file: C:\calib\geometry.poni  # from May" ++ nl)
  = ([], Done "C:\calib\geometry.poni")
  /\ line_value k_neg_mask ("Automask pixel value: -1e-10 # default" ++ nl)
     = ([], Done "-1e-10")
  /\ line_value k_xunit ("X unit: q:A" ++ nl) = ([], Done "q").
Proof.
  split; [| split].
  - apply (value_extraction k_ponif " C:\calib\geometry.poni  # from May" nl);
      [cbn; tauto | reflexivity | cbn; tauto | cbn; tauto | reflexivity].
  - apply (value_extraction k_neg_mask " -1e-10 # default" nl);
      [cbn; tauto | reflexivity | cbn; tauto |].
    cbn. intros [E | [E | [E | []]]]; discriminate E.
  - apply (value_extraction k_xunit " q:A" nl);
      [cbn; tauto | reflexivity | cbn; tauto |].
    cbn. intros [E | [E | [E | []]]]; discriminate E.
Defined.

(** C6 as worded fails for the keys that are not paths: the value [q:A] of
    the unit is read as [q]. *)
Lemma colon_value_is_cut :
  spec_value k_xunit ("X unit: q:A" ++ nl) = Some "q:A"
  /\ line_value k_xunit ("X unit: q:A" ++ nl) = ([], Done "q")
  /\ line_value k_xunit ("X unit: q:A" ++ nl) <> ([], Done "q:A").
Proof. repeat split; try reflexivity. discriminate. Qed.

(** ** C1: writing a configuration and loading it again *)

Lemma readlines_app_free s t :
  unbroken s = true ->
  readlines (s ++ t)
  = match readlines t with
    | [] => if is_empty s then [] else [s]
    | h :: r => (s ++ h) :: r
    end.
Proof.
  unfold unbroken. intros Hs. apply andb_true_iff in Hs as [Hn Hr].
  induction s as [|c s IH].
  - rewrite append_nil_l. now destruct (readlines t).
  - cbn [free_of forallb] in Hn, Hr.
    apply andb_true_iff in Hn as [Hc Hn]. apply andb_true_iff in Hr as [Hd Hr].
    rewrite append_cons. cbn [readlines].
    unfold is_char, newline, carriage_return in Hc, Hd.
    apply negb_true_iff in Hc, Hd. rewrite Hc, Hd.
    rewrite (IH Hn Hr). destruct (readlines t) as [|h r]; [| reflexivity].
    now destruct s.
Qed.

Lemma readlines_segments l :
  List.Forall (fun g => match g with
                        | Txt s => unbroken s = true
                        | NL => True
                        end) l ->
  readlines (seg_text l) = seg_lines l.
Proof.
  induction 1 as [|g l Hg _ IH]; [reflexivity |].
  destruct g as [s|]; cbn [seg_text seg_lines].
  - now rewrite readlines_app_free, IH.
  - unfold nl at 1. rewrite append_cons, append_nil_l. cbn [readlines].
    unfold chr. rewrite Ascii.eqb_refl. now rewrite IH.
Qed.

Lemma int_text_segments `{Runtime} dt (c : config) :
  int_text dt c = seg_text (segments dt c).
Proof.
  unfold int_text, int_file_writes, segments.
  cbn [String.concat List.app seg_text].
  unfold GI_statement, desc_statement, int_setup_statement, intprm_statement,
    usernotes_statement.
  rewrite ?append_nil_l, ?append_nil_r, !append_assoc.
  reflexivity.
Qed.

Lemma segments_lines `{Runtime} dt (c : config) :
  seg_lines (segments dt c) = (header dt ++ body c)%list.
Proof. reflexivity. Qed.

(** *** Occurrences of a text in a concatenation *)

Lemma startswith_app_apart pat s b :
  startswith s pat && (String.length s <? String.length pat)%nat = false ->
  startswith pat (s ++ b) = startswith pat s.
Proof.
  revert s. induction pat as [|p pat IH]; intros s Hs; [reflexivity |].
  destruct s as [|c s].
  - discriminate Hs.
  - rewrite append_cons. cbn [startswith String.length] in *.
    rewrite (Ascii.eqb_sym p c).
    destruct (Ascii.eqb c p); [| reflexivity]. cbn [andb] in *.
    apply IH. exact Hs.
Qed.

(** No occurrence of [pat] lies across the end of [a]. *)
Lemma contains_app_apart pat a b :
  overlap pat a = false ->
  contains pat (a ++ b) = contains pat a || contains pat b.
Proof.
  induction a as [|c a IH]; intros Ho.
  - rewrite append_nil_l. cbn [contains].
    destruct pat; [now destruct b | reflexivity].
  - cbn [overlap] in Ho. apply orb_false_iff in Ho as [Hs Ho].
    rewrite append_cons. cbn [contains].
    change (String c (a ++ b)) with (String c a ++ b).
    rewrite (startswith_app_apart _ _ _ Hs), (IH Ho).
    now rewrite orb_assoc.
Qed.

(** No occurrence of [pat] starts in a text without its first character. *)
Lemma contains_skip p pat a b :
  free_of (is_char p) a = true ->
  contains (String p pat) (a ++ b) = contains (String p pat) b.
Proof.
  induction a as [|c a IH]; intros Ha; [reflexivity |].
  cbn [free_of forallb] in Ha. apply andb_true_iff in Ha as [Hc Ha].
  rewrite append_cons. cbn [contains startswith].
  unfold is_char in Hc. apply negb_true_iff in Hc.
  rewrite Ascii.eqb_sym, Hc. cbn [andb orb]. apply IH, Ha.
Qed.

Lemma contains_first_char p pat a :
  free_of (is_char p) a = true -> contains (String p pat) a = false.
Proof.
  intros Ha. rewrite <- (append_nil_r a), (contains_skip _ _ _ _ Ha).
  reflexivity.
Qed.

Lemma startswith_eol pat s :
  free_of (is_char newline) pat = true ->
  startswith pat (s ++ nl) = startswith pat s.
Proof.
  revert s. induction pat as [|p pat IH]; intros s Hp; [reflexivity |].
  cbn [free_of forallb] in Hp. apply andb_true_iff in Hp as [Hc Hp].
  destruct s as [|c s].
  - rewrite append_nil_l. unfold nl. cbn [startswith].
    unfold is_char, newline in Hc. apply negb_true_iff in Hc. now rewrite Hc.
  - rewrite append_cons. cbn [startswith]. now rewrite (IH s Hp).
Qed.

(** The end of the line adds no occurrence. *)
Lemma contains_eol pat s :
  is_empty pat = false -> free_of (is_char newline) pat = true ->
  contains pat (s ++ nl) = contains pat s.
Proof.
  intros He Hp. induction s as [|c s IH].
  - rewrite append_nil_l. destruct pat as [|p pat]; [discriminate |].
    cbn [free_of forallb] in Hp. apply andb_true_iff in Hp as [Hc _].
    unfold nl. cbn [contains startswith].
    unfold is_char, newline in Hc. apply negb_true_iff in Hc. now rewrite Hc.
  - rewrite append_cons. cbn [contains].
    change (String c (s ++ nl)) with (String c s ++ nl).
    now rewrite startswith_eol, IH.
Qed.

Lemma contains_startswith pat s : startswith pat s = true -> contains pat s = true.
Proof. intros Hs. destruct s; cbn [contains]; now rewrite Hs. Qed.

(** On a line [k: v] a text that is apart from [k: ] occurs only if it
    occurs in [v]. *)
Lemma contains_kv_line pat k v :
  apart pat k = true -> contains pat (kv_line k v) = contains pat v.
Proof.
  unfold apart, kv_line. intros Ha.
  apply andb_true_iff in Ha as [Ha Hc]. apply andb_true_iff in Ha as [Ha Ho].
  apply andb_true_iff in Ha as [He Hn].
  apply negb_true_iff in He, Ho, Hc.
  rewrite <- append_assoc, (contains_app_apart _ _ _ Ho), Hc.
  cbn [orb]. now apply contains_eol.
Qed.

Lemma contains_own_line k v : contains k (kv_line k v) = true.
Proof. apply contains_startswith, startswith_app. Qed.

Lemma clean_reserved v pat :
  clean v = true -> In pat reserved -> contains pat v = false.
Proof.
  unfold clean. intros Hc Hp. apply andb_true_iff in Hc as [_ Hc].
  rewrite List.forallb_forall in Hc. apply negb_true_iff, Hc, Hp.
Qed.

(** *** Character classes of printed numbers and dates *)

Lemma forallb_impl (p q : ascii -> bool) s :
  (forall c, p c = true -> q c = true) -> forallb p s = true -> forallb q s = true.
Proof.
  intros Hpq. induction s as [|c s IH]; [reflexivity |].
  cbn [forallb]. intros Hs. apply andb_true_iff in Hs as [Hc Hs].
  now rewrite (Hpq c Hc), (IH Hs).
Qed.

Lemma uint_digits d : forallb is_ascii_digit (NilEmpty.string_of_uint d) = true.
Proof. induction d; cbn [NilEmpty.string_of_uint forallb]; try rewrite IHd; reflexivity. Qed.

Lemma str_nat_digits n : forallb is_ascii_digit (str_nat n) = true.
Proof. apply uint_digits. Qed.

Lemma pad2_digits n : forallb is_ascii_digit (pad2 n) = true.
Proof.
  unfold pad2. destruct (n <? 10)%nat; [| apply str_nat_digits].
  change ("0" ++ str_nat n) with (String "0" (str_nat n)).
  cbn [forallb]. now rewrite str_nat_digits.
Qed.

Lemma str_int_chars z : forallb int_char (str_int z) = true.
Proof.
  unfold str_int. destruct (Z.to_int z) as [d | d]; cbn [NilEmpty.string_of_int].
  - apply (forallb_impl is_ascii_digit); [| apply uint_digits].
    intros c Hc. unfold int_char. now rewrite Hc.
  - cbn [forallb]. apply andb_true_iff. split; [reflexivity |].
    apply (forallb_impl is_ascii_digit); [| apply uint_digits].
    intros c Hc. unfold int_char. now rewrite Hc.
Qed.

Lemma digit_date_char c : is_ascii_digit c = true -> date_char c = true.
Proof. intros Hc. unfold date_char. now rewrite Hc. Qed.

Lemma datestr_chars dt : forallb date_char (datestr dt) = true.
Proof.
  unfold datestr. rewrite !forallb_app.
  rewrite (forallb_impl _ _ _ digit_date_char (pad2_digits _)).
  rewrite (forallb_impl _ _ _ digit_date_char (str_nat_digits _)).
  now destruct (dt_month dt).
Qed.

Lemma timestr_chars dt : forallb date_char (timestr dt) = true.
Proof.
  unfold timestr. rewrite !forallb_app.
  now rewrite !(forallb_impl _ _ _ digit_date_char (pad2_digits _)).
Qed.

Lemma yearstr_chars dt : forallb date_char (yearstr dt) = true.
Proof. apply (forallb_impl _ _ _ digit_date_char), str_nat_digits. Qed.

(** A character class that excludes [x]. *)
Lemma class_free (p : ascii -> bool) x s :
  p x = false -> forallb p s = true -> free_of (is_char x) s = true.
Proof.
  intros Hx. apply forallb_impl. intros c Hc. unfold is_char.
  destruct (Ascii.eqb c x) eqn:E; [| reflexivity].
  apply Ascii.eqb_eq in E. congruence.
Qed.

(** A property of every character, checked on the 256 of them. *)
Ltac every_char :=
  let c := fresh "c" in
  intros c; destruct c as [[] [] [] [] [] [] [] []]; vm_compute; congruence.

Lemma int_char_plain c : int_char c = true -> plain_char c = true.
Proof. revert c. every_char. Qed.

Lemma plain_not_space c : plain_char c = true -> negb (is_space c) = true.
Proof. revert c. every_char. Qed.

Lemma plain_not_eol_hash c :
  plain_char c = true -> negb (char_in (nl ++ "#") c) = true.
Proof. revert c. every_char. Qed.

Lemma plain_not_newline c : plain_char c = true -> negb (is_char newline c) = true.
Proof. revert c. every_char. Qed.

Lemma plain_not_colon c : plain_char c = true -> negb (is_char ":" c) = true.
Proof. revert c. every_char. Qed.

Lemma eol_hash_not_newline c :
  negb (char_in (nl ++ "#") c) = true -> negb (is_char newline c) = true.
Proof. revert c. every_char. Qed.

Lemma eol_hash_not_hash c :
  negb (char_in (nl ++ "#") c) = true -> negb (is_char "#" c) = true.
Proof. revert c. every_char. Qed.

Lemma newline_is_eol c : negb (is_char newline c) = true -> negb (char_in nl c) = true.
Proof. revert c. every_char. Qed.

Lemma rstrip_by_free p v : free_of p v = true -> rstrip_by p v = v.
Proof.
  intros Hv. rewrite <- (append_nil_r v) at 1. now apply rstrip_by_app.
Qed.

Lemma forallb_first p v : forallb p v = true -> forallb p (String.substring 0 1 v) = true.
Proof.
  destruct v as [|c v]; [reflexivity |]. cbn [forallb String.substring].
  intros Hv. apply andb_true_iff in Hv as [Hc _].
  now rewrite Hc, substring_0_0.
Qed.

Lemma plain_first_char v p pat :
  forallb plain_char v = true -> plain_char p = false ->
  contains (String p pat) v = false.
Proof.
  intros Hv Hp. apply contains_first_char. now apply (class_free plain_char).
Qed.

(** Text made of plain characters is a clean value without a colon. *)
Lemma plain_clean v :
  forallb plain_char v = true -> clean v = true /\ colon_free v = true.
Proof.
  intros Hv. split.
  - unfold clean.
    apply andb_true_iff; split;
      [apply andb_true_iff; split; [apply andb_true_iff; split |] |].
    + exact (forallb_impl _ _ _ plain_not_eol_hash Hv).
    + apply forallb_first. exact (forallb_impl _ _ _ plain_not_space Hv).
    + rewrite rstrip_by_free; [apply String.eqb_refl |].
      exact (forallb_impl _ _ _ plain_not_space Hv).
    + unfold reserved, keywords. cbn [List.forallb].
      repeat (apply andb_true_iff; split); try reflexivity;
        apply negb_true_iff; apply plain_first_char; (assumption || reflexivity).
  - exact (forallb_impl _ _ _ plain_not_colon Hv).
Qed.

Lemma str_int_clean z : clean (str_int z) = true /\ colon_free (str_int z) = true.
Proof.
  apply plain_clean, (forallb_impl _ _ _ int_char_plain), str_int_chars.
Qed.

(** *** [int(str(n))] *)

Lemma int_digits_uint d : forall acc b,
  d <> Decimal.Nil \/ b = true ->
  int_digits acc b (NilEmpty.string_of_uint d) = Some (uint_value acc d).
Proof.
  induction d; intros acc b Hd;
    try (cbn [NilEmpty.string_of_uint int_digits uint_value];
         change (is_ascii_digit _) with true; cbv iota;
         rewrite IHd by (now right); reflexivity).
  destruct Hd as [Hd | ->]; [contradiction | reflexivity].
Qed.

Lemma uint_value_pos d : forall p,
  uint_value (Zpos p) d = Zpos (Pos.of_uint_acc d p).
Proof.
  induction d; intros p; cbn [uint_value Pos.of_uint_acc];
    try reflexivity; rewrite <- IHd; f_equal; lia.
Qed.

Lemma uint_value_0 d : uint_value 0 d = Z.of_N (Pos.of_uint d).
Proof.
  induction d; cbn [uint_value Pos.of_uint]; try reflexivity;
    try (change (10 * 0 + 0)%Z with 0%Z; exact IHd);
    cbn [Z.mul Z.add Z.of_N]; apply uint_value_pos.
Qed.

Lemma uint_value_to_uint p : uint_value 0 (Pos.to_uint p) = Zpos p.
Proof. now rewrite uint_value_0, DecimalPos.Unsigned.of_to. Qed.

Lemma unsigned_digits (d : Decimal.uint) (neg pos : string -> option Z) :
  d <> Decimal.Nil ->
  match NilEmpty.string_of_uint d with
  | String "-" r => neg r
  | String "+" r => pos r
  | t => int_digits 0 false t
  end = Some (uint_value 0 d).
Proof.
  intros Hd. rewrite <- (int_digits_uint d 0 false) by now left.
  destruct d; [contradiction | reflexivity ..].
Qed.

Lemma int_char_not_int_space c : int_char c = true -> negb (is_int_space c) = true.
Proof. revert c. every_char. Qed.

Lemma py_int_str_int z : py_int (str_int z) = Some z.
Proof.
  unfold py_int, strip_by.
  pose proof (str_int_chars z) as Hc.
  assert (Hs : free_of is_int_space (str_int z) = true)
    by exact (forallb_impl _ _ _ int_char_not_int_space Hc).
  rewrite (rstrip_by_free _ _ Hs), (lstrip_by_free _ _ Hs).
  unfold str_int. destruct z as [|p|p]; cbn [Z.to_int NilEmpty.string_of_int].
  - reflexivity.
  - rewrite unsigned_digits by apply Unsigned.to_uint_nonnil.
    now rewrite uint_value_to_uint.
  - rewrite int_digits_uint by (left; apply Unsigned.to_uint_nonnil).
    now rewrite uint_value_to_uint.
Qed.

(** *** The value on a written line *)

Lemma take_until_free c s : free_of (is_char c) s = true -> take_until c s = s.
Proof.
  induction s as [|a s IH]; [reflexivity |]. cbn [free_of forallb take_until].
  intros Hs. apply andb_true_iff in Hs as [Ha Hs].
  unfold is_char in Ha. apply negb_true_iff in Ha. now rewrite Ha, (IH Hs).
Qed.

Lemma clean_parts v :
  clean v = true ->
  free_of (is_char newline) v = true
  /\ free_of (is_char "#") v = true
  /\ strip (String " " v) = v.
Proof.
  unfold clean. intros Hc.
  apply andb_true_iff in Hc as [Hc _]. apply andb_true_iff in Hc as [Hc Hr].
  apply andb_true_iff in Hc as [Hf Hl]. apply String.eqb_eq in Hr.
  repeat split.
  - exact (forallb_impl _ _ _ eol_hash_not_newline Hf).
  - exact (forallb_impl _ _ _ eol_hash_not_hash Hf).
  - unfold strip, strip_by. cbn [rstrip_by]. rewrite Hr.
    destruct v as [|c v]; [reflexivity |].
    cbn [is_empty andb lstrip_by]. change (is_space " ") with true. cbv iota.
    cbn [String.substring free_of forallb] in Hl.
    apply andb_true_iff in Hl as [Hl _]. apply negb_true_iff in Hl.
    now rewrite Hl.
Qed.

Lemma contains_longer a b s : contains (a ++ b) s = true -> contains a s = true.
Proof.
  assert (Hs : forall t, startswith (a ++ b) t = true -> startswith a t = true).
  { induction a as [|c a IH]; intros t Ht; [reflexivity |].
    rewrite append_cons in Ht. destruct t as [|d t]; [discriminate |].
    cbn [startswith] in *. apply andb_true_iff in Ht as [-> Ht].
    now rewrite (IH _ Ht). }
  induction s as [|c s IH]; cbn [contains]; intros Hc.
  - apply orb_true_iff in Hc as [Hc | Hc]; [| discriminate].
    now rewrite (Hs _ Hc).
  - apply orb_true_iff in Hc as [Hc | Hc].
    + now rewrite (Hs _ Hc).
    + rewrite (IH Hc). apply orb_true_r.
Qed.

(** A clean value is read back from its line; for the keys that are not
    paths it must also be free of colons. *)
Lemma line_value_kv k v :
  In k keywords -> clean v = true ->
  (In k path_keywords \/ colon_free v = true) ->
  line_value k (kv_line k v) = ([], Done v).
Proof.
  intros Hk Hc Hcol.
  destruct (clean_parts v Hc) as (Hnl & Hhash & Hstrip).
  assert (Hfree : free_of (char_in nl) (k ++ ":" ++ String " " v) = true).
  { rewrite !free_of_app. cbn [free_of forallb].
    rewrite (forallb_impl _ _ _ newline_is_eol Hnl).
    each_key Hk; reflexivity. }
  assert (Heol : forallb (char_in nl) nl = true) by reflexivity.
  unfold kv_line. change (": " ++ v ++ nl) with (":" ++ String " " v ++ nl).
  assert (Hcut : take_until "#" (String " " v) = String " " v).
  { apply take_until_free. cbn [free_of forallb]. apply andb_true_iff.
    split; [reflexivity | exact Hhash]. }
  unfold line_value. destruct (in_list k path_keywords) eqn:E.
  - apply in_list_In in E. rewrite value_after_key_line; try assumption.
    + now rewrite Hcut, Hstrip.
    + each_key E; discriminate.
    + apply not_true_is_false. intros Hoc. apply contains_longer in Hoc.
      cbn [contains] in Hoc.
      assert (Hr : contains k v = false)
        by (apply (clean_reserved v k Hc); right; exact Hk).
      rewrite Hr, orb_false_r in Hoc.
      each_key Hk; discriminate Hoc.
  - assert (Hnp : ~ In k path_keywords).
    { intros Hp. apply in_list_In in Hp. congruence. }
    destruct Hcol as [Hp | Hcol]; [contradiction |].
    rewrite value_after_colon_line; try assumption.
    + rewrite (take_until_free ":" (String " " v)).
      * now rewrite Hcut, Hstrip.
      * cbn [free_of forallb]. apply andb_true_iff. split; [reflexivity | exact Hcol].
    + each_key Hk; try reflexivity; exfalso; apply Hnp; cbn; tauto.
Qed.

(** *** Finding the banners and the keys in a written file *)

Lemma banner_loop_idle pre : forall b n l,
  List.Forall no_banner pre ->
  banner_loop b n (pre ++ l)%list = banner_loop b (n + List.length pre) l.
Proof.
  induction pre as [|x pre IH]; intros b n l Hpre.
  - cbn. now rewrite Nat.add_0_r.
  - apply List.Forall_cons_iff in Hpre as [[Hs He] Hpre].
    cbn [List.app banner_loop List.length].
    unfold banner_step at 1. rewrite Hs. cbn [andb]. rewrite He. cbn [andb].
    rewrite (IH _ _ _ Hpre). f_equal. lia.
Qed.

Lemma banner_loop_started pre : forall b n l,
  startcheck b = true ->
  List.Forall (fun line => contains editendstr line = false) pre ->
  banner_loop b n (pre ++ l)%list = banner_loop b (n + List.length pre) l.
Proof.
  induction pre as [|x pre IH]; intros b n l Hb Hpre.
  - cbn. now rewrite Nat.add_0_r.
  - apply List.Forall_cons_iff in Hpre as [He Hpre].
    cbn [List.app banner_loop List.length].
    unfold banner_step at 1. rewrite Hb, andb_false_r, He. cbn [andb].
    rewrite (IH _ _ _ Hb Hpre). f_equal. lia.
Qed.

Lemma banner_loop_found l : forall b n,
  startcheck b = true -> endcheck b = true -> banner_loop b n l = b.
Proof.
  induction l as [|x l IH]; intros b n Hs He; [reflexivity |].
  cbn [banner_loop]. unfold banner_step at 1.
  rewrite Hs, andb_false_r, He, andb_false_r. now apply IH.
Qed.

Lemma scan_bounded_skip i s e pre : forall n l,
  n + List.length pre <= s ->
  scan_bounded i s e n (pre ++ l)%list = scan_bounded i s e (n + List.length pre) l.
Proof.
  induction pre as [|x pre IH]; intros n l Hn.
  - cbn. now rewrite Nat.add_0_r.
  - cbn [List.app scan_bounded List.length] in *.
    replace (s <=? n)%nat with false by (symmetry; apply Nat.leb_gt; lia).
    cbn [andb]. rewrite IH by lia. f_equal. lia.
Qed.

Lemma scan_bounded_at i s e : forall k n l x,
  List.nth_error l k = Some x ->
  List.Forall (fun line => contains i line = false) (List.firstn k l) ->
  contains i x = true ->
  s <= n -> n + k <= e ->
  scan_bounded i s e n l = KLine (n + k).
Proof.
  induction k as [|k IH]; intros n l x Hx Hpre Hc Hs He.
  - destruct l as [|y l]; [discriminate |]. injection Hx as ->.
    cbn [scan_bounded]. rewrite Hc.
    replace (s <=? n)%nat with true by (symmetry; apply Nat.leb_le; lia).
    replace (n <=? e)%nat with true by (symmetry; apply Nat.leb_le; lia).
    cbn [andb]. f_equal. lia.
  - destruct l as [|y l]; [discriminate |]. cbn [List.nth_error List.firstn] in *.
    apply List.Forall_cons_iff in Hpre as [Hy Hpre].
    cbn [scan_bounded]. rewrite Hy, andb_false_r.
    rewrite (IH (S n) l x Hx Hpre Hc) by lia. f_equal. lia.
Qed.

Section Written.
Context `{Runtime}.
Variable dt : datetime.
Variable c : config.
Hypothesis Hclean : clean_values c.

(** The hypothesis, one value at a time. *)
Ltac open_values :=
  destruct Hclean as [Hcl _];
  unfold printed_values in Hcl;
  repeat match goal with
         | Hf : List.Forall _ (_ :: _) |- _ =>
             let Hv := fresh "Hv" in
             apply List.Forall_cons_iff in Hf; destruct Hf as [Hv Hf]
         end.

(** A reserved text does not occur on a line: the line is a constant, or
    the line of another key. *)
Ltac line_free :=
  match goal with
  | |- contains _ (kv_line _ _) = false =>
      rewrite contains_kv_line by reflexivity;
      apply clean_reserved; [assumption | cbn; tauto]
  | |- _ => vm_compute; reflexivity
  end.

Lemma header_no_banner : List.Forall no_banner (header dt).
Proof.
  pose proof (class_free date_char "I" _ eq_refl (datestr_chars dt)) as Hd1.
  pose proof (class_free date_char "U" _ eq_refl (datestr_chars dt)) as Hd2.
  pose proof (class_free date_char "I" _ eq_refl (timestr_chars dt)) as Ht1.
  pose proof (class_free date_char "U" _ eq_refl (timestr_chars dt)) as Ht2.
  pose proof (class_free date_char "I" _ eq_refl (yearstr_chars dt)) as Hy1.
  pose proof (class_free date_char "U" _ eq_refl (yearstr_chars dt)) as Hy2.
  unfold header.
  repeat (apply List.Forall_cons; [| ]); try apply List.Forall_nil;
    try (split; vm_compute; reflexivity).
  - split; apply contains_first_char; rewrite !free_of_app, ?Hd1, ?Hd2; reflexivity.
  - split; apply contains_first_char; rewrite !free_of_app, ?Ht1, ?Ht2; reflexivity.
  - split.
    + change ("#Citation: Guided Integration Version " ++ Version ++ " (" ++ yearstr dt
                ++ "). https://github.com/adamcorrao/GuidedIntegration" ++ nl)
        with ("#Citation: Guided Integration Version 0.1 (" ++ yearstr dt
                ++ "). https://github.com/adamcorrao/GuidedIntegration" ++ nl).
      rewrite contains_app_apart by reflexivity.
      unfold editstartstr at 2. rewrite (contains_skip _ _ _ _ Hy1).
      reflexivity.
    + apply contains_first_char. rewrite !free_of_app, ?Hy2. reflexivity.
Qed.

Lemma written_banners :
  find_banners (header dt ++ body c)%list = Banners (Some 24) true (Some 42) true.
Proof.
  open_values.
  unfold find_banners. rewrite (banner_loop_idle _ _ _ _ header_no_banner).
  change (0 + List.length (header dt)) with 24.
  unfold body.
  match goal with
  | |- banner_loop ?b 24 (?x :: ?l) = _ =>
      change (banner_loop b 24 (x :: l))
        with (banner_loop (banner_step b 24 x) 25 l)
  end.
  change (banner_step (Banners None false None false) 24
            ("Integration parameters and setup." ++ nl))
    with (Banners (Some 24) true None false).
  match goal with
  | |- banner_loop ?b 25 ?l = _ =>
      change l with (List.firstn 17 l ++ List.skipn 17 l)%list;
      rewrite (banner_loop_started (List.firstn 17 l) b 25 (List.skipn 17 l) eq_refl)
  end.
  - cbn [List.firstn List.skipn List.length Nat.add].
    match goal with
    | |- banner_loop ?b 42 (?x :: ?l) = _ =>
        change (banner_loop b 42 (x :: l))
          with (banner_loop (banner_step b 42 x) 43 l)
    end.
    change (banner_step (Banners (Some 24) true None false) 42
              ("User notes / metadata allowed below here:" ++ nl))
      with (Banners (Some 24) true (Some 42) true).
    now apply banner_loop_found.
  - cbn [List.firstn].
    repeat (apply List.Forall_cons; [line_free |]). apply List.Forall_nil.
Qed.

Lemma written_scan k n v :
  In k keywords ->
  List.nth_error (body c) n = Some (kv_line k v) ->
  List.Forall (fun line => contains k line = false) (List.firstn n (body c)) ->
  n <= 18 ->
  scan_bounded k 24 42 0 (header dt ++ body c)%list = KLine (24 + n).
Proof.
  intros Hk Hn Hpre Hle.
  rewrite scan_bounded_skip by (cbn; lia).
  change (0 + List.length (header dt)) with 24.
  apply (scan_bounded_at k 24 42 n 24 (body c) (kv_line k v)); try assumption;
    try lia.
  apply contains_own_line.
Qed.

Lemma written_keywords :
  locate_keywords (header dt ++ body c)%list = ([], Done written_dict).
Proof.
  unfold locate_keywords. rewrite written_banners.
  cbn [editstartnum editendnum falsy default].
  cbn [mbind run_bind mret run_ret List.app].
  f_equal. f_equal. unfold written_dict, keywords.
  cbn [List.map List.combine].
  open_values.
  repeat f_equal;
    match goal with
    | |- scan_bounded ?k _ _ _ _ = KLine ?m =>
        let n := eval cbv in (m - 24) in
        eapply (written_scan k n);
        [cbn; tauto | reflexivity
         | cbn [List.firstn body];
           repeat (apply List.Forall_cons; [line_free |]); apply List.Forall_nil
         | lia]
    end.
Qed.

End Written.

(** *** The checks on the values of a valid configuration *)

Lemma outcome_bind {A B} (m : run A) (k : A -> run B) out a :
  m = (out, Done a) -> outcome (m ≫= k) = outcome (k a).
Proof.
  intros ->. unfold mbind, run_bind, outcome.
  now destruct (k a) as [out' r].
Qed.

Lemma has_digit_not_empty s : has_digit s = true -> is_empty s = false.
Proof. now destruct s. Qed.

Lemma has_digit_lower s : has_digit (lower s) = has_digit s.
Proof.
  assert (Hc : forall c, is_digit (lower_char c) = is_digit c).
  { intros c; destruct c as [[] [] [] [] [] [] [] []]; reflexivity. }
  unfold has_digit. induction s as [|c s IH]; [reflexivity |].
  cbn [lower existsb]. now rewrite Hc, IH.
Qed.

Lemma has_digit_not_none s :
  has_digit s = true ->
  String.eqb s "none" || String.eqb (lower s) "none" = false.
Proof.
  intros Hd. apply orb_false_iff. split; apply String.eqb_neq; intros E.
  - rewrite E in Hd. discriminate.
  - rewrite <- has_digit_lower, E in Hd. discriminate.
Qed.

Section Checks.
Context `{Runtime}.

Lemma check_range_valid name (v : value) :
  valid_range v -> check_range name (py_str v) = ([], Done v).
Proof.
  intros [-> | [(a & b & Hv & Ha & Hb) (_ & _ & Hd & Hl)]]; [reflexivity |].
  unfold check_range.
  rewrite (has_digit_not_empty _ Hd), (has_digit_not_none _ Hd), Hd.
  unfold check_pair, eval_literal. rewrite Hl.
  destruct Hv as [-> | ->]; cbn; rewrite Ha; cbn; rewrite Hb; reflexivity.
Qed.

Lemma check_neg_mask_valid (v : value) :
  valid_neg_mask v -> check_neg_mask (py_str v) = ([], Done v).
Proof.
  intros [-> | [(f & ->) (_ & _ & Hd & Hl)]]; [reflexivity |].
  unfold check_neg_mask.
  rewrite (has_digit_not_empty _ Hd), (has_digit_not_none _ Hd), Hd.
  unfold convert_neg_mask, eval_literal. rewrite Hl. reflexivity.
Qed.

Lemma check_poni_valid p :
  isfile p = true -> endswith ".poni" p = true -> check_poni p = ([], Done tt).
Proof. intros Hf Hx. unfold check_poni. now rewrite Hf, Hx. Qed.

Lemma valid_clean_values (c : config) : valid_config c -> clean_values c.
Proof.
  intros [Hsrc Hdir Hponi _ _ (m & Hm & Hmc & _ & _) Hint Hunit Hrr Har Hnm Herr].
  assert (Hrange : forall v, valid_range v ->
            clean (py_str v) = true /\ colon_free (py_str v) = true).
  { intros v [-> | [_ (Hc & Hcol & _)]]; [split; reflexivity | now split]. }
  assert (Hneg : clean (py_str (neg_mask c)) = true
                 /\ colon_free (py_str (neg_mask c)) = true).
  { destruct Hnm as [-> | [_ (Hc & Hcol & _)]]; [split; reflexivity | now split]. }
  destruct (Hrange _ Hrr) as [Hrr1 Hrr2]. destruct (Hrange _ Har) as [Har1 Har2].
  destruct Hneg as [Hnm1 Hnm2].
  destruct (str_int_clean (rad_points c)) as [Hrp1 Hrp2].
  unfold clean_values, printed_values. rewrite Hm. cbn [str_maskf].
  split; repeat (apply List.Forall_cons; [| ]); try apply List.Forall_nil;
    try assumption.
  all: match goal with
       | Hin : In ?x _ |- _ (?x) = true =>
           cbn in Hin; repeat destruct Hin as [<- | Hin]; try reflexivity;
           destruct Hin
       end.
Qed.

End Checks.

(** *** The round trip *)

Section RoundTrip.
Context `{Runtime}.
Variable dt : datetime.
Variable c : config.
Hypothesis Hvalid : valid_config c.

Lemma date_newline_free s : forallb date_char s = true -> free_of (is_char newline) s = true.
Proof. now apply (class_free date_char). Qed.

Lemma date_unbroken s : forallb date_char s = true -> unbroken s = true.
Proof.
  intros Hs. unfold unbroken.
  now rewrite (class_free date_char newline s eq_refl Hs),
    (class_free date_char carriage_return s eq_refl Hs).
Qed.

(** Every printed value stays on its line. *)
Lemma values_unbroken :
  one_line_values c -> List.Forall (fun v => unbroken v = true) (printed_values c).
Proof.
  intros Hline.
  destruct (valid_clean_values c Hvalid) as [Hcl _].
  destruct Hvalid as [Hsrc _ _ _ _ _ Hint Hunit _ _ _ Herr].
  unfold one_line_values in Hline. unfold printed_values in *.
  repeat match goal with
         | Hf : List.Forall (fun v => clean v = true) (_ :: _) |- _ =>
             let Hv := fresh "Hv" in
             apply List.Forall_cons_iff in Hf; destruct Hf as [Hv Hf];
             apply clean_parts in Hv; destruct Hv as [Hv _]
         end.
  repeat match goal with
         | Hf : List.Forall (fun v => free_of _ v = true) (_ :: _) |- _ =>
             let Hr := fresh "Hr" in
             apply List.Forall_cons_iff in Hf; destruct Hf as [Hr Hf]
         end.
  assert (Hp : free_of (is_char carriage_return) (str_int (rad_points c)) = true)
    by exact (class_free int_char carriage_return _ eq_refl (str_int_chars _)).
  assert (Hlist : forall x l, In x l ->
            List.forallb (free_of (is_char carriage_return)) l = true ->
            free_of (is_char carriage_return) x = true).
  { intros x l Hx Hl. rewrite List.forallb_forall in Hl. now apply Hl. }
  pose proof (Hlist _ _ Hsrc eq_refl) as Hs1.
  pose proof (Hlist _ _ Hint eq_refl) as Hs2.
  pose proof (Hlist _ _ Hunit eq_refl) as Hs3.
  pose proof (Hlist _ _ Herr eq_refl) as Hs4.
  unfold unbroken.
  repeat (apply List.Forall_cons; [apply andb_true_iff; split; assumption |]).
  apply List.Forall_nil.
Qed.

Lemma written_lines :
  one_line_values c -> readlines (int_text dt c) = (header dt ++ body c)%list.
Proof.
  intros Hline.
  rewrite int_text_segments, readlines_segments; [apply segments_lines |].
  pose proof (values_unbroken Hline) as Hcl.
  unfold printed_values in Hcl.
  repeat match goal with
         | Hf : List.Forall _ (_ :: _) |- _ =>
             let Hv := fresh "Hv" in
             apply List.Forall_cons_iff in Hf; destruct Hf as [Hv Hf]
         end.
  pose proof (date_unbroken _ (datestr_chars dt)).
  pose proof (date_unbroken _ (timestr_chars dt)).
  pose proof (date_unbroken _ (yearstr_chars dt)).
  unfold segments. cbn [List.app].
  repeat (apply List.Forall_cons; [first [exact I | assumption | reflexivity] |]).
  apply List.Forall_nil.
Qed.

Lemma raw_value_written k n v :
  In k keywords ->
  List.find (fun p => String.eqb (fst p) k) written_dict = Some (k, KLine (24 + n)) ->
  List.nth_error (body c) n = Some (kv_line k v) ->
  clean v = true ->
  (In k path_keywords \/ colon_free v = true) ->
  raw_value (header dt ++ body c)%list written_dict k = ([], Done v).
Proof.
  intros Hk Hd Hn Hc Hcol. unfold raw_value, keyword_line. rewrite Hd.
  rewrite List.nth_error_app2 by (cbn; lia).
  change (24 + n - List.length (header dt)) with (24 + n - 24).
  replace (24 + n - 24) with n by lia. rewrite Hn.
  cbn [mbind run_bind mret run_ret]. rewrite (line_value_kv k v Hk Hc Hcol).
  reflexivity.
Qed.

(** C1, as the source has it by design: a configuration is read back from
    the file written for it - with its unit and its error model in lower
    case - when its data source is [NSLS-II], [APS] or [SSRL]; its geometry
    file exists and ends in [.poni]; it has a mask file, which exists and has
    an accepted extension; its split method, unit and error model are
    accepted values; each range is absent or a pair of numbers and the
    automask value is disabled or a float; the three paths have no newline,
    no [#], no whitespace at either end and hold neither a key label nor the
    end banner; [str] prints each pair and float as such text, with a digit
    and without a colon, that [ast.literal_eval] reads back as the same
    value; and neither the paths nor these printed texts hold a carriage
    return, which ends a line when the file is read. *)
Theorem load_written :
  one_line_values c ->
  outcome (load (readlines (int_text dt c)))
  = Done (normalize c, image_extension_of (synsrc c)).
Proof.
  intros Hline. rewrite (written_lines Hline).
  pose proof (valid_clean_values c Hvalid) as Hclean.
  pose proof (written_keywords dt c Hclean) as Hkeys.
  destruct Hclean as [Hcl Hco].
  destruct Hvalid as [Hsrc _ _ Hpf Hpt (m & Hm & _ & Hmf & Hmt)
                        Hint Hunit Hrr Har Hnm Herr].
  unfold printed_values in Hcl. rewrite Hm in Hcl. cbn [str_maskf] in Hcl.
  repeat match goal with
         | Hf : List.Forall _ (_ :: _) |- _ =>
             let Hv := fresh "Hv" in
             apply List.Forall_cons_iff in Hf; destruct Hf as [Hv Hf]
         end.
  unfold load.
  rewrite (outcome_bind _ _ _ _ Hkeys).
  rewrite (outcome_bind (check_keywords written_dict) _ [] tt eq_refl).
  assert (Hbody : forall n k v,
            List.nth_error (body c) n = Some (kv_line k v) ->
            List.nth_error (body c) n = Some (kv_line k v)) by auto.
  repeat match goal with
         | |- outcome (raw_value _ _ ?k ≫= _) = _ =>
             erewrite (outcome_bind (raw_value _ _ k));
             [| eapply (raw_value_written k);
                [cbn; tauto | reflexivity
                 | unfold body; rewrite ?Hm; reflexivity
                 | assumption
                 | first [left; cbn; tauto | right; assumption]]]
         end.
  rewrite (outcome_bind _ _ _ _ (check_poni_valid _ Hpf Hpt)).
  rewrite (outcome_bind _ _ _ _ (check_mask_valid _ Hmf Hmt)).
  assert (Hs : check_synsrc (synsrc c) = ([], Done (image_extension_of (synsrc c)))).
  { cbn in Hsrc. destruct Hsrc as [<- | [<- | [<- | []]]]; reflexivity. }
  rewrite (outcome_bind _ _ _ _ Hs).
  assert (Hi : load_intmethod (intmethod c) = ([], Done (intmethod c))).
  { cbn in Hint. repeat destruct Hint as [<- | Hint]; try reflexivity. destruct Hint. }
  rewrite (outcome_bind _ _ _ _ Hi).
  assert (Hu : load_xunit (xunit c) = ([], Done (lower (xunit c)))).
  { cbn in Hunit. repeat destruct Hunit as [<- | Hunit]; try reflexivity. destruct Hunit. }
  rewrite (outcome_bind _ _ _ _ Hu).
  assert (Hp : load_rad_points (str_int (rad_points c)) = ([], Done (rad_points c))).
  { unfold load_rad_points. now rewrite py_int_str_int. }
  rewrite (outcome_bind _ _ _ _ Hp).
  rewrite (outcome_bind _ _ _ _ (check_range_valid "rad_range" _ Hrr)).
  rewrite (outcome_bind _ _ _ _ (check_range_valid "azim_range" _ Har)).
  rewrite (outcome_bind _ _ _ _ (check_neg_mask_valid _ Hnm)).
  assert (He : check_errormodel (errormodel c)
               = ([ErrorModelAccepted (errormodel c)], Done (lower (errormodel c)))).
  { cbn in Herr. repeat destruct Herr as [<- | Herr]; try reflexivity. destruct Herr. }
  rewrite (outcome_bind _ _ _ _ He).
  unfold normalize. rewrite Hm. reflexivity.
Qed.

End RoundTrip.

(** The example configuration comes back from its file, with the unit
    [q_A^-1] as [q_a^-1] and the error model [None] as [none]. *)
Lemma load_written_witness :
  valid_config demo_config
  /\ one_line_values demo_config
  /\ outcome (load (readlines (int_text demo_date demo_config)))
     = Done (normalize demo_config, ".tiff").
Proof.
  assert (Hl : one_line_values demo_config) by (repeat constructor).
  assert (Hv : valid_config demo_config).
  { constructor; try reflexivity; try (cbn; tauto).
    - exists "/data/calib/mask.edf". repeat split; reflexivity.
    - right. split; [| repeat split; reflexivity].
      exists (PFloat (5, -1)%Z), (PFloat (154, -1)%Z). repeat split. now left.
    - now left.
    - right. split; [now exists (-1, -10)%Z | repeat split; reflexivity]. }
  split; [exact Hv | split; [exact Hl |]].
  exact (load_written demo_date demo_config Hv Hl).
Defined.

(** C1 as worded fails: an output directory with a [#] in its name is an
    accepted value, and it is read back cut at the [#]; one with a carriage
    return in its name is read back cut there, as the line ends at it; and
    the file written for a configuration without a mask is not read back at
    all. *)
Lemma hash_in_path_is_cut :
  outcome (load (readlines (int_text demo_date demo_config_hash)))
  = Done (Config demo_runtime "NSLS-II" "/data/run" "/data/calib/geometry.poni"
            (Some "/data/calib/mask.edf") "full" "q_a^-1" 6000
            (PTuple [PFloat (5, -1)%Z; PFloat (154, -1)%Z]) PNone
            (PFloat (-1, -10)%Z) "none", ".tiff")
  /\ outcome (load (readlines (int_text demo_date demo_config_hash)))
     <> Done (normalize demo_config_hash, ".tiff")
  /\ option_map oneDdir
       (match outcome (load (readlines (int_text demo_date
                 (demo_config_dir ("/data/a" ++ String carriage_return "b/1D"))))) with
        | Done (cfg, _) => Some cfg
        | _ => None
        end)
     = Some "/data/a"
  /\ outcome (load (readlines (int_text demo_date demo_config_no_mask)))
     = Raised AttributeError.
Proof.
  split; [vm_compute; reflexivity |].
  split; [| split; vm_compute; reflexivity].
  intros E. vm_compute in E. discriminate E.
Qed.

(** ** C10: the [.int] file is rewritten before the answer is looked at *)

Lemma contains_app_r p a b : contains p b = true -> contains p (a ++ b) = true.
Proof.
  intros Hb. induction a as [|x a IH]; [now rewrite append_nil_l |].
  rewrite append_cons. cbn [contains]. rewrite IH. apply orb_true_r.
Qed.

(** The text begins with the line [k: v], after a line end. *)
Lemma line_at_start k v rest :
  startswith (nl ++ kv_line k v) (nl ++ (k ++ ": ") ++ v ++ nl ++ rest) = true.
Proof.
  unfold kv_line.
  replace (nl ++ (k ++ ": ") ++ v ++ nl ++ rest)
    with ((nl ++ k ++ ": " ++ v ++ nl) ++ rest)
    by (rewrite !append_assoc; reflexivity).
  apply startswith_app.
Qed.

(** Looks for the line in a text made of pieces. *)
Ltac find_line k v :=
  repeat first
    [ apply contains_startswith; exact (line_at_start k v _)
    | apply contains_app_r ].

Lemma int_text_lines `{Runtime} dt (c : config) :
  List.Forall (fun kv => contains (nl ++ kv_line (fst kv) (snd kv)) (int_text dt c) = true)
    (List.combine keywords (printed_values c)).
Proof.
  rewrite int_text_segments. unfold segments, keywords, printed_values.
  cbn [List.combine List.app seg_text].
  repeat (apply List.Forall_cons;
          [cbn [fst snd];
           match goal with
           | |- contains (nl ++ kv_line ?k ?v) _ = true => find_line k v
           end |]).
  apply List.Forall_nil.
Qed.

(** C10: whatever the file held, after lines 1237-1245 it holds a text that
    does not depend on what it held: the text begins with the title of the
    file and has, for each of the eleven keys, the line with the key, a colon,
    a space and the value of the current configuration as [str] prints it;
    no other file is touched.  This is so before the answer is looked at, and
    an answer other than [1] then ends the program before the batch: no state
    of the batch exists. *)
Theorem int_file_rewritten_before_confirmation `{Runtime}
    listdir image_ok process_ok fs path dt (c : config)
    image_extension tiff_dir dirstoint start_int fuel :
  let r := finish listdir image_ok process_ok fs path dt c
             image_extension tiff_dir dirstoint start_int fuel in
  exists txt,
    fst r !! path = Some txt
    /\ startswith "#Guided Integration .int parameter file" txt = true
    /\ List.Forall (fun kv => contains (nl ++ kv_line (fst kv) (snd kv)) txt = true)
         (List.combine keywords (printed_values c))
    /\ (forall fs0,
          fst (finish listdir image_ok process_ok fs0 path dt c
                 image_extension tiff_dir dirstoint start_int fuel) !! path
          = Some txt)
    /\ (forall other, other <> path -> fst r !! other = fs !! other)
    /\ (start_int <> "1" -> outcome (snd r) = Exit).
Proof.
  intros r. subst r. exists (int_text dt c). unfold finish. cbn [fst snd].
  split; [apply save_int_file_lookup |].
  split; [rewrite int_text_segments; apply startswith_app |].
  split; [apply int_text_lines |].
  split; [intros fs0; apply save_int_file_lookup |].
  split; [intros other Hne; now apply save_int_file_other |].
  intros Hne. unfold confirm. destruct (is_empty start_int); [reflexivity |].
  destruct (String.eqb start_int "1") eqn:E; [| reflexivity].
  apply String.eqb_eq in E. contradiction.
Qed.

(** The file of the example held other text; the answer [2] leaves it
    rewritten, and the program has ended. *)
Lemma int_file_rewritten_witness :
  let r := finish demo_listdir (fun _ => true) (fun _ _ => true)
             (<["/data/run.int" := "old text"]> ∅) "/data/run.int" demo_date
             demo_config ".tiff" "/data/tiff" ["s1"] "2" 7 in
  exists txt,
    fst r !! "/data/run.int" = Some txt
    /\ startswith "#Guided Integration .int parameter file" txt = true
    /\ List.Forall (fun kv => contains (nl ++ kv_line (fst kv) (snd kv)) txt = true)
         (List.combine keywords (printed_values demo_config))
    /\ outcome (snd r) = Exit.
Proof.
  intros r.
  destruct (int_file_rewritten_before_confirmation (H := demo_runtime)
              demo_listdir (fun _ => true) (fun _ _ => true)
              (<["/data/run.int" := "old text"]> ∅) "/data/run.int" demo_date
              demo_config ".tiff" "/data/tiff" ["s1"] "2" 7)
    as (txt & Hfile & Htitle & Hlines & _ & _ & Hexit).
  exists txt.
  split; [exact Hfile | split; [exact Htitle | split; [exact Hlines |]]].
  apply Hexit. discriminate.
Defined.

(** ** Further facts on C1, C5 and C7 *)

(** Why the paths of C1 must be clean: a key label inside the output
    directory makes its line the line of that key, and line 810 raises
    [IndexError]; the end banner inside it closes the editable block early,
    and nine keys are reported missing; whitespace at its ends is lost. *)
Lemma unclean_paths_do_not_come_back :
  load (readlines (int_text demo_date (demo_config_dir "/data/Poni file")))
  = ([], Raised IndexError)
  /\ outcome (load (readlines (int_text demo_date
                 (demo_config_dir "/data/User notes / metadata allowed below here:"))))
     = Exit
  /\ option_map oneDdir
       (match outcome (load (readlines (int_text demo_date
                               (demo_config_dir " /data/1D")))) with
        | Done (cfg, _) => Some cfg
        | _ => None
        end)
     = Some "/data/1D".
Proof. repeat split; vm_compute; reflexivity. Qed.


(** Whenever the search marks a key as not found, the program prints the
    missing keys, all of them and in the order of the dictionary, and
    exits. *)
Lemma load_reports_missing_keys `{Runtime} intlines out d :
  locate_keywords intlines = (out, Done d) ->
  missing_keys d <> [] ->
  load intlines
  = ((out ++ KeywordsNotFound :: List.map MissingKey (missing_keys d)) ++ [Quit],
     Exit)%list.
Proof.
  intros Hl Hm. unfold load. rewrite Hl.
  cbn [mbind run_bind]. rewrite (check_keywords_reports d Hm).
  cbn [mbind run_bind]. now rewrite List.app_assoc.
Qed.

(** In a file with at least one line the search leaves no key unmarked. *)
Lemma scan_fallback_marked i cur num line rest :
  scan_fallback i cur num (line :: rest) <> KNone.
Proof.
  assert (G : forall l n, scan_fallback i KNA n l <> KNone).
  { induction l as [|x l IH]; intros n; cbn [scan_fallback]; [discriminate |].
    destruct (contains i x); [| apply IH].
    destruct (contains "#" x); [| discriminate].
    destruct (_ <? _)%Z; [apply IH |].
    destruct (_ >? _)%Z; [discriminate | apply IH]. }
  cbn [scan_fallback].
  destruct (contains i line); [| apply G].
  destruct (contains "#" line); [| discriminate].
  destruct (_ <? _)%Z; [apply G |].
  destruct (_ >? _)%Z; [discriminate | apply G].
Qed.

Lemma join_cons sep x y t : join sep (x :: y :: t) = x ++ sep ++ join sep (y :: t).
Proof. reflexivity. Qed.

(** The names in the section of the record file are the recorded names, one
    per line, when no name holds a newline. *)
Lemma split_join_lines l :
  l <> [] ->
  List.Forall (fun x => free_of (is_char newline) x = true) l ->
  split nl (join nl l) = l.
Proof.
  intros Hne Hl. induction Hl as [|x t Hx Ht IH]; [contradiction |].
  destruct t as [|y t].
  - cbn [join]. apply split_absent. now apply contains_first_char.
  - rewrite join_cons. unfold nl at 1 2.
    rewrite append_cons, append_nil_l, (split_char_cons _ _ _ Hx).
    f_equal. apply IH. discriminate.
Qed.

Lemma record_lists_every_image (b : batch) :
  intedimages b <> [] ->
  List.Forall (fun x => free_of (is_char newline) x = true) (intedimages b) ->
  List.length (split nl (record_images b)) = List.length (intedimages b).
Proof. intros Hne Hl. unfold record_images. now rewrite split_join_lines. Qed.

Lemma rstrip_by_tail p a w :
  forallb p w = true -> rstrip_by p (a ++ w) = rstrip_by p a.
Proof.
  intros Hw. induction a as [|c a IH].
  - rewrite append_nil_l. now apply rstrip_by_all.
  - rewrite append_cons. cbn [rstrip_by]. now rewrite IH.
Qed.

Lemma rstrip_by_last p s l :
  p l = false -> rstrip_by p (s ++ String l EmptyString) = s ++ String l EmptyString.
Proof.
  intros Hl. induction s as [|c s IH].
  - rewrite append_nil_l. cbn [rstrip_by is_empty andb]. now rewrite Hl.
  - rewrite append_cons. cbn [rstrip_by]. rewrite IH.
    now destruct s.
Qed.

Lemma forallb_char_in chars : forallb (char_in chars) chars = true.
Proof.
  assert (G : forall pre s, forallb (char_in (pre ++ s)) s = true).
  { intros pre s. revert pre. induction s as [|c s IH]; intros pre; [reflexivity |].
    cbn [forallb]. apply andb_true_iff. split.
    - unfold char_in. induction pre as [|d pre IHp].
      + rewrite append_nil_l. cbn [existsb]. now rewrite Ascii.eqb_refl.
      + rewrite append_cons. cbn [existsb]. now rewrite IHp, orb_true_r.
    - replace (pre ++ String c s) with ((pre ++ String c EmptyString) ++ s).
      + apply IH.
      + now rewrite append_assoc. }
  apply (G EmptyString).
Qed.

(** A stem that neither begins nor ends with a character of the image
    extension is left as it is by line 1298. *)
Lemma strip_chars_keeps_stem f mid l ext :
  char_in ext f = false -> char_in ext l = false ->
  strip_chars ext (String f (mid ++ String l EmptyString) ++ ext)
  = String f (mid ++ String l EmptyString).
Proof.
  intros Hf Hl. unfold strip_chars, strip_by.
  rewrite rstrip_by_tail by apply forallb_char_in.
  change (String f (mid ++ String l EmptyString))
    with (String f mid ++ String l EmptyString).
  rewrite rstrip_by_last by assumption.
  rewrite append_cons. cbn [lstrip_by]. now rewrite Hf.
Qed.

(** * More of the script *)

(** ** Selecting the folders by keyword (lines 645-655 and 1117-1127) *)

Lemma lower_is_all k :
  in_list k keyword_all_accepted || in_list (lower k) keyword_all_accepted
  = String.eqb (lower k) "all".
Proof.
  destruct (String.eqb_spec (lower k) "all") as [E | E].
  - rewrite E. apply orb_true_r.
  - apply orb_false_iff. split; apply not_true_is_false; intros Hin;
      apply in_list_In in Hin; cbn in Hin;
      destruct Hin as [Hk | [Hk | [Hk | []]]]; apply E.
    1-3: now rewrite <- Hk.
    all: apply (f_equal lower) in Hk; rewrite lower_idem in Hk; now rewrite <- Hk.
Qed.

Lemma contains_empty s : contains EmptyString s = true.
Proof. destruct s; reflexivity. Qed.

(** X1.  The keyword [all] selects every folder in whatever case it is
    typed, not only in the three spellings of [keyword_all_accepted], and the
    folders keep the order in which [os.walk] lists them. *)
Theorem select_dirs_all_any_case keyword subdirs :
  lower keyword = "all" -> select_dirs keyword subdirs = subdirs.
Proof.
  intros Hk. unfold select_dirs. now rewrite lower_is_all, Hk.
Qed.

Lemma select_dirs_all_any_case_witness :
  in_list "aLL" keyword_all_accepted = false
  /\ select_dirs "aLL" ["s1"; "hall"; "s2"] = ["s1"; "hall"; "s2"].
Proof.
  split; [reflexivity |].
  apply (select_dirs_all_any_case "aLL"). reflexivity.
Defined.

(** X2.  Any other keyword selects the folders whose name contains it, case
    sensitively; nothing else is selected, the order of the listing is kept,
    and a folder listed once is selected at most once.  An empty keyword
    selects every folder. *)
Theorem select_dirs_by_keyword keyword subdirs :
  lower keyword <> "all" ->
  (forall d, In d (select_dirs keyword subdirs)
             <-> In d subdirs /\ contains keyword d = true)
  /\ (exists keep, List.length keep = List.length subdirs
        /\ select_dirs keyword subdirs
           = List.map fst (List.filter snd (List.combine subdirs keep)))
  /\ (List.NoDup subdirs -> List.NoDup (select_dirs keyword subdirs))
  /\ (keyword = EmptyString -> select_dirs keyword subdirs = subdirs).
Proof.
  intros Hk. apply String.eqb_neq in Hk.
  unfold select_dirs. rewrite lower_is_all, Hk.
  split; [| split; [| split]].
  - intros d. apply List.filter_In.
  - exists (List.map (contains keyword) subdirs). split; [apply List.length_map |].
    induction subdirs as [|d l IH]; [reflexivity |].
    cbn [List.filter List.map List.combine snd].
    destruct (contains keyword d); cbn [List.map fst]; now rewrite IH.
  - apply List.NoDup_filter.
  - intros ->. induction subdirs as [|d l IH]; [reflexivity |].
    cbn [List.filter]. now rewrite contains_empty, IH.
Qed.

Lemma select_dirs_by_keyword_witness :
  In "LiCl" (select_dirs "LiCl" ["Fe3LiCl_100C"; "blank"; "licl_2"; "LiCl"])
  <-> In "LiCl" ["Fe3LiCl_100C"; "blank"; "licl_2"; "LiCl"]
      /\ contains "LiCl" "LiCl" = true.
Proof.
  assert (Hk : lower "LiCl" <> "all") by discriminate.
  exact (proj1 (select_dirs_by_keyword "LiCl"
                  ["Fe3LiCl_100C"; "blank"; "licl_2"; "LiCl"] Hk) "LiCl").
Defined.

(** ** Creating the folders of the integrated patterns (lines 657-680 and
    1129-1152) *)

Section MirrorMore.
Context `{Runtime}.
Variable mkdir_error : string -> option exn.
Variable oneDdir : string.

Let path (d : string) : string := path_join os_sep oneDdir d.

(** The message of a folder that was handled. *)
Let handled (d : string) (m : msg) : Prop := m = DirCreated d \/ m = DirExists d.

Lemma make_folders_all todo : forall dirs acc,
  (forall d, In d todo -> path d ∈ dirs \/ mkdir_error (path d) = None) ->
  exists dirs' out,
    make_folders mkdir_error oneDdir dirs todo acc = (dirs', (out, Done (acc ++ todo)%list))
    /\ List.Forall2 handled todo out
    /\ forall p, p ∈ dirs' <-> p ∈ dirs \/ In p (List.map path todo).
Proof.
  induction todo as [|dir rest IH]; intros dirs acc Hok.
  - exists dirs, []. cbn [make_folders]. rewrite List.app_nil_r.
    split; [reflexivity | split; [constructor |]].
    intros p. cbn. tauto.
  - cbn [make_folders]. unfold os_mkdir. fold (path dir).
    destruct (decide (path dir ∈ dirs)) as [Hin | Hnew].
    + destruct (IH dirs (acc ++ [dir])%list) as (dirs' & out & E & Hm & Hd).
      { intros d Hd. apply Hok. now right. }
      rewrite E. exists dirs', (DirExists dir :: out).
      rewrite <- List.app_assoc. split; [reflexivity |].
      split; [constructor; [now right | exact Hm] |].
      intros p. rewrite Hd. cbn [List.map In]. split; [tauto |].
      intros [Hp | [<- | Hp]]; tauto.
    + destruct (Hok dir (or_introl eq_refl)) as [Hin | Hnone]; [contradiction |].
      rewrite Hnone.
      destruct (IH ({[path dir]} ∪ dirs) (acc ++ [dir])%list) as (dirs' & out & E & Hm & Hd).
      { intros d Hd. destruct (Hok d (or_intror Hd)) as [Hp | Hp]; [left | now right].
        apply elem_of_union. now right. }
      rewrite E. exists dirs', (DirCreated dir :: out).
      rewrite <- List.app_assoc. split; [reflexivity |].
      split; [constructor; [now left | exact Hm] |].
      intros p. rewrite Hd, elem_of_union, elem_of_singleton. cbn [List.map In].
      split; [intros [[-> | Hp] | Hp]; tauto | intros [Hp | [<- | Hp]]; tauto].
Qed.

Lemma make_folders_again todo : forall dirs acc,
  (forall d, In d todo -> path d ∈ dirs) ->
  make_folders mkdir_error oneDdir dirs todo acc
  = (dirs, (List.map DirExists todo, Done (acc ++ todo)%list)).
Proof.
  induction todo as [|dir rest IH]; intros dirs acc Hok.
  - cbn [make_folders List.map]. now rewrite List.app_nil_r.
  - cbn [make_folders]. unfold os_mkdir. fold (path dir).
    destruct (decide (path dir ∈ dirs)) as [Hin | Hnew].
    + rewrite IH by (intros d Hd; apply Hok; now right).
      now rewrite <- List.app_assoc.
    + exfalso. apply Hnew, Hok. now left.
Qed.

Lemma make_folders_until pre dir rest e : forall dirs acc,
  (forall d, In d pre -> path d ∈ dirs \/ mkdir_error (path d) = None) ->
  path dir ∉ dirs -> ~ In (path dir) (List.map path pre) ->
  mkdir_error (path dir) = Some e ->
  exists dirs' out,
    make_folders mkdir_error oneDdir dirs (pre ++ dir :: rest)%list acc
    = (dirs', (out, Raised e))
    /\ List.Forall2 handled pre out
    /\ forall p, p ∈ dirs' <-> p ∈ dirs \/ In p (List.map path pre).
Proof.
  induction pre as [|d0 pre IH]; intros dirs acc Hok Hnew Hfresh He.
  - exists dirs, []. cbn [List.app]. rewrite (make_folders_fails mkdir_error oneDdir dirs dir rest acc e Hnew He).
    split; [reflexivity | split; [constructor |]].
    intros p. cbn. tauto.
  - cbn [List.app make_folders]. unfold os_mkdir. fold (path d0).
    cbn [List.map In] in Hfresh.
    destruct (decide (path d0 ∈ dirs)) as [Hin | Hnot].
    + destruct (IH dirs (acc ++ [d0])%list) as (dirs' & out & E & Hm & Hd); try assumption.
      { intros d Hd. apply Hok. now right. }
      { tauto. }
      rewrite E. exists dirs', (DirExists d0 :: out).
      split; [reflexivity |].
      split; [constructor; [now right | exact Hm] |].
      intros p. rewrite Hd. cbn [List.map In]. split; [tauto |].
      intros [Hp | [<- | Hp]]; tauto.
    + destruct (Hok d0 (or_introl eq_refl)) as [Hin | Hnone]; [contradiction |].
      rewrite Hnone.
      destruct (IH ({[path d0]} ∪ dirs) (acc ++ [d0])%list) as (dirs' & out & E & Hm & Hd);
        try assumption.
      { intros d Hd. destruct (Hok d (or_intror Hd)) as [Hp | Hp]; [left | now right].
        apply elem_of_union. now right. }
      { rewrite elem_of_union, elem_of_singleton. intros [E | Hp]; [| contradiction].
        apply Hfresh. now left. }
      { tauto. }
      rewrite E. exists dirs', (DirCreated d0 :: out).
      split; [reflexivity |].
      split; [constructor; [now left | exact Hm] |].
      intros p. rewrite Hd, elem_of_union, elem_of_singleton. cbn [List.map In].
      split; [intros [[-> | Hp] | Hp]; tauto | intros [Hp | [<- | Hp]]; tauto].
Qed.

Lemma compare_lists_same l : compare_lists l l = ([], Done tt).
Proof.
  unfold compare_lists, list_eqb. now rewrite bool_decide_eq_true_2.
Qed.

(** X3.  When every folder either exists already or can be created, the
    block runs to its end: one message per selected folder, in order, saying
    that it was created or that it existed; afterwards exactly the folders
    that were there before and the folders of the selection exist. *)
Theorem mirror_dirs_creates_all dirs dirstoint :
  (forall d, In d dirstoint ->
     path_join os_sep oneDdir d ∈ dirs
     \/ mkdir_error (path_join os_sep oneDdir d) = None) ->
  exists dirs' out,
    mirror_dirs mkdir_error oneDdir dirs dirstoint = (dirs', (out, Done tt))
    /\ List.Forall2 (fun d m => m = DirCreated d \/ m = DirExists d) dirstoint out
    /\ forall p, p ∈ dirs'
         <-> p ∈ dirs \/ In p (List.map (path_join os_sep oneDdir) dirstoint).
Proof.
  intros Hok.
  destruct (make_folders_all dirstoint dirs [] Hok) as (dirs' & out & E & Hm & Hd).
  exists dirs', out. unfold mirror_dirs. rewrite E. cbn [List.app].
  unfold mbind, run_bind. rewrite compare_lists_same, List.app_nil_r.
  auto.
Qed.

(** X4.  Folders that exist are never an error: when every folder of the
    selection exists, the block reports each as existing, creates nothing and
    goes on, whether or not the directory could be written to. *)
Theorem mirror_dirs_again dirs dirstoint :
  (forall d, In d dirstoint -> path_join os_sep oneDdir d ∈ dirs) ->
  mirror_dirs mkdir_error oneDdir dirs dirstoint
  = (dirs, (List.map DirExists dirstoint, Done tt)).
Proof.
  intros Hok. unfold mirror_dirs. rewrite make_folders_again by exact Hok.
  cbn [List.app]. unfold mbind, run_bind.
  now rewrite compare_lists_same, List.app_nil_r.
Qed.

(** X5.  Nothing is undone when a folder cannot be created: the program is
    left with the exception of that folder, the folders before it have their
    message and stay created, and no folder after it is created. *)
Theorem mirror_dirs_no_rollback dirs pre dir rest e :
  (forall d, In d pre ->
     path_join os_sep oneDdir d ∈ dirs
     \/ mkdir_error (path_join os_sep oneDdir d) = None) ->
  path_join os_sep oneDdir dir ∉ dirs ->
  ~ In (path_join os_sep oneDdir dir) (List.map (path_join os_sep oneDdir) pre) ->
  mkdir_error (path_join os_sep oneDdir dir) = Some e ->
  exists dirs' out,
    mirror_dirs mkdir_error oneDdir dirs (pre ++ dir :: rest)%list
    = (dirs', (out, Raised e))
    /\ List.Forall2 (fun d m => m = DirCreated d \/ m = DirExists d) pre out
    /\ forall p, p ∈ dirs'
         <-> p ∈ dirs \/ In p (List.map (path_join os_sep oneDdir) pre).
Proof.
  intros Hok Hnew Hfresh He.
  destruct (make_folders_until pre dir rest e dirs [] Hok Hnew Hfresh He)
    as (dirs' & out & E & Hm & Hd).
  exists dirs', out. unfold mirror_dirs. rewrite E. auto.
Qed.

End MirrorMore.

Lemma mirror_dirs_creates_all_witness :
  exists dirs' out,
    mirror_dirs (H := demo_runtime) (fun _ => None) "/data/1D" ∅ ["s1"; "s2"]
    = (dirs', (out, Done tt))
    /\ List.Forall2 (fun d m => m = DirCreated d \/ m = DirExists d) ["s1"; "s2"] out
    /\ forall p, p ∈ dirs'
         <-> p ∈ (∅ : gset string)
             \/ In p (List.map (path_join os_sep "/data/1D") ["s1"; "s2"]).
Proof.
  apply (mirror_dirs_creates_all (H := demo_runtime) (fun _ => None) "/data/1D" ∅
           ["s1"; "s2"]).
  intros d _. right. reflexivity.
Defined.

Lemma mirror_dirs_again_witness :
  mirror_dirs (H := demo_runtime) (fun _ => Some PermissionError) "/data/1D"
    {["/data/1D/s1"]} ["s1"]
  = ({["/data/1D/s1"]}, ([DirExists "s1"], Done tt)).
Proof.
  apply (mirror_dirs_again (H := demo_runtime) (fun _ => Some PermissionError)
           "/data/1D" {["/data/1D/s1"]} ["s1"]).
  intros d [<- | []]. apply elem_of_singleton. reflexivity.
Defined.

Lemma mirror_dirs_no_rollback_witness :
  exists dirs' out,
    mirror_dirs (H := demo_runtime)
      (fun p => if String.eqb p "/data/1D/s2" then Some PermissionError else None)
      "/data/1D" ∅ (["s1"] ++ "s2" :: ["s3"])%list
    = (dirs', (out, Raised PermissionError))
    /\ List.Forall2 (fun d m => m = DirCreated d \/ m = DirExists d) ["s1"] out
    /\ forall p, p ∈ dirs'
         <-> p ∈ (∅ : gset string)
             \/ In p (List.map (path_join os_sep "/data/1D") ["s1"]).
Proof.
  apply (mirror_dirs_no_rollback (H := demo_runtime)
           (fun p => if String.eqb p "/data/1D/s2" then Some PermissionError else None)
           "/data/1D" ∅ ["s1"] "s2" ["s3"] PermissionError).
  - intros d [<- | []]. right. reflexivity.
  - apply not_elem_of_empty.
  - intros [E | []]. discriminate E.
  - reflexivity.
Defined.

(** ** Finding the banners and the keys (lines 741-785) *)

Lemma banner_loop_first l : forall b n,
  banner_loop b n l
  = Banners
      (if startcheck b then editstartnum b
       else match first_index (contains editstartstr) n l with
            | Some k => Some k
            | None => editstartnum b
            end)
      (startcheck b || List.existsb (contains editstartstr) l)
      (if endcheck b then editendnum b
       else match first_index (contains editendstr) n l with
            | Some k => Some k
            | None => editendnum b
            end)
      (endcheck b || List.existsb (contains editendstr) l).
Proof.
  induction l as [|x l IH]; intros [sn sc en ec] n.
  - cbn. rewrite !orb_false_r. now destruct sc, ec.
  - cbn [banner_loop]. rewrite IH. unfold banner_step.
    cbn [first_index List.existsb startcheck endcheck editstartnum editendnum].
    destruct (contains editstartstr x), (contains editendstr x), sc, ec;
      cbn [andb negb orb startcheck endcheck editstartnum editendnum];
      try reflexivity.
Qed.

(** X6.  The loop of lines 741-747 finds the first line that contains the
    start banner and the first line that contains the end banner, each
    independently of the other: a later occurrence never replaces an earlier
    one, and an end banner above the start banner is taken all the same. *)
Theorem find_banners_first intlines :
  find_banners intlines
  = Banners (first_index (contains editstartstr) 0 intlines)
            (List.existsb (contains editstartstr) intlines)
            (first_index (contains editendstr) 0 intlines)
            (List.existsb (contains editendstr) intlines).
Proof.
  unfold find_banners. rewrite banner_loop_first.
  cbn [startcheck endcheck editstartnum editendnum orb].
  now destruct (first_index (contains editstartstr) 0 intlines),
               (first_index (contains editendstr) 0 intlines).
Qed.

Lemma scan_bounded_first i s e l : forall num,
  match scan_bounded i s e num l with
  | KLine n =>
      num <= n /\ s <= n <= e
      /\ (exists x, List.nth_error l (n - num) = Some x /\ contains i x = true)
      /\ forall m y, num <= m < n -> s <= m ->
           List.nth_error l (m - num) = Some y -> contains i y = false
  | KNA =>
      forall m y, num <= m -> s <= m <= e ->
        List.nth_error l (m - num) = Some y -> contains i y = false
  | KNone => False
  end.
Proof.
  induction l as [|x l IH]; intros num.
  - cbn [scan_bounded]. intros m y _ _ Hy. now destruct (m - num).
  - cbn [scan_bounded].
    destruct ((s <=? num)%nat && (num <=? e)%nat && contains i x) eqn:E.
    + apply andb_true_iff in E as [E Hx]. apply andb_true_iff in E as [Hs He].
      apply Nat.leb_le in Hs, He.
      split; [lia | split; [lia | split]].
      * exists x. now rewrite Nat.sub_diag.
      * intros m y Hm. lia.
    + specialize (IH (S num)).
      destruct (scan_bounded i s e (S num) l) as [| n |].
      * exact IH.
      * destruct IH as (Hn & Hb & (y & Hy & Hc) & Hfirst).
        split; [lia | split; [lia | split]].
        -- exists y. replace (n - num) with (S (n - S num)) by lia. now cbn.
        -- intros m z Hm Hsm Hz.
           destruct (Nat.eq_dec m num) as [-> | Hne].
           ++ rewrite Nat.sub_diag in Hz. cbn in Hz. injection Hz as <-.
              destruct (contains i x); [| reflexivity].
              rewrite andb_true_r in E. apply andb_false_iff in E.
              destruct E as [E | E]; apply Nat.leb_gt in E; lia.
           ++ apply (Hfirst m z); [lia | lia |].
              replace (m - num) with (S (m - S num)) in Hz by lia. exact Hz.
      * intros m z Hm Hsm Hz.
        destruct (Nat.eq_dec m num) as [-> | Hne].
        -- rewrite Nat.sub_diag in Hz. cbn in Hz. injection Hz as <-.
           destruct (contains i x); [| reflexivity].
           rewrite andb_true_r in E. apply andb_false_iff in E.
           destruct E as [E | E]; apply Nat.leb_gt in E; lia.
        -- apply (IH m z); [lia | lia |].
           replace (m - num) with (S (m - S num)) in Hz by lia. exact Hz.
Qed.


Lemma scan_fallback_first i l : forall cur n,
  scan_fallback i cur n l
  = match first_index (declares i) n l with
    | Some k => KLine k
    | None => match l with [] => cur | _ => KNA end
    end.
Proof.
  induction l as [|x l IH]; intros cur n; [reflexivity |].
  cbn [scan_fallback first_index]. unfold declares at 1.
  destruct (contains i x); cbn [andb].
  - destruct (contains "#" x); cbn [negb orb]; [| reflexivity].
    destruct (find "#" x ?= find i x)%Z eqn:C.
    + apply Z.compare_eq in C. rewrite C, Z.ltb_irrefl.
      unfold Z.gtb. rewrite Z.compare_refl.
      rewrite IH. now destruct (first_index _ _ _), l.
    + pose proof C as C'. apply Z.compare_lt_iff, Z.ltb_lt in C'. rewrite C'.
      unfold Z.gtb. rewrite C.
      rewrite IH. now destruct (first_index _ _ _), l.
    + pose proof C as C'. apply Z.compare_gt_iff in C'.
      assert (Hlt : (find "#" x <? find i x)%Z = false) by (apply Z.ltb_ge; lia).
      rewrite Hlt. unfold Z.gtb. now rewrite C.
  - rewrite IH. now destruct (first_index _ _ _), l.
Qed.

(** X8.  Without a start banner, a key is found at the first line of the
    whole file that contains its label with no [#] before it; in a file that
    has at least one line it is marked ['N/A'] exactly when there is no such
    line. *)
Theorem scan_fallback_finds_first i intlines :
  scan_fallback i KNone 0 intlines
  = match first_index (declares i) 0 intlines with
    | Some k => KLine k
    | None => match intlines with [] => KNone | _ => KNA end
    end.
Proof. apply scan_fallback_first. Qed.

Lemma first_index_none p l : forall n,
  (forall x, In x l -> p x = false) -> first_index p n l = None.
Proof.
  induction l as [|x l IH]; intros n Hp; [reflexivity |].
  cbn [first_index]. rewrite (Hp x) by now left.
  apply IH. intros y Hy. apply Hp. now right.
Qed.

Lemma scan_fallback_absent i intlines :
  intlines <> [] -> (forall x, In x intlines -> contains i x = false) ->
  scan_fallback i KNone 0 intlines = KNA.
Proof.
  intros Hne Hc. rewrite scan_fallback_first, first_index_none.
  - now destruct intlines.
  - intros x Hx. unfold declares. now rewrite (Hc x Hx).
Qed.

Lemma scan_bounded_absent i s e intlines :
  (forall x, In x intlines -> contains i x = false) ->
  scan_bounded i s e 0 intlines = KNA.
Proof.
  intros Hc. pose proof (scan_bounded_first i s e intlines 0) as G.
  destruct (scan_bounded i s e 0 intlines) as [| n |]; [contradiction | | reflexivity].
  destruct G as (_ & _ & (x & Hx & Hi) & _).
  apply List.nth_error_In in Hx. rewrite (Hc x Hx) in Hi. discriminate.
Qed.

Lemma locate_keywords_absent intlines k :
  intlines <> [] -> (forall x, In x intlines -> contains k x = false) ->
  exists out f,
    locate_keywords intlines = (out, Done (List.map (fun i => (i, f i)) keywords))
    /\ f k = KNA.
Proof.
  intros Hne Hc. unfold locate_keywords.
  destruct (falsy (editstartnum (find_banners intlines)));
    destruct (falsy (editendnum (find_banners intlines)));
    eexists; eexists (fun i => _); (split; [reflexivity |]); cbv beta.
  1-2: now apply scan_fallback_absent.
  all: now apply scan_bounded_absent.
Qed.

Lemma missing_keys_map f l k :
  In k l -> f k = KNA -> In k (missing_keys (List.map (fun i => (i, f i)) l)).
Proof.
  intros Hk Hf. unfold missing_keys. apply List.in_map_iff.
  exists (k, f k). split; [reflexivity |].
  apply List.filter_In. split; [| cbn; now rewrite Hf].
  apply List.in_map_iff. now exists k.
Qed.

(** X9.  A key whose label stands on no line of a file that is not empty
    ends the program before any value is read: the formatting message is
    printed, the key is named in the list under it, and the program leaves
    through [sys.exit()], with or without the banners. *)
Theorem load_missing_key_exits `{Runtime} intlines k :
  intlines <> [] -> In k keywords ->
  (forall line, In line intlines -> contains k line = false) ->
  outcome (load intlines) = Exit
  /\ In KeywordsNotFound (printed (load intlines))
  /\ In (MissingKey k) (printed (load intlines)).
Proof.
  intros Hne Hk Hc.
  destruct (locate_keywords_absent intlines k Hne Hc) as (out & f & E & Hf).
  pose proof (missing_keys_map f keywords k Hk Hf) as Hin.
  rewrite (load_reports_missing_keys intlines out _ E)
    by (intros E0; rewrite E0 in Hin; exact Hin).
  cbn [outcome printed fst snd]. split; [reflexivity |].
  split; apply List.in_or_app; left; apply List.in_or_app; right.
  - now left.
  - right. now apply List.in_map.
Qed.

Lemma load_missing_key_exits_witness :
  outcome (load (H := demo_runtime) ["Integration parameters and setup."; "Poni file: a.poni"])
  = Exit
  /\ In KeywordsNotFound
       (printed (load (H := demo_runtime)
          ["Integration parameters and setup."; "Poni file: a.poni"]))
  /\ In (MissingKey k_maskf)
       (printed (load (H := demo_runtime)
          ["Integration parameters and setup."; "Poni file: a.poni"])).
Proof.
  apply (load_missing_key_exits (H := demo_runtime)
           ["Integration parameters and setup."; "Poni file: a.poni"] k_maskf).
  - discriminate.
  - vm_compute. tauto.
  - intros line [<- | [<- | []]]; reflexivity.
Defined.

(** ** Reading the value on a line (lines 800-853) *)

Lemma split_two c sep s :
  contains (String c sep) s = true ->
  exists a b rest, split (String c sep) s = a :: b :: rest.
Proof.
  unfold split. induction s as [|d s IH]; intros Hc; [discriminate |].
  cbn [contains] in Hc. cbn [split_go].
  destruct (startswith (String c sep) (String d s)) eqn:Hs.
  - pose proof (split_go_nonempty (String c sep) s (String.length (String c sep) - 1)) as Hne.
    destruct (split_go (String c sep) (String.length (String c sep) - 1) s) as [|b rest];
      [contradiction |].
    now exists EmptyString, b, rest.
  - cbn [orb] in Hc. destruct (IH Hc) as (a & b & rest & E). rewrite E.
    now exists (String d a), b, rest.
Qed.

Lemma contains_char_free c s :
  contains (String c EmptyString) s = negb (free_of (is_char c) s).
Proof.
  induction s as [|a s IH]; [reflexivity |].
  cbn [contains startswith free_of forallb]. fold (free_of (is_char c) s).
  rewrite IH. unfold is_char. rewrite (Ascii.eqb_sym a c).
  now destruct (Ascii.eqb c a), (free_of (is_char c) s).
Qed.

Lemma take_until_stops c s : free_of (is_char c) (take_until c s) = true.
Proof.
  induction s as [|a s IH]; [reflexivity |]. cbn [take_until].
  destruct (Ascii.eqb a c) eqn:E; [reflexivity |].
  cbn [free_of forallb]. unfold is_char at 1. rewrite E. exact IH.
Qed.

Lemma free_of_lstrip p f s : free_of p s = true -> free_of p (lstrip_by f s) = true.
Proof.
  induction s as [|a s IH]; intros Hs; [reflexivity |]. cbn [lstrip_by].
  destruct (f a); [| exact Hs].
  cbn [free_of forallb] in Hs. apply andb_true_iff in Hs as [_ Hs]. now apply IH.
Qed.

Lemma free_of_rstrip p f s : free_of p s = true -> free_of p (rstrip_by f s) = true.
Proof.
  induction s as [|a s IH]; intros Hs; [reflexivity |]. cbn [rstrip_by].
  cbn [free_of forallb] in Hs. apply andb_true_iff in Hs as [Ha Hs].
  destruct (is_empty (rstrip_by f s) && f a); [reflexivity |].
  cbn [free_of forallb]. rewrite Ha. now apply IH.
Qed.

Lemma rstrip_by_idem f s : rstrip_by f (rstrip_by f s) = rstrip_by f s.
Proof.
  induction s as [|a s IH]; [reflexivity |]. cbn [rstrip_by].
  destruct (is_empty (rstrip_by f s) && f a) eqn:E; [reflexivity |].
  cbn [rstrip_by]. now rewrite IH, E.
Qed.

Lemma rstrip_lstrip f t : rstrip_by f t = t -> rstrip_by f (lstrip_by f t) = lstrip_by f t.
Proof.
  induction t as [|a t IH]; intros Ht; [reflexivity |]. cbn [lstrip_by].
  destruct (f a) eqn:Ha; [| exact Ht].
  apply IH. cbn [rstrip_by] in Ht.
  destruct (is_empty (rstrip_by f t) && f a); [discriminate |].
  now injection Ht.
Qed.

Lemma lstrip_by_idem f s : lstrip_by f (lstrip_by f s) = lstrip_by f s.
Proof.
  induction s as [|a s IH]; [reflexivity |]. cbn [lstrip_by].
  destruct (f a) eqn:Ha; [exact IH |]. cbn [lstrip_by]. now rewrite Ha.
Qed.

Lemma strip_by_idem f s : strip_by f (strip_by f s) = strip_by f s.
Proof.
  unfold strip_by.
  rewrite (rstrip_lstrip f (rstrip_by f s)) by apply rstrip_by_idem.
  apply lstrip_by_idem.
Qed.

Lemma uncomment_clean v :
  contains "#" (uncomment v) = false /\ strip (uncomment v) = uncomment v.
Proof.
  unfold uncomment, strip. split; [| apply strip_by_idem].
  rewrite contains_char_free. apply negb_false_iff.
  unfold strip_by. apply free_of_lstrip, free_of_rstrip.
  destruct (contains "#" v) eqn:E.
  - rewrite split_char_hd. apply take_until_stops.
  - rewrite contains_char_free in E. now apply negb_false_iff in E.
Qed.

Lemma second_of_split c sep s :
  if contains (String c sep) s
  then exists v, second (split (String c sep) s) = ([], Done v)
  else second (split (String c sep) s) = ([], Raised IndexError).
Proof.
  destruct (contains (String c sep) s) eqn:E.
  - destruct (split_two c sep s E) as (a & b & rest & ->). now exists b.
  - now rewrite (split_absent _ _ E).
Qed.

(** X10.  Reading a value prints nothing.  The value that is read holds no
    [#] and no whitespace at either end.  The read raises [IndexError]
    exactly when the line, newlines at its ends apart, does not hold the
    text it is split at: a colon, or for the three paths the key followed
    at once by a colon. *)
Theorem line_value_result k line :
  let sep := if in_list k path_keywords then k ++ ":" else ":" in
  if contains sep (strip_chars nl line)
  then exists v, line_value k line = ([], Done v)
                 /\ contains "#" v = false /\ strip v = v
  else line_value k line = ([], Raised IndexError).
Proof.
  unfold line_value, value_after_key, value_after_colon.
  destruct (in_list k path_keywords); cbv zeta.
  - assert (E : exists c sep, k ++ ":" = String c sep)
      by (destruct k as [|c k]; [now exists ":"%char, EmptyString
                                | exists c, (k ++ ":"); apply append_cons]).
    destruct E as (c & sep & ->).
    pose proof (second_of_split c sep (strip_chars nl line)) as G.
    destruct (contains (String c sep) (strip_chars nl line)).
    + destruct G as [v ->]. exists (uncomment v). split; [reflexivity |].
      apply uncomment_clean.
    + now rewrite G.
  - pose proof (second_of_split ":" EmptyString (strip_chars nl line)) as G.
    destruct (contains ":" (strip_chars nl line)).
    + destruct G as [v ->]. exists (uncomment v). split; [reflexivity |].
      apply uncomment_clean.
    + now rewrite G.
Qed.

(** ** The ranges and the automask value (lines 291-400 and 900-996) *)

Section CoercionMore.
Context `{Runtime}.

Ltac run_simpl :=
  cbn [mbind mret run_bind run_ret print raise sys_exit outcome printed
       fst snd List.app negb is_none try_except_TypeError].

Lemma check_pair_cases name raw :
  match outcome (check_pair name raw) with
  | Done v => v = PNone \/ py_len v = Some 0 \/ numeric_bounds v
  | Exit => False
  | Raised e => True
  end.
Proof.
  unfold check_pair, eval_literal, len, getitem.
  destruct (literal_eval raw) as [e | v]; run_simpl; [exact I |].
  destruct v eqn:Ev; run_simpl; try (left; reflexivity).
  all: rewrite <- Ev.
  all: destruct (py_len v) as [n |] eqn:El; run_simpl; [| exact I].
  all: destruct (1 <? n)%nat eqn:E1; run_simpl.
  all: try (destruct (n =? 1)%nat eqn:E2; run_simpl; [now left |];
            right; left; rewrite El; f_equal;
            apply Nat.ltb_ge in E1; apply Nat.eqb_neq in E2; lia).
  all: destruct (py_getitem v 0) as [e0 | x0] eqn:E0; run_simpl; [exact I |].
  all: destruct (is_float_or_int x0) eqn:F0; run_simpl; [| now left].
  all: rewrite Ev; run_simpl; rewrite <- Ev.
  all: destruct (py_getitem v 1) as [e1 | x1] eqn:E1'; run_simpl; [exact I |].
  all: destruct (is_float_or_int x1) eqn:F1; run_simpl; [| now left].
  all: right; right; exists n, x0, x1; apply Nat.ltb_lt in E1;
    repeat split; try assumption; lia.
Qed.

Lemma try_except_cases {A} (body handler : run A) :
  outcome (try_except_TypeError body handler)
  = match outcome body with
    | Raised TypeError => outcome handler
    | r => r
    end.
Proof.
  destruct body as [out [a | | e]]; try reflexivity.
  destruct e; try reflexivity. cbn. now destruct handler.
Qed.

Lemma check_range_outcome name raw :
  match outcome (check_range name raw) with
  | Done v => v = PNone \/ py_len v = Some 0 \/ numeric_bounds v
  | Exit => False
  | Raised e => e <> TypeError /\ has_digit raw = true
  end.
Proof.
  unfold check_range.
  destruct (is_empty raw); [now left |].
  destruct (String.eqb raw "none" || String.eqb (lower raw) "none"); [now left |].
  destruct (has_digit raw); [| now left].
  rewrite try_except_cases.
  pose proof (check_pair_cases name raw) as G.
  destruct (outcome (check_pair name raw)) as [v | | e]; [exact G | exact G |].
  destruct e; try (split; [discriminate | reflexivity]).
  now left.
Qed.

(** X11.  Whatever is typed or read for a range, the check ends with
    [None], with an empty container, or with a value of at least two items
    whose first two items are numbers ([float] or [int], not [bool]); items
    after the second are not looked at.  The check never leaves through
    [sys.exit()]; a [TypeError] is always caught, and any other exception of
    [ast.literal_eval] or of the indexing leaves the program. *)
Theorem check_range_result name raw :
  match outcome (check_range name raw) with
  | Done v => v = PNone \/ py_len v = Some 0 \/ numeric_bounds v
  | Exit => False
  | Raised e => e <> TypeError /\ has_digit raw = true
  end.
Proof. apply check_range_outcome. Qed.

Lemma convert_neg_mask_cases raw :
  match outcome (convert_neg_mask raw) with
  | Done v => v = PNone \/ exists f, v = PFloat f
  | Exit => False
  | Raised e =>
      literal_eval raw = inl e
      \/ (exists s, literal_eval raw = inr (PStr s) /\ has_digit s = true
            /\ e = match float_of_str s with
                    | Some _ => AttributeError
                    | None => ValueError
                    end)
      \/ (exists z, literal_eval raw = inr (PInt z) /\ float_of_int z = None
            /\ e = OverflowError)
  end.
Proof.
  unfold convert_neg_mask, eval_literal.
  destruct (literal_eval raw) as [e | v]; run_simpl; [now left |].
  destruct v; run_simpl; try (right; eexists; reflexivity); try (now left).
  - destruct (float_of_int z) as [f |] eqn:Ef; run_simpl.
    + right. now exists f.
    + right. right. now exists z.
  - destruct (has_digit s) eqn:Ed; run_simpl.
    + destruct (float_of_str s) as [f |] eqn:Ef; run_simpl.
      * right. left. exists s. now rewrite Ef.
      * right. left. exists s. now rewrite Ef.
    + destruct (in_list s neg_mask_accepted || in_list (lower s) neg_mask_accepted);
        run_simpl; right; eexists; reflexivity.
Qed.

Lemma check_neg_mask_outcome raw :
  match check_neg_mask raw with
  | (out, Done v) =>
      v = PNone \/ (exists f, v = PFloat f)
      \/ (v = PStr raw /\ out = [] /\ has_digit raw = false /\ lower raw <> "none")
  | (_, Exit) => False
  | (_, Raised e) => e <> TypeError /\ has_digit raw = true
  end.
Proof.
  unfold check_neg_mask.
  destruct (is_empty raw); [right; left; eexists; reflexivity |].
  destruct (String.eqb raw "none" || String.eqb (lower raw) "none") eqn:En; [now left |].
  destruct (has_digit raw).
  - pose proof (try_except_cases (convert_neg_mask raw)
                  (print NegMaskNotAccepted;; mret (PFloat d_neg_mask))) as T.
    pose proof (convert_neg_mask_cases raw) as G.
    unfold outcome in T, G.
    destruct (try_except_TypeError _ _) as [out r]. cbn [snd] in T. subst r.
    destruct (convert_neg_mask raw) as [out' [v | | e]]; cbn [snd] in *.
    + destruct G as [-> | [f ->]]; [now left | right; left; now exists f].
    + exact G.
    + destruct e; try (split; [discriminate | reflexivity]).
      cbn. right. left. eexists. reflexivity.
  - right. right. repeat split.
    apply orb_false_iff in En as [_ En]. now apply String.eqb_neq in En.
Qed.

(** X12.  Whatever is typed or read for the automask value, the check ends
    with [None], with a [float], or - for text without a digit that is not
    [none] - with that very text, unchanged and without a message.  It never
    leaves through [sys.exit()] and never with a [TypeError]. *)
Theorem check_neg_mask_result raw :
  match check_neg_mask raw with
  | (out, Done v) =>
      v = PNone \/ (exists f, v = PFloat f)
      \/ (v = PStr raw /\ out = [] /\ has_digit raw = false /\ lower raw <> "none")
  | (_, Exit) => False
  | (_, Raised e) => e <> TypeError /\ has_digit raw = true
  end.
Proof. apply check_neg_mask_outcome. Qed.

(** X13.  A quoted text with a digit in it is never converted: the message
    that it is being converted is printed, and then [float] raises
    [ValueError], or - when [float] can read the text - the test that
    follows calls [lower] on the number and raises [AttributeError]. *)
Theorem quoted_number_never_converted raw s :
  has_digit raw = true -> lower raw <> "none" ->
  literal_eval raw = inr (PStr s) -> has_digit s = true ->
  check_neg_mask raw
  = ([NegMaskStrNumber],
     Raised match float_of_str s with
            | Some _ => AttributeError
            | None => ValueError
            end).
Proof.
  intros Hd Hn Hl Hs. unfold check_neg_mask.
  assert (Hne : is_empty raw = false) by (destruct raw; [discriminate | reflexivity]).
  rewrite Hne.
  assert (Hr : String.eqb raw "none" = false).
  { apply String.eqb_neq. intros ->. discriminate. }
  apply String.eqb_neq in Hn. rewrite Hr, Hn, Hd. cbn [orb].
  unfold convert_neg_mask, eval_literal. rewrite Hl. run_simpl. rewrite Hs.
  destruct (float_of_str s); reflexivity.
Qed.

End CoercionMore.

Lemma quoted_number_never_converted_witness :
  check_neg_mask (H := quoting_runtime) "'5e-1'"
  = ([NegMaskStrNumber], Raised AttributeError)
  /\ check_neg_mask (H := quoting_runtime) "'1 px'"
     = ([NegMaskStrNumber], Raised ValueError).
Proof.
  split.
  - apply (quoted_number_never_converted (H := quoting_runtime) "'5e-1'" "5e-1");
      [reflexivity | discriminate | reflexivity | reflexivity].
  - apply (quoted_number_never_converted (H := quoting_runtime) "'1 px'" "1 px");
      [reflexivity | discriminate | reflexivity | reflexivity].
Defined.

(** ** Loading a file whose text outside the editable block is free *)

Lemma first_index_skip p pre : forall n l,
  List.Forall (fun x => p x = false) pre ->
  first_index p n (pre ++ l)%list = first_index p (n + List.length pre) l.
Proof.
  induction pre as [|x pre IH]; intros n l Hpre.
  - cbn. now rewrite Nat.add_0_r.
  - apply List.Forall_cons_iff in Hpre as [Hx Hpre].
    cbn [List.app first_index List.length]. rewrite Hx, (IH _ _ Hpre).
    f_equal. lia.
Qed.

Lemma first_index_ge p l : forall n k, first_index p n l = Some k -> n <= k.
Proof.
  induction l as [|x l IH]; intros n k; [discriminate |].
  cbn [first_index]. destruct (p x).
  - intros [= <-]. lia.
  - intros Hk. apply IH in Hk. lia.
Qed.

Section BlockLoad.
Context `{Runtime}.
Variable c : config.
Variables hd tail : list string.
Hypothesis Hvalid : valid_config c.
Hypothesis Hhd : hd <> [].
Hypothesis Hfree : List.Forall no_banner hd.

Let h := List.length hd.
Let lines := (hd ++ block c ++ tail)%list.

Ltac open_clean :=
  destruct (valid_clean_values c Hvalid) as [Hcl Hco];
  unfold printed_values in Hcl;
  repeat match goal with
         | Hf : List.Forall _ (_ :: _) |- _ =>
             let Hv := fresh "Hv" in
             apply List.Forall_cons_iff in Hf; destruct Hf as [Hv Hf]
         end.

Ltac no_text :=
  match goal with
  | |- contains _ (kv_line _ _) = false =>
      rewrite contains_kv_line by reflexivity;
      apply clean_reserved; [assumption | cbn; tauto]
  | |- _ => vm_compute; reflexivity
  end.

Lemma block_banners :
  exists e ec,
    find_banners lines = Banners (Some h) true e ec
    /\ (e = None \/ exists k, e = Some k /\ h + 16 <= k).
Proof.
  open_clean.
  unfold find_banners. rewrite banner_loop_first.
  cbn [startcheck endcheck editstartnum editendnum orb].
  do 2 eexists. split.
  - f_equal.
    + unfold lines. rewrite first_index_skip.
      * reflexivity.
      * eapply List.Forall_impl; [| exact Hfree]. now intros x [Hs _].
    + unfold lines. rewrite List.existsb_app, List.existsb_app.
      cbn. apply orb_true_r.
  - unfold lines. rewrite first_index_skip
      by (eapply List.Forall_impl; [| exact Hfree]; now intros x [_ He]).
    rewrite first_index_skip.
    + destruct (first_index (contains editendstr) _ tail) as [k |] eqn:E;
        [right | now left].
      exists k. split; [reflexivity |]. apply first_index_ge in E.
      cbn in E. fold h in E. lia.
    + unfold block, body. cbn [List.firstn].
      repeat (apply List.Forall_cons; [no_text |]). apply List.Forall_nil.
Qed.

Lemma block_scan k n v e :
  In k keywords ->
  List.nth_error (block c) n = Some (kv_line k v) ->
  List.Forall (fun line => contains k line = false) (List.firstn n (block c)) ->
  h + 15 <= e ->
  scan_bounded k h e 0 lines = KLine (h + n).
Proof.
  intros Hk Hn Hpre He.
  assert (Hlt : n < List.length (block c))
    by (apply List.nth_error_Some; rewrite Hn; discriminate).
  change (List.length (block c)) with 16 in Hlt.
  unfold lines. rewrite scan_bounded_skip by (fold h; lia).
  change (0 + List.length hd) with h.
  apply (scan_bounded_at k h e n h (block c ++ tail)%list (kv_line k v)).
  - rewrite List.nth_error_app1; [exact Hn | cbn; lia].
  - rewrite List.firstn_app.
    replace (n - List.length (block c)) with 0 by (cbn; lia).
    cbn [List.firstn]. now rewrite List.app_nil_r.
  - apply contains_own_line.
  - lia.
  - lia.
Qed.

Lemma block_keywords :
  exists out, locate_keywords lines = (out, Done (block_dict h)).
Proof.
  destruct block_banners as (e & ec & Hb & He).
  assert (Hh : falsy (Some h) = false).
  { unfold h. destruct hd; [contradiction | reflexivity]. }
  assert (Hdict : forall E, h + 15 <= E ->
            List.map (fun i => (i, scan_bounded i h E 0 lines)) keywords
            = block_dict h).
  { intros E HE. unfold block_dict, keywords. cbn [List.map List.combine].
    open_clean.
    repeat f_equal;
    match goal with
    | |- scan_bounded ?k _ _ _ _ = KLine (_ + ?n) =>
        eapply (block_scan k n);
        [cbn; tauto | reflexivity
         | unfold block, body; cbn [List.firstn];
           repeat (apply List.Forall_cons; [no_text |]); apply List.Forall_nil
         | exact HE]
    end. }
  unfold locate_keywords. rewrite Hb.
  cbn [editstartnum editendnum]. rewrite Hh.
  destruct He as [-> | (k & -> & Hk)].
  - cbn [falsy default mbind run_bind mret run_ret print List.app].
    eexists. f_equal. f_equal. apply Hdict.
    unfold lines. rewrite !List.length_app. fold h. cbn. lia.
  - assert (Hk' : falsy (Some k) = false) by (destruct k; [lia | reflexivity]).
    rewrite Hk'. cbn [default mbind run_bind mret run_ret print List.app id].
    eexists. f_equal. f_equal. apply Hdict. lia.
Qed.

Lemma raw_value_block k n v :
  In k keywords ->
  List.find (fun p => String.eqb (fst p) k) (block_dict h) = Some (k, KLine (h + n)) ->
  List.nth_error (block c) n = Some (kv_line k v) ->
  clean v = true ->
  (In k path_keywords \/ colon_free v = true) ->
  raw_value lines (block_dict h) k = ([], Done v).
Proof.
  intros Hk Hd Hn Hc Hcol. unfold raw_value, keyword_line. rewrite Hd.
  assert (Hlt : n < List.length (block c))
    by (apply List.nth_error_Some; rewrite Hn; discriminate).
  change (List.length (block c)) with 16 in Hlt.
  unfold lines. rewrite List.nth_error_app2 by (fold h; lia).
  fold h. replace (h + n - h) with n by lia.
  rewrite List.nth_error_app1 by (cbn; lia). rewrite Hn.
  cbn [mbind run_bind mret run_ret]. rewrite (line_value_kv k v Hk Hc Hcol).
  reflexivity.
Qed.

Lemma load_block_outcome :
  outcome (load lines) = Done (normalize c, image_extension_of (synsrc c)).
Proof.
  destruct block_keywords as [out0 Hkeys].
  pose proof (valid_clean_values c Hvalid) as Hclean.
  destruct Hclean as [Hcl Hco].
  destruct Hvalid as [Hsrc _ _ Hpf Hpt (m & Hm & _ & Hmf & Hmt)
                        Hint Hunit Hrr Har Hnm Herr].
  unfold printed_values in Hcl. rewrite Hm in Hcl. cbn [str_maskf] in Hcl.
  repeat match goal with
         | Hf : List.Forall _ (_ :: _) |- _ =>
             let Hv := fresh "Hv" in
             apply List.Forall_cons_iff in Hf; destruct Hf as [Hv Hf]
         end.
  unfold load.
  rewrite (outcome_bind _ _ _ _ Hkeys).
  rewrite (outcome_bind (check_keywords (block_dict h)) _ [] tt eq_refl).
  repeat match goal with
         | |- outcome (raw_value _ _ ?k ≫= _) = _ =>
             erewrite (outcome_bind (raw_value _ _ k));
             [| eapply (raw_value_block k);
                [cbn; tauto | reflexivity
                 | unfold block, body; rewrite ?Hm; reflexivity
                 | assumption
                 | first [left; cbn; tauto | right; assumption]]]
         end.
  rewrite (outcome_bind _ _ _ _ (check_poni_valid _ Hpf Hpt)).
  rewrite (outcome_bind _ _ _ _ (check_mask_valid _ Hmf Hmt)).
  assert (Hs : check_synsrc (synsrc c) = ([], Done (image_extension_of (synsrc c)))).
  { cbn in Hsrc. destruct Hsrc as [<- | [<- | [<- | []]]]; reflexivity. }
  rewrite (outcome_bind _ _ _ _ Hs).
  assert (Hi : load_intmethod (intmethod c) = ([], Done (intmethod c))).
  { cbn in Hint. repeat destruct Hint as [<- | Hint]; try reflexivity. destruct Hint. }
  rewrite (outcome_bind _ _ _ _ Hi).
  assert (Hu : load_xunit (xunit c) = ([], Done (lower (xunit c)))).
  { cbn in Hunit. repeat destruct Hunit as [<- | Hunit]; try reflexivity. destruct Hunit. }
  rewrite (outcome_bind _ _ _ _ Hu).
  assert (Hp : load_rad_points (str_int (rad_points c)) = ([], Done (rad_points c))).
  { unfold load_rad_points. now rewrite py_int_str_int. }
  rewrite (outcome_bind _ _ _ _ Hp).
  rewrite (outcome_bind _ _ _ _ (check_range_valid "rad_range" _ Hrr)).
  rewrite (outcome_bind _ _ _ _ (check_range_valid "azim_range" _ Har)).
  rewrite (outcome_bind _ _ _ _ (check_neg_mask_valid _ Hnm)).
  assert (He : check_errormodel (errormodel c)
               = ([ErrorModelAccepted (errormodel c)], Done (lower (errormodel c)))).
  { cbn in Herr. repeat destruct Herr as [<- | Herr]; try reflexivity. destruct Herr. }
  rewrite (outcome_bind _ _ _ _ He).
  unfold normalize. rewrite Hm. reflexivity.
Qed.

End BlockLoad.

(** The example configuration is valid. *)
Ltac demo_config_is_valid :=
  constructor; try reflexivity; try (cbn; tauto);
  [ exists "/data/calib/mask.edf"; repeat split; reflexivity
  | right; split; [| repeat split; reflexivity];
    exists (PFloat (5, -1)%Z), (PFloat (154, -1)%Z); repeat split; now left
  | now left
  | right; split; [now exists (-1, -10)%Z | repeat split; reflexivity] ].

(** X14.  Only the editable block counts.  Whatever stands above the start
    banner - at least one line, none of them with a banner in it - and
    whatever stands below the line of the error model, the lines of a valid
    configuration between the two are read back as that configuration: the
    description may be rewritten or deleted, the notes may hold key labels,
    and the end banner may be missing. *)
Theorem load_reads_only_the_block `{Runtime} (c : config) hd tail :
  valid_config c -> hd <> [] -> List.Forall no_banner hd ->
  outcome (load (hd ++ block c ++ tail))
  = Done (normalize c, image_extension_of (synsrc c)).
Proof. intros Hv Hne Hfree. now apply load_block_outcome. Qed.

Lemma load_reads_only_the_block_witness :
  outcome (load (["# my settings" ++ nl] ++ block demo_config
                 ++ ["Poni file: /tmp/other.poni" ++ nl; "X unit: r_mm"]))
  = Done (normalize demo_config, ".tiff").
Proof.
  apply (load_reads_only_the_block demo_config ["# my settings" ++ nl]
           ["Poni file: /tmp/other.poni" ++ nl; "X unit: r_mm"]).
  - demo_config_is_valid.
  - discriminate.
  - repeat constructor.
Defined.

(** *** The record file *)

Lemma readlines_nl_nonempty a : readlines (a ++ nl) <> [].
Proof.
  induction a as [|c a IH].
  - discriminate.
  - rewrite append_cons. cbn [readlines].
    destruct (Ascii.eqb c (chr 10)); [discriminate |].
    destruct (Ascii.eqb c (chr 13)).
    + destruct (startswith nl (a ++ nl)); [exact IH | discriminate].
    + destruct (readlines (a ++ nl)); [contradiction | discriminate].
Qed.

Lemma startswith_nl_app a t :
  startswith nl ((a ++ nl) ++ t) = startswith nl (a ++ nl).
Proof.
  destruct a as [|d a].
  - rewrite append_nil_l. unfold nl. rewrite append_cons. cbn [startswith].
    reflexivity.
  - rewrite !append_cons. unfold nl at 1 3. cbn [startswith]. reflexivity.
Qed.

Lemma readlines_after_nl a t :
  readlines ((a ++ nl) ++ t) = (readlines (a ++ nl) ++ readlines t)%list.
Proof.
  induction a as [|c a IH].
  - rewrite append_nil_l. unfold nl at 1 2. rewrite append_cons, append_nil_l.
    cbn [readlines]. unfold chr. now rewrite Ascii.eqb_refl.
  - rewrite !append_cons. cbn [readlines]. rewrite IH, startswith_nl_app.
    destruct (Ascii.eqb c (chr 10)); [reflexivity |].
    destruct (Ascii.eqb c (chr 13)).
    + now destruct (startswith nl (a ++ nl)).
    + pose proof (readlines_nl_nonempty a) as Hne.
      destruct (readlines (a ++ nl)); [contradiction | reflexivity].
Qed.

Lemma seg_text_app a b : seg_text (a ++ b) = seg_text a ++ seg_text b.
Proof.
  induction a as [|[s |] a IH]; cbn [List.app seg_text].
  - now rewrite append_nil_l.
  - now rewrite IH, append_assoc.
  - now rewrite IH, append_assoc.
Qed.

Lemma readlines_segments_then l t :
  List.Forall (fun g => match g with
                        | Txt s => unbroken s = true
                        | NL => True
                        end) l ->
  List.last l (Txt EmptyString) = NL ->
  readlines (seg_text l ++ t) = (seg_lines l ++ readlines t)%list.
Proof.
  intros Hl Hlast. rewrite <- (readlines_segments l Hl).
  assert (Hne : l <> []) by (intros ->; discriminate).
  rewrite (List.app_removelast_last (Txt EmptyString) Hne), Hlast.
  rewrite seg_text_app. cbn [seg_text]. rewrite append_nil_r.
  apply readlines_after_nl.
Qed.

Section RecordFile.
Context `{Runtime}.
Variable c : config.
Variable dt : datetime.
Variables dirstoint intedimages : list string.
Hypothesis Hvalid : valid_config c.
Hypothesis Hline : one_line_values c.

Lemma record_text_segments :
  record_text c dt dirstoint intedimages
  = seg_text (record_segments c dt) ++ record_rest dirstoint intedimages.
Proof.
  unfold record_text, record_writes, record_segments, record_rest.
  cbn [String.concat List.app seg_text].
  unfold GI_statement, int_setup_statement, intprm_statement.
  rewrite ?append_nil_l, ?append_nil_r, !append_assoc.
  reflexivity.
Qed.

Lemma record_segments_lines :
  seg_lines (record_segments c dt) = (record_header dt ++ block c)%list.
Proof. reflexivity. Qed.

Lemma record_lines :
  readlines (record_text c dt dirstoint intedimages)
  = (record_header dt ++ block c
     ++ readlines (record_rest dirstoint intedimages))%list.
Proof.
  rewrite record_text_segments, readlines_segments_then;
    [now rewrite record_segments_lines, <- List.app_assoc | | reflexivity].
  pose proof (values_unbroken c Hvalid Hline) as Hcl.
  unfold printed_values in Hcl.
  repeat match goal with
         | Hf : List.Forall _ (_ :: _) |- _ =>
             let Hv := fresh "Hv" in
             apply List.Forall_cons_iff in Hf; destruct Hf as [Hv Hf]
         end.
  pose proof (date_unbroken _ (datestr_chars dt)).
  pose proof (date_unbroken _ (timestr_chars dt)).
  pose proof (date_unbroken _ (yearstr_chars dt)).
  unfold record_segments. cbn [List.app].
  repeat (apply List.Forall_cons; [first [exact I | assumption | reflexivity] |]).
  apply List.Forall_nil.
Qed.

Lemma record_header_no_banner : List.Forall no_banner (record_header dt).
Proof.
  pose proof (header_no_banner dt) as Hh.
  unfold record_header. apply List.Forall_cons; [split; vm_compute; reflexivity |].
  apply List.Forall_app. split.
  - apply Forall_take. unfold header in *. cbn [List.tl].
    now apply List.Forall_cons_iff in Hh as [_ Hh].
  - repeat (apply List.Forall_cons; [split; vm_compute; reflexivity |]).
    apply List.Forall_nil.
Qed.

Lemma load_record_outcome :
  outcome (load (readlines (record_text c dt dirstoint intedimages)))
  = Done (normalize c, image_extension_of (synsrc c)).
Proof.
  rewrite record_lines. apply load_block_outcome.
  - exact Hvalid.
  - discriminate.
  - apply record_header_no_banner.
Qed.

End RecordFile.

(** X15.  The record file is a configuration file too: loading the record
    written at the end of a run gives the configuration of that run, whatever
    the names of the folders and of the images listed in it - for a valid
    configuration whose paths and printed pairs and floats hold no carriage
    return, which would end the line.  Writing it replaces what the file
    held. *)
Theorem record_file_loads_back `{Runtime} (c : config) dt dirstoint intedimages
    (fs : files) path :
  valid_config c -> one_line_values c ->
  let fs' := save_record_file c fs path dt dirstoint intedimages in
  fs' !! path = Some (record_text c dt dirstoint intedimages)
  /\ outcome (load (readlines (record_text c dt dirstoint intedimages)))
     = Done (normalize c, image_extension_of (synsrc c)).
Proof.
  intros Hv Hl fs'. split; [| now apply load_record_outcome].
  unfold fs', save_record_file, close. rewrite lookup_insert_eq. f_equal.
  rewrite fold_write_data. unfold truncate, seek. cbn [h_data h_pos].
  now rewrite substring_0_0.
Qed.

Lemma record_file_loads_back_witness :
  save_record_file demo_config (<["/data/tiff/rec.txt" := "an older record"]> ∅)
    "/data/tiff/rec.txt" demo_date ["s1"] ["scan1.tiff"; "scan2.tiff"]
  !! "/data/tiff/rec.txt"
  = Some (record_text demo_config demo_date ["s1"] ["scan1.tiff"; "scan2.tiff"])
  /\ outcome (load (readlines (record_text demo_config demo_date ["s1"]
                                 ["scan1.tiff"; "scan2.tiff"])))
     = Done (normalize demo_config, ".tiff").
Proof.
  apply (record_file_loads_back demo_config demo_date ["s1"]
           ["scan1.tiff"; "scan2.tiff"]
           (<["/data/tiff/rec.txt" := "an older record"]> ∅) "/data/tiff/rec.txt").
  - demo_config_is_valid.
  - repeat constructor.
Defined.

(** ** The batch (lines 1257-1337) *)

Section BatchMore.
Context `{Runtime}.
Variable listdir : string -> option (list string).
Variable image_ok : string -> bool.
Variable process_ok : string -> string -> bool.
Variable c : config.
Variable image_extension tiff_dir : string.

Let step' := step listdir image_ok process_ok c image_extension tiff_dir.
Let steps' := steps listdir image_ok process_ok c image_extension tiff_dir.
Let ftoint' := ftoint listdir c image_extension tiff_dir.
Let planned := planned_images listdir c image_extension tiff_dir.

Lemma steps_add a : forall b s, steps' (a + b) s = steps' b (steps' a s).
Proof.
  induction a as [|a IH]; intros b s; [reflexivity |].
  cbn [Nat.add]. unfold steps' in *. cbn [steps]. apply IH.
Qed.

Lemma int_dir_exact fold :
  ~ In (synsrc c) ["NSLS-II"; "APS"; "SSRL"] -> int_dir c tiff_dir fold = None.
Proof.
  intros Hs. unfold int_dir.
  destruct (String.eqb_spec (synsrc c) "NSLS-II") as [E | _];
    [exfalso; apply Hs; cbn; auto |].
  destruct (String.eqb_spec (synsrc c) "APS") as [E | _];
    [exfalso; apply Hs; cbn; auto |].
  destruct (String.eqb_spec (synsrc c) "SSRL") as [E | _];
    [exfalso; apply Hs; cbn; auto |].
  reflexivity.
Qed.

Lemma numtiffstoint_total folds : forall acc n,
  numtiffstoint listdir c image_extension tiff_dir folds acc = inr n ->
  n = acc + List.length (planned folds)
  /\ List.Forall (fun fold => exists l, ftoint' fold = inr l) folds.
Proof.
  unfold planned, planned_images, ftoint'.
  induction folds as [|fold rest IH]; intros acc n Hn.
  - cbn in *. injection Hn as <-. split; [lia | constructor].
  - cbn [numtiffstoint List.flat_map] in *.
    destruct (ftoint listdir c image_extension tiff_dir fold) as [e | l] eqn:E;
      [discriminate |].
    apply IH in Hn as [-> Hrest]. rewrite List.length_app.
    split; [lia |]. constructor; [now exists l | exact Hrest].
Qed.

Section Success.
Variables (m e : string).
Hypothesis Hmask : fullmaskf c = Some m.
Hypothesis Hext : oneD_extension (errormodel c) (xunit c) = Some e.
Hypothesis Himg : forall p, image_ok p = true.
Hypothesis Hproc : forall p q, process_ok p q = true.

Lemma files_run fold d :
  int_dir c tiff_dir fold = Some d ->
  forall todo k imgs pats folds,
  exists pats',
    steps' (2 * List.length todo) (Batch k imgs pats, NextFile fold todo folds)
    = (Batch (k + List.length todo) (imgs ++ todo)%list pats', NextFile fold [] folds)
    /\ List.length pats' = List.length pats + List.length todo.
Proof.
  intros Hd. induction todo as [|file todo IH]; intros k imgs pats folds.
  - exists pats. cbn. rewrite Nat.add_0_r, List.app_nil_r. auto.
  - replace (2 * List.length (file :: todo)) with (S (S (2 * List.length todo)))
      by (cbn [List.length]; lia).
    unfold steps' in *. cbn [steps fst snd step totalintcount intedimages patterns].
    rewrite Hd, Himg, Hext, Hmask, Hproc. cbn [negb fst snd].
    destruct (IH (S k) (imgs ++ [file])%list
                (oneD_name c image_extension fold file e :: pats) folds)
      as (pats' & E & Hl).
    exists pats'. rewrite E. split.
    + f_equal. f_equal; [cbn [List.length]; lia | now rewrite <- List.app_assoc].
    + rewrite Hl. cbn [List.length]. lia.
Qed.

Lemma folds_run folds :
  List.Forall (fun fold => exists l, ftoint' fold = inr l) folds ->
  forall k imgs pats,
  exists fuel pats',
    steps' fuel (Batch k imgs pats, NextFold folds)
    = (Batch (k + List.length (planned folds)) (imgs ++ planned folds)%list pats',
       Finished)
    /\ List.length pats' = List.length pats + List.length (planned folds).
Proof.
  unfold planned, planned_images.
  induction 1 as [|fold rest [l Hl] _ IH]; intros k imgs pats.
  - exists 1, pats. cbn. rewrite Nat.add_0_r, List.app_nil_r. auto.
  - cbn [List.flat_map]. unfold ftoint' in Hl. rewrite Hl.
    assert (Hd : exists d, int_dir c tiff_dir fold = Some d).
    { unfold ftoint in Hl. destruct (int_dir c tiff_dir fold) as [d |];
        [now exists d | discriminate]. }
    destruct Hd as [d Hd].
    destruct (files_run fold d Hd l k imgs pats rest) as (pats1 & E1 & L1).
    destruct (IH (k + List.length l) (imgs ++ l)%list pats1) as (fuel & pats2 & E2 & L2).
    exists (1 + (2 * List.length l + (1 + fuel))), pats2.
    split.
    + rewrite (steps_add 1). unfold steps' at 2. cbn [steps fst snd step].
      rewrite Hl. rewrite steps_add. fold steps'. rewrite E1.
      rewrite (steps_add 1). unfold steps' at 2. cbn [steps fst snd step].
      fold steps'. rewrite E2. rewrite List.length_app, <- List.app_assoc.
      f_equal. f_equal. lia.
    + rewrite L2, L1, List.length_app. lia.
Qed.

Lemma batch_run dirstoint n :
  numtiffstoint listdir c image_extension tiff_dir dirstoint 0 = inr n ->
  exists fuel b,
    steps' fuel (start dirstoint) = (b, Finished)
    /\ totalintcount b = n
    /\ intedimages b = planned dirstoint
    /\ List.length (patterns b) = n.
Proof.
  intros Hn. apply numtiffstoint_total in Hn as [-> Hall].
  destruct (folds_run dirstoint Hall 0 [] []) as (fuel & pats & E & L).
  exists fuel, (Batch (List.length (planned dirstoint)) (planned dirstoint) pats).
  unfold start. rewrite E. cbn. auto.
Qed.

End Success.

Lemma maskless_step b p :
  fullmaskf c = None -> maskless (b, p) -> maskless (step' b p).
Proof.
  intros Hm. unfold maskless, step', step. destruct b as [n imgs pats].
  cbn [fst snd intedimages patterns totalintcount].
  destruct p as [[|fold folds] | fold [|file todo] folds | fold file todo folds | | e];
    cbn [fst snd intedimages patterns totalintcount];
    intros (Hi & Hp & Hn); try (repeat split; (assumption || lia)).
  - destruct (ftoint _ _ _ _ fold); cbn; repeat split; (assumption || lia).
  - destruct (int_dir c tiff_dir fold); cbn [fst snd intedimages patterns totalintcount];
      [| repeat split; (assumption || lia)].
    destruct (image_ok _); cbn [negb fst snd intedimages patterns totalintcount];
      [| repeat split; (assumption || lia)].
    destruct (oneD_extension _ _); cbn [fst snd intedimages patterns totalintcount];
      [| repeat split; (assumption || lia)].
    rewrite Hm. cbn. repeat split; (assumption || lia).
Qed.

Lemma maskless_reachable dirstoint s :
  fullmaskf c = None ->
  reachable listdir image_ok process_ok c image_extension tiff_dir dirstoint s ->
  maskless s.
Proof.
  intros Hm. induction 1 as [| b p _ IH].
  - unfold maskless, start. cbn. auto.
  - now apply maskless_step.
Qed.

End BatchMore.

(** X16.  When every folder can be listed, every image can be opened and
    integrated, there is a mask and the error model has an extension, the
    loops end normally; they have counted and recorded exactly the files
    whose name ends with the image extension, folder by folder in the order
    of the selection and in the order of each listing, and have written one
    pattern for each; the total is the number counted before the loops. *)
Theorem batch_integrates_every_image `{Runtime} listdir image_ok process_ok
    (c : config) image_extension tiff_dir dirstoint n m e :
  fullmaskf c = Some m ->
  oneD_extension (errormodel c) (xunit c) = Some e ->
  (forall p, image_ok p = true) ->
  (forall p q, process_ok p q = true) ->
  numtiffstoint listdir c image_extension tiff_dir dirstoint 0 = inr n ->
  exists fuel b,
    steps listdir image_ok process_ok c image_extension tiff_dir fuel (start dirstoint)
    = (b, Finished)
    /\ reported_total b = n
    /\ intedimages b = planned_images listdir c image_extension tiff_dir dirstoint
    /\ List.length (patterns b) = n.
Proof.
  intros Hm He Hi Hp Hn.
  exact (batch_run listdir image_ok process_ok c image_extension tiff_dir m e
           Hm He Hi Hp dirstoint n Hn).
Qed.

Lemma batch_integrates_every_image_witness :
  exists fuel b,
    steps demo_listing (fun _ => true) (fun _ _ => true) demo_config ".tiff"
      "/data/tiff" fuel (start ["s1"; "s2"])
    = (b, Finished)
    /\ reported_total b = 3
    /\ intedimages b
       = planned_images demo_listing demo_config ".tiff" "/data/tiff" ["s1"; "s2"]
    /\ List.length (patterns b) = 3.
Proof.
  apply (batch_integrates_every_image demo_listing (fun _ => true) (fun _ _ => true)
           demo_config ".tiff" "/data/tiff" ["s1"; "s2"] 3
           "/data/calib/mask.edf" ".xy");
    reflexivity.
Defined.

(** X17.  Without a mask no image is ever integrated: the variable that
    holds the mask is bound only when there is one, so the first image of
    the first folder that has one ends the program; nothing is recorded, no
    pattern is written, and the counter never passes 1. *)
Theorem no_mask_no_pattern `{Runtime} listdir image_ok process_ok
    (c : config) image_extension tiff_dir dirstoint b p :
  fullmaskf c = None ->
  reachable listdir image_ok process_ok c image_extension tiff_dir dirstoint (b, p) ->
  intedimages b = [] /\ patterns b = [] /\ totalintcount b <= 1
  /\ (p = Finished -> totalintcount b = 0).
Proof.
  intros Hm Hr.
  destruct (maskless_reachable listdir image_ok process_ok c image_extension
              tiff_dir dirstoint (b, p) Hm Hr) as (Hi & Hp & Hn).
  cbn [fst snd] in *.
  repeat split; try assumption.
  - destruct p; lia.
  - now intros ->.
Qed.

Lemma no_mask_no_pattern_witness :
  let s := steps (fun _ => Some ["a.tif"; "b.tif"]) (fun _ => true) (fun _ _ => true)
             demo_config_no_mask ".tif" "/data/tiff" 3 (start ["s1"]) in
  snd s = Crashed NameError
  /\ intedimages (fst s) = [] /\ patterns (fst s) = [] /\ totalintcount (fst s) <= 1
  /\ (snd s = Finished -> totalintcount (fst s) = 0).
Proof.
  intros s. split; [reflexivity |].
  apply (no_mask_no_pattern (fun _ => Some ["a.tif"; "b.tif"]) (fun _ => true)
           (fun _ _ => true) demo_config_no_mask ".tif" "/data/tiff" ["s1"]
           (fst s) (snd s)); [reflexivity |].
  rewrite <- surjective_pairing. apply reachable_steps.
Defined.

(** X18.  The load path accepts the data source in any case, but the batch
    compares it with the three exact spellings: with a source such as [aps]
    the directory of the first folder is never bound, and the count of the
    images ends the program with [NameError] before anything is
    integrated. *)
Theorem inexact_source_stops_batch `{Runtime} listdir (c : config)
    image_extension tiff_dir fold folds acc :
  In (lower (synsrc c)) ["nsls-ii"; "aps"; "ssrl"] ->
  ~ In (synsrc c) ["NSLS-II"; "APS"; "SSRL"] ->
  (exists ext, check_synsrc (synsrc c) = ([], Done ext))
  /\ numtiffstoint listdir c image_extension tiff_dir (fold :: folds) acc
     = inl NameError.
Proof.
  intros Hl Hs. split.
  - unfold check_synsrc. cbn in Hl.
    destruct Hl as [E | [E | [E | []]]]; rewrite <- E.
    + rewrite String.eqb_refl, orb_true_r. now exists ".tiff".
    + rewrite String.eqb_refl, !orb_true_r.
      destruct (_ || _); now eexists.
    + rewrite String.eqb_refl, !orb_true_r.
      destruct (_ || _); now eexists.
  - cbn [numtiffstoint]. unfold ftoint. now rewrite int_dir_exact.
Qed.

Lemma inexact_source_stops_batch_witness :
  (exists ext,
     check_synsrc (synsrc (Config demo_runtime "aps" "/data/1D" "/data/calib/geometry.poni"
                             (Some "/data/calib/mask.edf") "full" "2th_deg" 6000
                             PNone PNone PNone "none"))
     = ([], Done ext))
  /\ numtiffstoint demo_listing
       (Config demo_runtime "aps" "/data/1D" "/data/calib/geometry.poni"
          (Some "/data/calib/mask.edf") "full" "2th_deg" 6000 PNone PNone PNone "none")
       ".tif" "/data/tiff" ("s1" :: ["s2"]) 0
     = inl NameError.
Proof.
  apply (inexact_source_stops_batch demo_listing
           (Config demo_runtime "aps" "/data/1D" "/data/calib/geometry.poni"
              (Some "/data/calib/mask.edf") "full" "2th_deg" 6000 PNone PNone PNone "none")
           ".tif" "/data/tiff" "s1" ["s2"] 0).
  - cbn. tauto.
  - cbn. intros [E | [E | [E | []]]]; discriminate E.
Defined.

(** ** Paths: the name of the [.int] file and the folders chosen in the file
    browser (lines 117-134, 209-211 and 1231-1237) *)

Lemma split_char_app c a b :
  split (String c EmptyString) (a ++ String c b)
  = (split (String c EmptyString) a ++ split (String c EmptyString) b)%list.
Proof.
  unfold split. induction a as [|x a IH].
  - rewrite append_nil_l. cbn [split_go startswith String.length Nat.sub List.app].
    now rewrite Ascii.eqb_refl.
  - rewrite append_cons. cbn [split_go startswith String.length Nat.sub].
    rewrite IH. destruct (Ascii.eqb c x); cbn [andb]; [reflexivity |].
    pose proof (split_go_nonempty (String c EmptyString) a 0) as Hne.
    destruct (split_go (String c EmptyString) 0 a); [contradiction | reflexivity].
Qed.

Lemma join_cons_char sep x h t :
  join sep (String x h :: t) = String x (join sep (h :: t)).
Proof. destruct t; cbn [join]; [reflexivity | now rewrite append_cons]. Qed.

Lemma join_split_char c s :
  join (String c EmptyString) (split (String c EmptyString) s) = s.
Proof.
  unfold split. induction s as [|x s IH]; [reflexivity |].
  cbn [split_go startswith String.length Nat.sub].
  pose proof (split_go_nonempty (String c EmptyString) s 0) as Hne.
  destruct (Ascii.eqb c x) eqn:E; cbn [andb].
  - apply Ascii.eqb_eq in E. subst x.
    destruct (split_go (String c EmptyString) 0 s) as [|h t]; [contradiction |].
    change (join (String c EmptyString) (EmptyString :: h :: t))
      with (EmptyString ++ String c EmptyString ++ join (String c EmptyString) (h :: t)).
    rewrite IH. reflexivity.
  - destruct (split_go (String c EmptyString) 0 s) as [|h t]; [contradiction |].
    now rewrite join_cons_char, IH.
Qed.

Lemma join_snoc sep l x :
  l <> [] -> join sep (l ++ [x]) = join sep l ++ sep ++ x.
Proof.
  induction l as [|a l IH]; intros Hne; [contradiction |].
  destruct l as [|b l]; [reflexivity |].
  change ((a :: b :: l) ++ [x])%list with (a :: ((b :: l) ++ [x]))%list.
  change (join sep (a :: ((b :: l) ++ [x]))%list)
    with (a ++ sep ++ join sep ((b :: l) ++ [x])%list).
  rewrite IH by discriminate.
  change (join sep (a :: b :: l)) with (a ++ sep ++ join sep (b :: l)).
  now rewrite !append_assoc.
Qed.

Lemma dirname_basename c s :
  contains (String c EmptyString) s = true ->
  dirname (String c EmptyString) s ++ String c EmptyString
    ++ basename (String c EmptyString) s = s.
Proof.
  intros Hc. unfold dirname, basename.
  destruct (split_two c EmptyString s Hc) as (a & b & rest & E).
  pose proof (join_split_char c s) as J. rewrite E in *.
  assert (Hne : (a :: b :: rest) <> []) by discriminate.
  rewrite (List.app_removelast_last EmptyString Hne) in J at 1.
  rewrite join_snoc in J; [exact J |].
  cbn [List.removelast]. destruct rest; discriminate.
Qed.

Lemma basename_alone sep s :
  contains sep s = false -> basename sep s = s /\ dirname sep s = s.
Proof.
  intros Hc. unfold basename, dirname. now rewrite (split_absent _ _ Hc).
Qed.

(** X19.  With a separator of one character, the [.int] file is written to
    the very path that was chosen in the save dialog when that path holds a
    separator; a bare file name [n] is written to [n/n]; and without a chosen
    name the file goes to the directory of the images under the default name
    with the date and the time. *)
Theorem int_file_path_of_choice `{Runtime} c intfname_user tiff_dir dt :
  os_sep = String c EmptyString ->
  int_file_path intfname_user tiff_dir dt
  = if is_empty intfname_user
    then tiff_dir ++ os_sep ++ "GuidedIntegration_" ++ datetimestr dt ++ ".int"
    else if contains os_sep intfname_user then intfname_user
    else intfname_user ++ os_sep ++ intfname_user.
Proof.
  intros Hsep. unfold int_file_path. rewrite Hsep.
  destruct (is_empty intfname_user); [reflexivity |].
  destruct (contains (String c EmptyString) intfname_user) eqn:E.
  - now apply dirname_basename.
  - now destruct (basename_alone _ _ E) as [-> ->].
Qed.

Lemma int_file_path_of_choice_witness :
  int_file_path (H := demo_runtime) "/data/run 1/setup.int" "/data/tiff" demo_date
  = (if is_empty "/data/run 1/setup.int"
     then "/data/tiff" ++ "/" ++ "GuidedIntegration_" ++ datetimestr demo_date ++ ".int"
     else if contains "/" "/data/run 1/setup.int" then "/data/run 1/setup.int"
     else "/data/run 1/setup.int" ++ "/" ++ "/data/run 1/setup.int").
Proof.
  apply (int_file_path_of_choice (H := demo_runtime) "/"%char "/data/run 1/setup.int"
           "/data/tiff" demo_date).
  reflexivity.
Defined.

Lemma startswith_before_char name s : forall T rest,
  free_of (is_char s) name = true ->
  startswith name (T ++ String s rest) = startswith name T.
Proof.
  induction name as [|n name IH]; intros T rest Hn; [reflexivity |].
  cbn [free_of forallb] in Hn. apply andb_true_iff in Hn as [Hc Hn].
  destruct T as [|t T].
  - rewrite append_nil_l. cbn [startswith].
    unfold is_char in Hc. apply negb_true_iff in Hc. now rewrite Hc.
  - rewrite append_cons. cbn [startswith]. now rewrite (IH T rest Hn).
Qed.

Lemma startswith_refl p : startswith p p = true.
Proof. rewrite <- (append_nil_r p) at 2. apply startswith_app. Qed.

Lemma partition_head_before name s : forall T,
  name <> EmptyString -> free_of (is_char s) name = true ->
  contains name T = false ->
  partition_head name (T ++ String s name) = T ++ String s EmptyString.
Proof.
  intros T Hne Hfree. induction T as [|t T IH]; intros Hc.
  - rewrite !append_nil_l.
    pose proof (startswith_before_char name s EmptyString name Hfree) as E.
    rewrite append_nil_l in E.
    assert (E0 : startswith name EmptyString = false)
      by (destruct name; [contradiction | reflexivity]).
    rewrite E0 in E.
    change (partition_head name (String s name))
      with (if startswith name (String s name) then EmptyString
            else String s (partition_head name name)).
    rewrite E. f_equal.
    destruct name as [|n name]; [contradiction |].
    cbn [partition_head]. now rewrite startswith_refl.
  - cbn [contains] in Hc. apply orb_false_iff in Hc as [Hs Hc].
    rewrite !append_cons. cbn [partition_head].
    change (String t (T ++ String s name)) with (String t T ++ String s name).
    rewrite (startswith_before_char name s (String t T) name Hfree), Hs.
    now rewrite (IH Hc).
Qed.

Lemma dirname_last c T leaf :
  free_of (is_char c) leaf = true ->
  dirname (String c EmptyString) (T ++ String c leaf) = T.
Proof.
  intros Hleaf. unfold dirname. rewrite split_char_app.
  rewrite (split_absent _ leaf) by now apply contains_first_char.
  pose proof (split_go_nonempty (String c EmptyString) T 0) as Hne.
  fold (split (String c EmptyString) T) in Hne.
  pose proof (join_split_char c T) as J.
  pose proof (List.removelast_last (split (String c EmptyString) T) leaf) as Hr.
  pose proof (List.length_app (split (String c EmptyString) T) [leaf]) as Hl.
  destruct (split (String c EmptyString) T ++ [leaf])%list as [|x [|y r]].
  - cbn in Hl. lia.
  - destruct (split (String c EmptyString) T); [contradiction | cbn in Hl; lia].
  - now rewrite Hr.
Qed.

Lemma basename_last c T name :
  free_of (is_char c) name = true ->
  basename (String c EmptyString) (T ++ String c name) = name.
Proof.
  intros Hn. unfold basename. rewrite split_char_app.
  rewrite (split_absent _ name) by now apply contains_first_char.
  apply List.last_last.
Qed.

(** X20.  For folders chosen in the file browser, with a separator of one
    character: the name of a folder is what follows the last separator of its
    path; the directory of the images is the path of the first folder up to
    that separator - provided the name of that folder does not occur earlier
    in its own path - and the main directory is that directory up to its own
    last separator. *)
Theorem gui_dirs_of_selection `{Runtime} c M leaf name others :
  os_sep = String c EmptyString ->
  name <> EmptyString -> free_of (is_char c) name = true ->
  free_of (is_char c) leaf = true ->
  contains name (M ++ os_sep ++ leaf) = false ->
  let tiff_dir := M ++ os_sep ++ leaf in
  gui_dirstoint ((tiff_dir ++ os_sep ++ name) :: others)
  = name :: gui_dirstoint others
  /\ gui_tiff_dir ((tiff_dir ++ os_sep ++ name) :: others) = inr tiff_dir
  /\ gui_main_dir tiff_dir = M.
Proof.
  intros Hsep Hne Hfree Hleaf Hc tiff_dir. subst tiff_dir.
  unfold gui_tiff_dir, gui_dirstoint, gui_main_dir.
  rewrite Hsep in *. cbn [List.map].
  change (String c EmptyString ++ name) with (String c name).
  rewrite (basename_last c _ name Hfree).
  split; [reflexivity | split].
  - destruct name as [|n name]; [contradiction |]. cbn [is_empty].
    rewrite partition_head_before by assumption.
    now rewrite (dirname_last c _ EmptyString).
  - now apply dirname_last.
Qed.

Lemma gui_dirs_of_selection_witness :
  gui_dirstoint (H := demo_runtime)
    ((("/data" ++ "/" ++ "tiff") ++ "/" ++ "s1") :: ["/data/tiff/s2"])
  = "s1" :: gui_dirstoint (H := demo_runtime) ["/data/tiff/s2"]
  /\ gui_tiff_dir (H := demo_runtime)
       ((("/data" ++ "/" ++ "tiff") ++ "/" ++ "s1") :: ["/data/tiff/s2"])
     = inr ("/data" ++ "/" ++ "tiff")
  /\ gui_main_dir (H := demo_runtime) ("/data" ++ "/" ++ "tiff") = "/data".
Proof.
  apply (gui_dirs_of_selection (H := demo_runtime) "/"%char "/data" "tiff" "s1"
           ["/data/tiff/s2"]);
    [reflexivity | discriminate | reflexivity | reflexivity | reflexivity].
Defined.

(** ** The values typed in, and what is printed when a written file is loaded *)

Lemma lower_accepted_intmethod v :
  In v intmethod_accepted -> In (lower v) intmethod_accepted.
Proof.
  cbn. intros [<- | [<- | [<- | [<- | []]]]]; vm_compute; auto.
Qed.

Lemma lower_accepted_xunit v :
  In v xunit_accepted -> In (lower v) xunit_accepted.
Proof.
  cbn. intros [<- | [<- | [<- | [<- | [<- | [<- | []]]]]]]; vm_compute; tauto.
Qed.

Lemma guided_intmethod_accepted ans :
  exists out v, guided_intmethod ans = (out, Done v) /\ In v intmethod_accepted.
Proof.
  unfold guided_intmethod.
  destruct (is_empty ans); [do 2 eexists; split; [reflexivity | vm_compute; auto] |].
  destruct (in_list ans intmethod_accepted) eqn:E1;
    destruct (in_list (lower ans) intmethod_accepted) eqn:E2; cbn [negb andb].
  all: try (do 2 eexists; split; [reflexivity |]).
  - now apply in_list_In.
  - apply lower_accepted_intmethod. now apply in_list_In.
  - now apply in_list_In.
  - vm_compute; auto.
Qed.

Lemma guided_xunit_accepted ans :
  exists out v, guided_xunit ans = (out, Done v) /\ In v xunit_accepted.
Proof.
  unfold guided_xunit.
  destruct (is_empty ans); [do 2 eexists; split; [reflexivity | vm_compute; auto] |].
  destruct (String.eqb (lower ans) "tth");
    [do 2 eexists; split; [reflexivity | vm_compute; auto] |].
  destruct (String.eqb (lower ans) "q");
    [do 2 eexists; split; [reflexivity | vm_compute; tauto] |].
  destruct (in_list ans xunit_accepted) eqn:E1;
    destruct (in_list (lower ans) xunit_accepted) eqn:E2; cbn [negb andb].
  all: try (do 2 eexists; split; [reflexivity |]).
  - now apply in_list_In.
  - apply lower_accepted_xunit. now apply in_list_In.
  - now apply in_list_In.
  - vm_compute; auto.
Qed.

Lemma strip_chars_stem ext stem f rest pre l :
  stem = String f rest -> stem = pre ++ String l EmptyString ->
  char_in ext f = false -> char_in ext l = false ->
  strip_chars ext (stem ++ ext) = stem.
Proof.
  intros Hf Hl Hcf Hcl. unfold strip_chars, strip_by.
  rewrite rstrip_by_tail by apply forallb_char_in.
  rewrite Hl at 1. rewrite rstrip_by_last by assumption.
  rewrite <- Hl, Hf. cbn [lstrip_by]. now rewrite Hcf.
Qed.

(** X22.  The pattern of an image gets the name of the image with the
    image extension replaced by the extension of the pattern whenever the
    stem of the name neither begins nor ends with a character of the image
    extension; it is written below the folder of the patterns, behind two
    separators. *)
Theorem oneD_name_of_clean_stem `{Runtime} (c : config) image_extension fold
    stem f rest pre l ext :
  stem = String f rest -> stem = pre ++ String l EmptyString ->
  char_in image_extension f = false -> char_in image_extension l = false ->
  oneD_name c image_extension fold (stem ++ image_extension) ext
  = oneDdir c ++ os_sep ++ fold ++ os_sep ++ os_sep ++ stem ++ ext.
Proof.
  intros Hf Hl Hcf Hcl. unfold oneD_name, oneD_toplace.
  rewrite (strip_chars_stem image_extension stem f rest pre l Hf Hl Hcf Hcl).
  now rewrite !append_assoc.
Qed.

Lemma oneD_name_of_clean_stem_witness :
  oneD_name demo_config ".tiff" "s1" ("scan_0001" ++ ".tiff") ".xy"
  = oneDdir demo_config ++ os_sep ++ "s1" ++ os_sep ++ os_sep ++ "scan_0001" ++ ".xy".
Proof.
  apply (oneD_name_of_clean_stem demo_config ".tiff" "s1" "scan_0001"
           "s"%char "can_0001" "scan_000" "1"%char ".xy");
    reflexivity.
Defined.

Lemma bind_done {A B} (m : run A) (k : A -> run B) a :
  m = ([], Done a) -> m ≫= k = k a.
Proof. intros ->. unfold mbind, run_bind. now destruct (k a). Qed.

Section WrittenMessages.
Context `{Runtime}.
Variable dt : datetime.
Variable c : config.
Hypothesis Hvalid : valid_config c.
Hypothesis Hline : one_line_values c.

Lemma written_file_loads_quietly :
  load (readlines (int_text dt c))
  = ([ErrorModelAccepted (errormodel c)],
     Done (normalize c, image_extension_of (synsrc c))).
Proof.
  rewrite (written_lines dt c Hvalid Hline).
  pose proof (valid_clean_values c Hvalid) as Hclean.
  pose proof (written_keywords dt c Hclean) as Hkeys.
  destruct Hclean as [Hcl Hco].
  destruct Hvalid as [Hsrc _ _ Hpf Hpt (m & Hm & _ & Hmf & Hmt)
                        Hint Hunit Hrr Har Hnm Herr].
  unfold printed_values in Hcl. rewrite Hm in Hcl. cbn [str_maskf] in Hcl.
  repeat match goal with
         | Hf : List.Forall _ (_ :: _) |- _ =>
             let Hv := fresh "Hv" in
             apply List.Forall_cons_iff in Hf; destruct Hf as [Hv Hf]
         end.
  unfold load.
  rewrite (bind_done _ _ _ Hkeys).
  rewrite (bind_done (check_keywords written_dict) _ tt eq_refl).
  repeat match goal with
         | |- raw_value _ _ ?k ≫= _ = _ =>
             erewrite (bind_done (raw_value _ _ k));
             [| eapply (raw_value_written dt c k);
                [cbn; tauto | reflexivity
                 | unfold body; rewrite ?Hm; reflexivity
                 | assumption
                 | first [left; cbn; tauto | right; assumption]]]
         end.
  rewrite (bind_done _ _ _ (check_poni_valid _ Hpf Hpt)).
  rewrite (bind_done _ _ _ (check_mask_valid _ Hmf Hmt)).
  assert (Hs : check_synsrc (synsrc c) = ([], Done (image_extension_of (synsrc c)))).
  { cbn in Hsrc. destruct Hsrc as [<- | [<- | [<- | []]]]; reflexivity. }
  rewrite (bind_done _ _ _ Hs).
  assert (Hi : load_intmethod (intmethod c) = ([], Done (intmethod c))).
  { cbn in Hint. repeat destruct Hint as [<- | Hint]; try reflexivity. destruct Hint. }
  rewrite (bind_done _ _ _ Hi).
  assert (Hu : load_xunit (xunit c) = ([], Done (lower (xunit c)))).
  { cbn in Hunit. repeat destruct Hunit as [<- | Hunit]; try reflexivity. destruct Hunit. }
  rewrite (bind_done _ _ _ Hu).
  assert (Hp : load_rad_points (str_int (rad_points c)) = ([], Done (rad_points c))).
  { unfold load_rad_points. now rewrite py_int_str_int. }
  rewrite (bind_done _ _ _ Hp).
  rewrite (bind_done _ _ _ (check_range_valid "rad_range" _ Hrr)).
  rewrite (bind_done _ _ _ (check_range_valid "azim_range" _ Har)).
  rewrite (bind_done _ _ _ (check_neg_mask_valid _ Hnm)).
  assert (He : check_errormodel (errormodel c)
               = ([ErrorModelAccepted (errormodel c)], Done (lower (errormodel c)))).
  { cbn in Herr. repeat destruct Herr as [<- | Herr]; try reflexivity. destruct Herr. }
  rewrite He. unfold normalize. rewrite Hm. reflexivity.
Qed.

End WrittenMessages.

(** X23.  Loading the file written for a valid configuration, whose paths
    and printed pairs and floats hold no carriage return, prints a single
    message, the acceptance of the error model: no warning, no fall-back, and
    both banners are found. *)
Theorem written_file_prints_no_warning `{Runtime} dt (c : config) :
  valid_config c -> one_line_values c ->
  printed (load (readlines (int_text dt c))) = [ErrorModelAccepted (errormodel c)]
  /\ List.existsb is_warning (printed (load (readlines (int_text dt c)))) = false.
Proof.
  intros Hv Hl. rewrite (written_file_loads_quietly dt c Hv Hl). split; reflexivity.
Qed.

Lemma written_file_prints_no_warning_witness :
  printed (load (readlines (int_text demo_date demo_config)))
  = [ErrorModelAccepted (errormodel demo_config)]
  /\ List.existsb is_warning (printed (load (readlines (int_text demo_date demo_config))))
     = false.
Proof.
  apply (written_file_prints_no_warning demo_date demo_config).
  - demo_config_is_valid.
  - repeat constructor.
Defined.

(** ** The prompts for the parameters (lines 240-620) *)

Lemma outcome_bind_done {A B} (m : run A) (k : A -> run B) b :
  outcome (m ≫= k) = Done b ->
  exists a, outcome m = Done a /\ outcome (k a) = Done b.
Proof.
  destruct m as [out [a | | e]]; unfold mbind, run_bind, outcome; cbn [snd];
    try discriminate.
  intros Hb. exists a. split; [reflexivity |]. now destruct (k a).
Qed.

Section GuidedFlow.
Context `{Runtime}.

Lemma enter_parameters_checked a p :
  outcome (enter_parameters a) = Done p -> parameters_checked p.
Proof.
  unfold enter_parameters. intros Hp.
  apply outcome_bind_done in Hp as (i & Hi & Hp).
  apply outcome_bind_done in Hp as (x & Hx & Hp).
  apply outcome_bind_done in Hp as (n & Hn & Hp).
  apply outcome_bind_done in Hp as (rr & Hrr & Hp).
  apply outcome_bind_done in Hp as (ar & Har & Hp).
  apply outcome_bind_done in Hp as (nm & Hnm & Hp).
  apply outcome_bind_done in Hp as (em & Hem & Hp).
  injection Hp as <-. unfold parameters_checked.
  cbn [p_intmethod p_xunit p_rad_range p_azim_range p_neg_mask p_errormodel].
  split; [| split; [| split; [| split; [| split]]]].
  - destruct (guided_intmethod_accepted (a_intmethod a)) as (out & v & E & Hv).
    rewrite E in Hi. now injection Hi as <-.
  - destruct (guided_xunit_accepted (a_xunit a)) as (out & v & E & Hv).
    rewrite E in Hx. now injection Hx as <-.
  - pose proof (check_range_outcome "rad_range" (a_rad_range a)) as G.
    now rewrite Hrr in G.
  - pose proof (check_range_outcome "azim_range" (a_azim_range a)) as G.
    now rewrite Har in G.
  - pose proof (check_neg_mask_outcome (a_neg_mask a)) as G.
    unfold outcome in Hnm. destruct (check_neg_mask (a_neg_mask a)) as [out r].
    cbn [snd] in Hnm. subst r.
    destruct G as [G | [G | (G & _ & Hd & _)]]; [now left | right; now left |].
    right. right. now exists (a_neg_mask a).
  - destruct (check_errormodel_values (a_errormodel a)) as (e & E & Hv).
    rewrite E in Hem. injection Hem as <-.
    destruct Hv as [-> | [-> | ->]]; cbn; tauto.
Qed.

Lemma default_parameters_checked : parameters_checked default_parameters.
Proof.
  unfold parameters_checked, default_parameters, range_checked. cbn.
  repeat split; try tauto.
  right. left. now eexists.
Qed.

Lemma guided_parameters_checked sel first c1 second c2 p :
  outcome (guided_parameters sel first c1 second c2) = Done (Some p) ->
  parameters_checked p.
Proof.
  unfold guided_parameters.
  destruct (String.eqb sel "1").
  { intros [= <-]. apply default_parameters_checked. }
  destruct (String.eqb sel "2"); [| discriminate].
  intros Hp. apply outcome_bind_done in Hp as (p1 & H1 & Hp).
  destruct (String.eqb c1 "1").
  { injection Hp as <-. now apply (enter_parameters_checked first). }
  destruct (String.eqb c1 "2").
  - apply outcome_bind_done in Hp as (p2 & H2 & Hp).
    destruct (String.eqb c2 "1").
    { injection Hp as <-. now apply (enter_parameters_checked second). }
    destruct (String.eqb c2 "2"); [discriminate |].
    injection Hp as <-. now apply (enter_parameters_checked second).
  - destruct (String.eqb c1 "3"); [discriminate |].
    injection Hp as <-. now apply (enter_parameters_checked first).
Qed.

End GuidedFlow.

(** X24.  Whatever is typed at the prompts, parameters that come out of
    them have been checked: the split method and the unit are accepted
    values, the error model is [None], [none] or [poisson] - so the patterns
    always have an extension - each range is [None], empty, or starts with
    two numbers, and the automask value is [None], a float, or text without
    a digit. *)
Theorem guided_parameters_are_checked `{Runtime}
    intprmselect first intprmconfirm second intprmconfirm2 p :
  outcome (guided_parameters intprmselect first intprmconfirm second intprmconfirm2)
  = Done (Some p) ->
  parameters_checked p
  /\ oneD_extension (p_errormodel p) (p_xunit p) <> None.
Proof.
  intros Hp. apply guided_parameters_checked in Hp. split; [exact Hp |].
  destruct Hp as (_ & _ & _ & _ & _ & He). cbn in He.
  destruct He as [<- | [<- | [<- | []]]]; discriminate.
Qed.

Lemma guided_parameters_are_checked_witness :
  parameters_checked
    (@Parameters quoting_runtime "bbox" "q_A^-1" 3000 (PTuple [PInt 0; PInt 15]) PNone
       (PStr "off") "poisson")
  /\ oneD_extension "poisson" "q_A^-1" <> None.
Proof.
  apply (guided_parameters_are_checked (H := quoting_runtime) "2"
           demo_answers "yes" no_answers EmptyString).
  reflexivity.
Defined.

(** X25.  At the question whether the parameters are correct, every answer
    but [2] and [3] counts as yes - at the second asking every answer but
    [2] - and an answer other than [1] and [2] to the first question, whether
    to use the defaults, leaves the parameters unbound: nothing is asked, and
    the first statement that reads them raises [NameError]. *)
Theorem guided_confirmation_by_default `{Runtime}
    intprmselect first intprmconfirm second intprmconfirm2 :
  (intprmconfirm <> "2" -> intprmconfirm <> "3" ->
     guided_parameters "2" first intprmconfirm second intprmconfirm2
     = guided_parameters "2" first "1" second intprmconfirm2)
  /\ (intprmconfirm2 <> "2" ->
      guided_parameters "2" first "2" second intprmconfirm2
      = guided_parameters "2" first "2" second "1")
  /\ (intprmselect <> "1" -> intprmselect <> "2" ->
      guided_parameters intprmselect first intprmconfirm second intprmconfirm2
        ≫= read_parameters
      = ([], Raised NameError)).
Proof.
  split; [| split].
  - intros H2 H3. apply String.eqb_neq in H2, H3.
    unfold guided_parameters. cbn [String.eqb Ascii.eqb Bool.eqb].
    rewrite H2, H3. now destruct (String.eqb intprmconfirm "1").
  - intros H2. apply String.eqb_neq in H2.
    unfold guided_parameters. cbn [String.eqb Ascii.eqb Bool.eqb].
    rewrite H2. now destruct (String.eqb intprmconfirm2 "1").
  - intros H1 H2. apply String.eqb_neq in H1, H2.
    unfold guided_parameters. now rewrite H1, H2.
Qed.

Lemma guided_confirmation_by_default_witness :
  guided_parameters (H := demo_runtime) "2"
    demo_answers "y" no_answers EmptyString
  = guided_parameters "2" demo_answers "1" no_answers EmptyString
  /\ guided_parameters (H := demo_runtime) EmptyString no_answers EmptyString
       no_answers EmptyString
     ≫= read_parameters
     = ([], Raised NameError).
Proof.
  destruct (guided_confirmation_by_default (H := demo_runtime) EmptyString
              demo_answers "y"
              no_answers EmptyString) as (Ha & _ & _).
  destruct (guided_confirmation_by_default (H := demo_runtime) EmptyString
              no_answers EmptyString
              no_answers EmptyString) as (_ & _ & Hc).
  split; [apply Ha; discriminate | apply Hc; discriminate].
Defined.

(** ** Confirming the keyword *)

(** X26.  A keyword selects folders only when it was confirmed with [1], at
    the first asking or - after [2] - at the second; [3] quits at either
    asking, although the second asking offers only [1] and [2]; and any other
    answer neither asks again nor quits: the list of folders is left unbound
    and the loop over it raises [NameError]. *)
Theorem keyword_needs_confirmation keyword keywordcorrect keyword2 keywordcorrect2
    subdirs :
  let r := keyword_prompt keyword keywordcorrect keyword2 keywordcorrect2
             ≫= cli_dirstoint subdirs in
  (keywordcorrect = "1" -> r = ([], Done (select_dirs keyword subdirs)))
  /\ (keywordcorrect = "2" -> keywordcorrect2 = "1" ->
      r = ([], Done (select_dirs keyword2 subdirs)))
  /\ (keywordcorrect = "3" \/ (keywordcorrect = "2" /\ In keywordcorrect2 ["2"; "3"]) ->
      r = ([Quit], Exit))
  /\ (~ In keywordcorrect ["1"; "2"; "3"]
      \/ (keywordcorrect = "2" /\ ~ In keywordcorrect2 ["1"; "2"; "3"]) ->
      r = ([], Raised NameError)).
Proof.
  intros r. subst r. unfold keyword_prompt.
  split; [| split; [| split]].
  - now intros ->.
  - now intros -> ->.
  - intros [-> | [-> [<- | [<- | []]]]]; reflexivity.
  - intros [Hn | [-> Hn]]; cbn in Hn.
    + assert (H1 : String.eqb keywordcorrect "1" = false)
        by (apply String.eqb_neq; intros E; apply Hn; auto).
      assert (H2 : String.eqb keywordcorrect "2" = false)
        by (apply String.eqb_neq; intros E; apply Hn; auto).
      assert (H3 : String.eqb keywordcorrect "3" = false)
        by (apply String.eqb_neq; intros E; apply Hn; auto).
      now rewrite H1, H2, H3.
    + assert (H1 : String.eqb keywordcorrect2 "1" = false)
        by (apply String.eqb_neq; intros E; apply Hn; auto).
      assert (H2 : String.eqb keywordcorrect2 "2" = false)
        by (apply String.eqb_neq; intros E; apply Hn; auto).
      assert (H3 : String.eqb keywordcorrect2 "3" = false)
        by (apply String.eqb_neq; intros E; apply Hn; auto).
      cbn [String.eqb Ascii.eqb Bool.eqb]. now rewrite H1, H2, H3.
Qed.

Lemma keyword_needs_confirmation_witness :
  keyword_prompt "LiCl" "2" "NaCl" "1" ≫= cli_dirstoint ["LiCl_1"; "NaCl_1"]
  = ([], Done (select_dirs "NaCl" ["LiCl_1"; "NaCl_1"]))
  /\ keyword_prompt "LiCl" "yes" "NaCl" "1" ≫= cli_dirstoint ["LiCl_1"; "NaCl_1"]
     = ([], Raised NameError).
Proof.
  destruct (keyword_needs_confirmation "LiCl" "2" "NaCl" "1" ["LiCl_1"; "NaCl_1"])
    as (_ & Hb & _ & _).
  destruct (keyword_needs_confirmation "LiCl" "yes" "NaCl" "1" ["LiCl_1"; "NaCl_1"])
    as (_ & _ & _ & Hd).
  split; [apply Hb; reflexivity |].
  apply Hd. left. cbn. intros [E | [E | [E | []]]]; discriminate E.
Defined.

(** ** The two files of a run *)

Lemma append_cancel a b c : a ++ b = a ++ c -> b = c.
Proof.
  induction a as [|x a IH]; [now rewrite !append_nil_l |].
  rewrite !append_cons. intros [= E]. now apply IH.
Qed.

Lemma save_record_file_lookup `{Runtime} (c : config) fs path dt dirstoint intedimages :
  save_record_file c fs path dt dirstoint intedimages !! path
  = Some (record_text c dt dirstoint intedimages).
Proof.
  unfold save_record_file, close. rewrite lookup_insert_eq. f_equal.
  rewrite fold_write_data. unfold truncate, seek. cbn [h_data h_pos].
  now rewrite substring_0_0.
Qed.

Lemma save_record_file_other `{Runtime} (c : config) fs path dt dirstoint intedimages
    other :
  other <> path ->
  save_record_file c fs path dt dirstoint intedimages !! other = fs !! other.
Proof.
  intros Hne. unfold save_record_file, close. now rewrite lookup_insert_ne.
Qed.

Lemma record_path_differs `{Runtime} intfname_user tiff_dir dt :
  is_empty intfname_user = true \/ basename os_sep intfname_user <> recfname dt ->
  record_file_path intfname_user tiff_dir dt <> int_file_path intfname_user tiff_dir dt.
Proof.
  unfold record_file_path, int_file_path, recfname.
  intros [He | Hb].
  - rewrite He. intros E. do 4 apply append_cancel in E. discriminate E.
  - destruct (is_empty intfname_user).
    + intros E. do 4 apply append_cancel in E. discriminate E.
    + intros E. do 2 apply append_cancel in E. apply Hb. now symmetry.
Qed.

(** X27.  The record goes to the directory of the [.int] file under its
    own name.  Unless the name chosen for the [.int] file is the very name
    of the record, the two paths differ: writing the record leaves the
    [.int] file as it was written, and after the run each of the two files
    holds its own text and no other file has changed. *)
Theorem int_and_record_files `{Runtime} (c : config) fs intfname_user tiff_dir dt
    dirstoint intedimages :
  is_empty intfname_user = true \/ basename os_sep intfname_user <> recfname dt ->
  let ipath := int_file_path intfname_user tiff_dir dt in
  let rpath := record_file_path intfname_user tiff_dir dt in
  let fs' := save_record_file c (save_int_file fs ipath dt c) rpath dt
               dirstoint intedimages in
  ipath <> rpath
  /\ fs' !! ipath = Some (int_text dt c)
  /\ fs' !! rpath = Some (record_text c dt dirstoint intedimages)
  /\ forall other, other <> ipath -> other <> rpath -> fs' !! other = fs !! other.
Proof.
  intros Hn ipath rpath fs'.
  pose proof (record_path_differs intfname_user tiff_dir dt Hn) as Hd.
  fold ipath rpath in Hd.
  split; [congruence |]. split; [| split].
  - unfold fs'. rewrite save_record_file_other by congruence.
    apply save_int_file_lookup.
  - apply save_record_file_lookup.
  - intros other Hi Hr. unfold fs'.
    rewrite save_record_file_other by assumption.
    now apply save_int_file_other.
Qed.

Lemma int_and_record_files_witness :
  let ipath := int_file_path (H := demo_runtime) EmptyString "/data/tiff" demo_date in
  let rpath := record_file_path (H := demo_runtime) EmptyString "/data/tiff" demo_date in
  let fs' := save_record_file demo_config (save_int_file ∅ ipath demo_date demo_config)
               rpath demo_date ["s1"] ["scan1.tiff"] in
  ipath <> rpath
  /\ fs' !! ipath = Some (int_text demo_date demo_config)
  /\ fs' !! rpath = Some (record_text demo_config demo_date ["s1"] ["scan1.tiff"])
  /\ forall other, other <> ipath -> other <> rpath -> fs' !! other = (∅ : files) !! other.
Proof.
  apply (int_and_record_files (H := demo_runtime) demo_config ∅ EmptyString
           "/data/tiff" demo_date ["s1"] ["scan1.tiff"]).
  left. reflexivity.
Defined.
